(** * Indigo BGS: sync handlers and indexer, a shallow embedding

    The Go sources embedded here are the XRPC sync handlers of the Big
    Graph Server (package [bgs]) and the indexer (package [indexer]): record
    dispatch, the post, like, follow and repost rows, actor initialisation,
    repository fetch with catch-up, and the firehose envelope.

    Layout: the Go runtime pieces the code relies on; the sync handlers;
    the data model; the state-and-error monad; the indexer; the crawl job;
    the rate limiters; the vocabulary in which the properties are stated;
    sample data; the properties.

    Conventions.
    - Go integers are [Z]; [int64] arithmetic that can leave its range is
      wrapped explicitly ([wrap64]).
    - A Go slice is [option (list A)]: [None] is the nil slice, [Some l] a
      non-nil one.  A Go pointer that the code tests against nil or
      dereferences is an [option].
    - A Go [(T, error)] result is [Res T]; a run-time panic (nil pointer
      dereference) is the third outcome [Panic].
    - Database tables are lists of rows in primary-key order, which is the
      insertion order; a deleted row leaves the list.
    - Logging, tracing spans and metrics counters have no counterpart; the
      rate limiter of a crawl job is reduced to the wait that precedes
      each fetch, and the map of limiters is embedded on its own. *)

From Stdlib Require Import ZArith List String Ascii Bool Lia Arith.
From Stdlib Require Import DecimalString DecimalZ DecimalPos Sorted.
Import ListNotations.

Local Open Scope string_scope.
Local Open Scope Z_scope.
Local Open Scope list_scope.

(* ================================================================== *)
(** * Go runtime: errors, results, strings, strconv *)
(* ================================================================== *)

Module Go.

(** Error values that the embedded code creates or inspects. *)
Inductive error : Type :=
| ErrRecordNotFound                         (* gorm.ErrRecordNotFound *)
| ErrIpldNotFound                           (* ipld.ErrNotFound{}     *)
| ErrSyntax (fn num : string)               (* strconv.ErrSyntax      *)
| ErrRange (fn num : string)                (* strconv.ErrRange       *)
| HTTPError (code : Z) (msg : string)       (* *echo.HTTPError        *)
| Errorf (msg : string)                     (* fmt.Errorf, no %w      *)
| Wrapf (msg : string) (inner : error)      (* fmt.Errorf with %w     *)
| ErrExternal (msg : string).               (* raised by a collaborator *)

Inductive Res (A : Type) : Type :=
| Ok (a : A)
| Err (e : error)
| Panic (msg : string).
Arguments Ok {A} a.
Arguments Err {A} e.
Arguments Panic {A} msg.

(** [errors.Is(err, gorm.ErrRecordNotFound)]: follows the %w chain. *)
Fixpoint isRecordNotFound (e : error) : bool :=
  match e with
  | ErrRecordNotFound => true
  | Wrapf _ inner => isRecordNotFound inner
  | _ => false
  end.

(** [ipld.IsNotFound(err)]: follows the %w chain. *)
Fixpoint ipldIsNotFound (e : error) : bool :=
  match e with
  | ErrIpldNotFound => true
  | Wrapf _ inner => ipldIsNotFound inner
  | _ => false
  end.

(** [len] of a slice. *)
Definition len {A} (s : option (list A)) : Z :=
  match s with
  | None => 0
  | Some l => Z.of_nat (List.length l)
  end.

(** [append(s, x)]. *)
Definition append {A} (s : option (list A)) (x : A) : option (list A) :=
  match s with
  | None => Some [x]
  | Some l => Some (l ++ [x])
  end.

(** The elements a [for range] loop visits. *)
Definition elems {A} (s : option (list A)) : list A :=
  match s with
  | None => []
  | Some l => l
  end.

(** [strings.HasPrefix(s, p)]. *)
Definition HasPrefix (s p : string) : bool := String.prefix p s.

Definition minInt64 : Z := - 2 ^ 63.
Definition maxInt64 : Z := 2 ^ 63 - 1.
Definition maxUint64 : Z := 2 ^ 64 - 1.

(** Two's-complement wrap-around of [int64] arithmetic. *)
Definition wrap64 (z : Z) : Z := (z + 2 ^ 63) mod 2 ^ 64 - 2 ^ 63.

Definition isDigit (c : ascii) : bool :=
  let n := Z.of_nat (nat_of_ascii c) in (48 <=? n) && (n <=? 57).

(** The digit loop of [strconv.ParseUint(s, 10, 64)], [n] being the value
    read so far.  In base 10 every byte that is not a decimal digit is a
    syntax error (letters stand for digits >= 10, the underscore is only
    accepted in base 0). *)
Fixpoint parseUintLoop (s0 s : string) (n : Z) : Res Z :=
  match s with
  | EmptyString => Ok n
  | String c rest =>
      if isDigit c then
        let d := Z.of_nat (nat_of_ascii c) - 48 in
        if n >=? maxUint64 / 10 + 1 then Err (ErrRange "ParseUint" s0)
        else
          let n1 := n * 10 + d in
          if n1 >? maxUint64 then Err (ErrRange "ParseUint" s0)
          else parseUintLoop s0 rest n1
      else Err (ErrSyntax "ParseUint" s0)
  end.

Definition ParseUint10 (s : string) : Res Z :=
  match s with
  | EmptyString => Err (ErrSyntax "ParseUint" s)
  | _ => parseUintLoop s s 0
  end.

(** [strconv.ParseInt(s, 10, 64)]. *)
Definition ParseInt10 (s : string) : Res Z :=
  match s with
  | EmptyString => Err (ErrSyntax "ParseInt" s)
  | String c rest =>
      let neg := Ascii.eqb c "-" in
      let body := if Ascii.eqb c "+" || neg then rest else s in
      let cutoff := 2 ^ 63 in
      match ParseUint10 body with
      | Err (ErrRange _ _) => Err (ErrRange "ParseInt" s)
      | Err _ => Err (ErrSyntax "ParseInt" s)
      | Panic m => Panic m
      | Ok un =>
          if negb neg && (un >=? cutoff) then Err (ErrRange "ParseInt" s)
          else if neg && (un >? cutoff) then Err (ErrRange "ParseInt" s)
          else Ok (wrap64 (if neg then - un else un))
      end
  end.

(** [strconv.FormatInt(i, 10)]. *)
Definition FormatInt10 (i : Z) : string :=
  NilZero.string_of_int (Z.to_int i).

End Go.
Import Go.

(** [err.Error()].  [strconv.Quote] is rendered with plain double quotes
    (its escaping of unprintable bytes only changes message texts). *)
Definition dquote : string := String (ascii_of_nat 34) EmptyString.

Fixpoint errorString (e : error) : string :=
  match e with
  | ErrRecordNotFound => "record not found"
  | ErrIpldNotFound => "ipld: could not find node"
  | ErrSyntax fn num =>
      "strconv." ++ fn ++ ": parsing " ++ dquote ++ num ++ dquote ++ ": invalid syntax"
  | ErrRange fn num =>
      "strconv." ++ fn ++ ": parsing " ++ dquote ++ num ++ dquote ++ ": value out of range"
  | HTTPError code msg =>
      "code=" ++ FormatInt10 code ++ ", message=" ++ msg
  | Errorf msg => msg
  | Wrapf prefix inner => prefix ++ errorString inner
  | ErrExternal msg => msg
  end%string.

(* ================================================================== *)
(** * Package bgs: the XRPC sync handlers *)
(* ================================================================== *)

Module Bgs.

(** A row of the BGS [users] table, with the columns the handlers read. *)
Record User : Type := mkUser
  { ID : Z; Did : string; Tombstoned : bool; TakenDown : bool }.

(** A CID is carried as its string form; [cid.Undef] is the empty one. *)
Definition Cid : Type := string.
Definition cidUndef : Cid := "".

Record SyncListRepos_Repo : Type := mkRepo
  { Repo_Did : string; Repo_Head : string }.

Record SyncListRepos_Output : Type := mkListReposOutput
  { Cursor : option string; Repos : option (list SyncListRepos_Repo) }.

Record SyncGetLatestCommit_Output : Type := mkLatestCommit
  { Commit_Cid : string; Commit_Rev : string }.

(** The receiver [s *BGS]: the table it queries, the error (if any) that
    the database driver reports for a statement, the [ssl] setting, and
    the collaborators the handlers call, each by its outcome. *)
Record BGS : Type := mkBGS
  { users : list User;
    dbFault : option error;
    ssl : bool;
    repoman_GetRepoRoot : Z -> Res Cid;
    repoman_GetRepoRev : Z -> Res string;
    repoman_GetRecord : Z -> string -> string -> Cid -> Res (list Z);
    repoman_ReadRepo : Z -> string -> Res (list Z);
    blobs : option (string -> string -> Res (list Z));
    domainIsBanned : string -> bool * option error;
    slurper_SubscribeToPds : string -> bool -> option error;
    ServerDescribeServer : string -> option error }.

Section Handlers.

(** Library functions used by the handlers ([go-cid], [indigo/util]). *)
Variable cid_Decode : string -> Res Cid.
Variable NormalizeHostname : string -> Res string.

(** [record.MarshalCBOR(buf)], from the record that [repoman.GetRecord]
    returned to the bytes written to [buf]. *)
Variable MarshalCBOR : list Z -> Res (list Z).

(** Modelled from the spec: [lookupUserByDid] is defined elsewhere in the
    package; section 4.2 gives it as "returns the actor row or a not-found
    signal distinct from other errors". *)
Definition lookupUserByDid (s : BGS) (did : string) : Res User :=
  match dbFault s with
  | Some e => Err e
  | None =>
      match find (fun u => String.eqb (Did u) did) (users s) with
      | Some u => Ok u
      | None => Err ErrRecordNotFound
      end
  end.

(** The common prologue of getRecord, getRepo and getLatestCommit. *)
Definition lookupLiveUser (s : BGS) (did : string) : Res User :=
  match lookupUserByDid s did with
  | Err err =>
      if isRecordNotFound err then Err (HTTPError 404 "user not found")
      else Err (HTTPError 500 "failed to lookup user")
  | Panic m => Panic m
  | Ok u =>
      if Tombstoned u then Err (Errorf "account was deleted")
      else if TakenDown u then Err (Errorf "account was taken down")
      else Ok u
  end.

Definition handleComAtprotoSyncGetRecord (s : BGS)
    (collection commit did rkey : string) : Res (list Z) :=
  match lookupLiveUser s did with
  | Err e => Err e
  | Panic m => Panic m
  | Ok u =>
      let decoded :=
        if String.eqb commit "" then Ok cidUndef
        else match cid_Decode commit with
             | Ok c => Ok c
             | Err err => Err (Wrapf "failed to decode commit cid: " err)
             | Panic m => Panic m
             end in
      match decoded with
      | Err e => Err e
      | Panic m => Panic m
      | Ok reqCid =>
          match repoman_GetRecord s (ID u) collection rkey reqCid with
          | Err err => Err (Wrapf "failed to get record: " err)
          | Panic m => Panic m
          | Ok record =>
              match MarshalCBOR record with
              | Err err => Err (Wrapf "failed to marshal record: " err)
              | Panic m => Panic m
              | Ok buf => Ok buf
              end
          end
      end
  end.

Definition handleComAtprotoSyncGetRepo (s : BGS) (did since : string)
  : Res (list Z) :=
  match lookupLiveUser s did with
  | Err e => Err e
  | Panic m => Panic m
  | Ok u =>
      match repoman_ReadRepo s (ID u) since with
      | Err err => Err (Wrapf "failed to read repo: " err)
      | Panic m => Panic m
      | Ok buf => Ok buf
      end
  end.

Definition handleComAtprotoSyncRequestCrawl (s : BGS) (Hostname : string)
  : Res unit :=
  let host := Hostname in
  if String.eqb host "" then Err (Errorf "must pass valid hostname")
  else if HasPrefix host "https://" || HasPrefix host "http://" then
    Err (HTTPError 400 "must pass domain without protocol scheme")
  else
    match NormalizeHostname host with
    | Err err => Err err
    | Panic m => Panic m
    | Ok norm =>
        let (banned, _) := domainIsBanned s host in
        if banned then Err (HTTPError 401 "domain is banned")
        else
          let c_Host :=
            if ssl s then ("https://" ++ host)%string
            else ("http://" ++ host)%string in
          match ServerDescribeServer s c_Host with
          | Some err =>
              Err (HTTPError 401
                     ("given host failed to respond to ping: "
                        ++ errorString err)%string)
          | None =>
              match slurper_SubscribeToPds s norm true with
              | Some err => Err err
              | None => Ok tt
              end
          end
    end.

Definition handleComAtprotoSyncGetBlocks (s : BGS) (cids : option (list string))
    (did : string) : Res (list Z) :=
  Err (Errorf "NYI").

Definition handleComAtprotoSyncNotifyOfUpdate (s : BGS) (Hostname : string)
  : Res unit :=
  Ok tt.

Definition handleComAtprotoSyncListBlobs (s : BGS) (cursor did : string)
    (limit : Z) (since : string) : Res (option string * option (list string)) :=
  Err (Errorf "NYI").

Definition handleComAtprotoSyncGetBlob (s : BGS) (cid did : string)
  : Res (list Z) :=
  match blobs s with
  | None => Err (HTTPError 404 "blobs not enabled on this server")
  | Some GetBlob => GetBlob cid did
  end.

(** [ORDER BY id]: insertion into a list sorted by ascending ID. *)
Fixpoint insertByID (u : User) (l : list User) : list User :=
  match l with
  | [] => [u]
  | v :: l' => if ID u <=? ID v then u :: l else v :: insertByID u l'
  end.

Definition orderByID (l : list User) : list User :=
  fold_right insertByID [] l.

(** [Limit(n)]: a negative [n] lifts the limit. *)
Definition sqlLimit {A} (n : Z) (l : list A) : list A :=
  if n <? 0 then l else firstn (Z.to_nat n) l.

(** [Where("id > ? AND NOT tombstoned AND NOT taken_down", c)
      .Order("id").Limit(limit).Find(&users)]. *)
Definition listReposQuery (s : BGS) (c limit : Z) : list User :=
  sqlLimit limit
    (orderByID
       (filter (fun u => (c <? ID u) && negb (Tombstoned u) && negb (TakenDown u))
               (users s))).

(** The loop of [handleComAtprotoSyncListRepos] that resolves the head
    of every returned user, appending to [resp.Repos]. *)
Fixpoint listReposHeads (s : BGS) (us : list User)
    (acc : list SyncListRepos_Repo) : Res (list SyncListRepos_Repo) :=
  match us with
  | [] => Ok acc
  | user :: rest =>
      match repoman_GetRepoRoot s (ID user) with
      | Err err =>
          Err (Wrapf ("failed to get repo root for (" ++ Did user ++ "): ")%string err)
      | Panic m => Panic m
      | Ok root =>
          listReposHeads s rest (acc ++ [mkRepo (Did user) root])
      end
  end.

Definition handleComAtprotoSyncListRepos (s : BGS) (cursor : string)
    (limit : Z) : Res SyncListRepos_Output :=
  let parsed :=
    if String.eqb cursor "" then Ok 0
    else match ParseInt10 cursor with
         | Ok c => Ok c
         | Err err => Err (Wrapf "invalid cursor: " err)
         | Panic m => Panic m
         end in
  match parsed with
  | Err e => Err e
  | Panic m => Panic m
  | Ok c =>
      match dbFault s with
      | Some err =>
          if match err with ErrRecordNotFound => true | _ => false end
          then Ok (mkListReposOutput None None)
          else Err (Wrapf "failed to get users: " err)
      | None =>
          let found := listReposQuery s c limit in
          match found with
          | [] => Ok (mkListReposOutput None None)
          | _ =>
              match listReposHeads s found [] with
              | Err e => Err e
              | Panic m => Panic m
              | Ok repos =>
                  let c' := wrap64 (c + Z.of_nat (List.length found)) in
                  Ok (mkListReposOutput (Some (FormatInt10 c')) (Some repos))
              end
          end
      end
  end.

Definition handleComAtprotoSyncGetLatestCommit (s : BGS) (did : string)
  : Res SyncGetLatestCommit_Output :=
  match lookupLiveUser s did with
  | Err e => Err e
  | Panic m => Panic m
  | Ok u =>
      match repoman_GetRepoRoot s (ID u) with
      | Err err => Err (Wrapf "failed to get repo root: " err)
      | Panic m => Panic m
      | Ok root =>
          match repoman_GetRepoRev s (ID u) with
          | Err err => Err (Wrapf "failed to get repo rev: " err)
          | Panic m => Panic m
          | Ok rev => Ok (mkLatestCommit root rev)
          end
      end
  end.

End Handlers.

(** The HTTP status a handler's error surfaces with.

    Modelled from the spec: the HTTP layer is defined elsewhere.  An
    [echo.HTTPError] carries its own status code; section 7 gives every
    other failure as "Internal ... HTTP 500". *)
Definition httpStatus (e : error) : Z :=
  match e with
  | HTTPError code _ => code
  | _ => 500
  end.

End Bgs.

(* ================================================================== *)
(** * Data model of the indexer *)
(* ================================================================== *)

(** A CID is carried as its string form ([.String()] is the identity). *)
Definition Cid : Type := string.
Definition Uid : Type := Z.

(** Rows of the relational store (package [models]), with the columns the
    handlers read and write. *)
Module ActorInfo.
Record t : Type := mk
  { ID : Z; Uid : Uid; Handle : option string; Did : string;
    DisplayName : string; Type_ : string; PDS : Z }.

(** The zero value [var ai models.ActorInfo]. *)
Definition zero : t := mk 0 0 None "" "" "" 0.
End ActorInfo.

Module FeedPost.
Record t : Type := mk
  { ID : Z; Author : Uid; Rkey : string; Cid : string; UpCount : Z;
    ReplyTo : Z; Missing : bool; Deleted : bool }.
Definition zero : t := mk 0 0 "" "" 0 0 false false.

Definition setID (i : Z) (p : t) : t :=
  mk i (Author p) (Rkey p) (Cid p) (UpCount p) (ReplyTo p) (Missing p) (Deleted p).
Definition setUpCount (n : Z) (p : t) : t :=
  mk (ID p) (Author p) (Rkey p) (Cid p) n (ReplyTo p) (Missing p) (Deleted p).
Definition setCid (c : string) (p : t) : t :=
  mk (ID p) (Author p) (Rkey p) c (UpCount p) (ReplyTo p) (Missing p) (Deleted p).
Definition setDeleted (b : bool) (p : t) : t :=
  mk (ID p) (Author p) (Rkey p) (Cid p) (UpCount p) (ReplyTo p) (Missing p) b.
End FeedPost.

Module VoteRecord.
Record t : Type := mk
  { ID : Z; Voter : Uid; Post : Z; Created : string; Rkey : string;
    Cid : string }.
Definition zero : t := mk 0 0 0 "" "" "".
Definition setID (i : Z) (v : t) : t :=
  mk i (Voter v) (Post v) (Created v) (Rkey v) (Cid v).
End VoteRecord.

Module FollowRecord.
Record t : Type := mk
  { ID : Z; Follower : Uid; Target : Uid; Rkey : string; Cid : string }.
Definition setID (i : Z) (f : t) : t :=
  mk i (Follower f) (Target f) (Rkey f) (Cid f).
End FollowRecord.

Module RepostRecord.
Record t : Type := mk
  { ID : Z; RecCreated : string; Post : Z; Reposter : Uid; Author : Uid;
    RecCid : string; Rkey : string }.
Definition setID (i : Z) (r : t) : t :=
  mk i (RecCreated r) (Post r) (Reposter r) (Author r) (RecCid r) (Rkey r).
End RepostRecord.

Module PDS.
Record t : Type := mk { ID : Z; Host : string; SSL : bool }.
End PDS.

(** Lexicon records (package [bsky]) as the indexer inspects them. *)
Module Bsky.
Record RepoStrongRef : Type := mkRef { Uri : string; RefCid : string }.

Record FeedPost_Entity : Type := mkEntity
  { Type_ : string; Value : string }.

Record FeedPost_ReplyRef : Type := mkReplyRef
  { Parent : option RepoStrongRef; Root : option RepoStrongRef }.

Record FeedPost : Type := mkFeedPost
  { Text : string; Entities : list FeedPost_Entity;
    Reply : option FeedPost_ReplyRef; PostCreatedAt : string }.

Record FeedRepost : Type := mkFeedRepost
  { RepostSubject : option RepoStrongRef; RepostCreatedAt : string }.

Record FeedLike : Type := mkFeedLike
  { LikeSubject : option RepoStrongRef; LikeCreatedAt : string }.

Record GraphFollow : Type := mkGraphFollow
  { FollowSubject : string; FollowCreatedAt : string }.

Record GraphBlock : Type := mkGraphBlock
  { BlockSubject : string; BlockCreatedAt : string }.

(** [op.Record], an interface value: the type switch of the handlers
    distinguishes these dynamic types; [Other] carries the name of any
    other type (what [%T] prints) and covers the nil interface. *)
Inductive Record_ : Type :=
| IsFeedPost (rec : FeedPost)
| IsFeedRepost (rec : FeedRepost)
| IsFeedLike (rec : FeedLike)
| IsGraphFollow (rec : GraphFollow)
| IsGraphBlock (rec : GraphBlock)
| IsActorProfile
| Other (typeName : string).

Definition typeName (r : Record_) : string :=
  match r with
  | IsFeedPost _ => "*bsky.FeedPost"
  | IsFeedRepost _ => "*bsky.FeedRepost"
  | IsFeedLike _ => "*bsky.FeedLike"
  | IsGraphFollow _ => "*bsky.GraphFollow"
  | IsGraphBlock _ => "*bsky.GraphBlock"
  | IsActorProfile => "*bsky.ActorProfile"
  | Other n => n
  end.
End Bsky.

(** Package [repomgr]: the event the indexer consumes. *)
Module Repomgr.
Definition EvtKindCreateRecord : string := "create".
Definition EvtKindUpdateRecord : string := "update".
Definition EvtKindDeleteRecord : string := "delete".

(** [op.ActorInfo], as [handleInitActor] reads it. *)
Record ActorInfo : Type := mkActorInfo
  { Did : string; Handle : string; DisplayName : string; Type_ : string }.

Record RepoOp : Type := mkOp
  { Kind : string; Collection : string; Rkey : string;
    RecCid : option Cid; Record_ : Bsky.Record_;
    OpActorInfo : option ActorInfo }.

Record RepoEvent : Type := mkEvent
  { User : Uid; OldRoot : option Cid; NewRoot : Cid;
    Since : option string; Rev : string; RepoSlice : option (list Z);
    PDS : Z; Ops : option (list RepoOp) }.
End Repomgr.

(** Package [comatproto]: the firehose envelope. *)
Module Comatproto.
Record SyncSubscribeRepos_RepoOp : Type := mkRepoOp
  { Path : string; Action : string; OpCid : option Cid }.

Record SyncSubscribeRepos_Commit : Type := mkCommit
  { Repo : string; Prev : option Cid; Blocks : option (list Z);
    Rev : string; Since : option string; Commit : Cid; Time : string;
    Ops : option (list SyncSubscribeRepos_RepoOp); TooBig : bool;
    Seq : Z }.
End Comatproto.

(** [events.XRPCStreamEvent] with its [RepoCommit] arm. *)
Record XRPCStreamEvent : Type := mkStreamEvent
  { RepoCommit : Comatproto.SyncSubscribeRepos_Commit; PrivUid : Uid }.

(** Calls received by the notification manager. *)
Inductive Notification : Type :=
| AddRepost (author : Uid) (repostID : Z) (reposter : Uid)
| AddUpVote (voter : Uid) (post : Z) (voteID : Z) (postauthor : Uid)
| AddFollow (follower target : Uid) (followID : Z)
| AddReplyTo (author : Uid) (postID : Z) (replyto : FeedPost.t)
| AddMention (author : Uid) (postID : Z) (mentioned : Uid).

(** [util.ParsedUri]. *)
Record ParsedUri : Type := mkParsedUri
  { puri_Did : string; puri_Collection : string; puri_Rkey : string }.

(** The tables, and the next value of each table's id sequence. *)
Record DB : Type := mkDB
  { actors : list ActorInfo.t;
    posts : list FeedPost.t;
    votes : list VoteRecord.t;
    follows : list FollowRecord.t;
    reposts : list RepostRecord.t;
    pdss : list PDS.t;
    nextActorID : Z;
    nextPostID : Z;
    nextVoteID : Z;
    nextFollowID : Z;
    nextRepostID : Z }.

(** What the indexer acts on: the database, the number of statements and
    collaborator calls issued so far, and what the collaborators have
    received (notifications, crawl requests, firehose events). *)
Record World : Type := mkWorld
  { db : DB;
    clock : nat;
    notifs : list Notification;
    crawlQueue : list ActorInfo.t;
    emitted : list XRPCStreamEvent }.

Definition setDB (d : DB) (w : World) : World :=
  mkWorld d (clock w) (notifs w) (crawlQueue w) (emitted w).

Definition setActors (l : list ActorInfo.t) (d : DB) : DB :=
  mkDB l (posts d) (votes d) (follows d) (reposts d) (pdss d)
       (nextActorID d) (nextPostID d) (nextVoteID d) (nextFollowID d) (nextRepostID d).
Definition setPosts (l : list FeedPost.t) (d : DB) : DB :=
  mkDB (actors d) l (votes d) (follows d) (reposts d) (pdss d)
       (nextActorID d) (nextPostID d) (nextVoteID d) (nextFollowID d) (nextRepostID d).
Definition setVotes (l : list VoteRecord.t) (d : DB) : DB :=
  mkDB (actors d) (posts d) l (follows d) (reposts d) (pdss d)
       (nextActorID d) (nextPostID d) (nextVoteID d) (nextFollowID d) (nextRepostID d).
Definition setFollows (l : list FollowRecord.t) (d : DB) : DB :=
  mkDB (actors d) (posts d) (votes d) l (reposts d) (pdss d)
       (nextActorID d) (nextPostID d) (nextVoteID d) (nextFollowID d) (nextRepostID d).
Definition setReposts (l : list RepostRecord.t) (d : DB) : DB :=
  mkDB (actors d) (posts d) (votes d) (follows d) l (pdss d)
       (nextActorID d) (nextPostID d) (nextVoteID d) (nextFollowID d) (nextRepostID d).

(* ================================================================== *)
(** * The state-and-error monad of the handlers *)
(* ================================================================== *)

(** A computation over a state [S] that returns, fails or panics. *)
Definition ST (S A : Type) : Type := S -> Res A * S.

Definition ret {S A} (a : A) : ST S A := fun w => (Ok a, w).

Definition bind {S A B} (m : ST S A) (k : A -> ST S B) : ST S B :=
  fun w =>
    match m w with
    | (Ok a, w') => k a w'
    | (Err e, w') => (Err e, w')
    | (Panic s, w') => (Panic s, w')
    end.

Definition fail {S A} (e : error) : ST S A := fun w => (Err e, w).
Definition panic {S A} (s : string) : ST S A := fun w => (Panic s, w).
Definition gets {S A} (f : S -> A) : ST S A := fun w => (Ok (f w), w).
Definition modify {S} (f : S -> S) : ST S unit := fun w => (Ok tt, f w).

Declare Scope go_scope.
Delimit Scope go_scope with go.
Notation "x <- m ;; k" := (bind m (fun x => k))
  (at level 61, m at next level, right associativity) : go_scope.
Notation "m ;; k" := (bind m (fun _ => k))
  (at level 61, right associativity) : go_scope.
Local Open Scope go_scope.

(** [fmt.Errorf(prefix + "%w", err)] around a call. *)
Definition wrapErr {S A} (prefix : string) (m : ST S A) : ST S A :=
  fun w =>
    match m w with
    | (Err e, w') => (Err (Wrapf prefix e), w')
    | r => r
    end.

(** [if err := f(); err != nil { log(...) }]: the error is logged and the
    caller goes on; a panic still unwinds. *)
Definition logged {S A} (m : ST S A) : ST S unit :=
  fun w =>
    match m w with
    | (Ok _, w') => (Ok tt, w')
    | (Err _, w') => (Ok tt, w')
    | (Panic s, w') => (Panic s, w')
    end.

(** Dereference of a pointer that may be nil. *)
Definition deref {S A} (p : option A) : ST S A :=
  match p with
  | Some a => ret a
  | None => panic "invalid memory address or nil pointer dereference"
  end.

(** The handlers of the indexer run over [World]. *)
Definition M (A : Type) : Type := ST World A.

(** [%q]. *)
Definition quoted (s : string) : string := (dquote ++ s ++ dquote)%string.

(** The receiver [ix *Indexer]: the aggregation toggle, whether a crawl
    dispatcher is attached ([ix.Crawler != nil]) and the injected
    [CreateExternalUser] hook. *)
Record Indexer : Type := mkIndexer
  { doAggregations : bool;
    hasCrawler : bool;
    CreateExternalUser : string -> M ActorInfo.t }.

Section IndexerCode.

(** Which statements and collaborator calls fail: the [n]-th one issued
    (counted by [clock]) reports an error iff [fails n].  This stands for
    everything that makes [.Error] non-nil without being visible in the
    tables: a lost connection, a constraint the handlers do not know, a
    cancelled context. *)
Variable fails : nat -> bool.

(** [util.ParseAtUri]. *)
Variable ParseAtUri : string -> Res ParsedUri.

Definition tick : M unit :=
  fun w =>
    let w' := mkWorld (db w) (S (clock w)) (notifs w) (crawlQueue w) (emitted w) in
    if fails (clock w) then (Err (ErrExternal "statement failed"), w')
    else (Ok tt, w').

(** A statement that reads, and one that writes. *)
Definition query {A} (f : DB -> A) : M A :=
  tick ;; gets (fun w => f (db w)).

Definition exec (f : DB -> DB) : M unit :=
  tick ;; modify (fun w => setDB (f (db w)) w).

(** [db.First]: the first matching row, or [gorm.ErrRecordNotFound]. *)
Definition First {A} (f : DB -> option A) : M A :=
  r <- query f ;;
  match r with
  | Some a => ret a
  | None => fail ErrRecordNotFound
  end.

(** [db.Find] into a struct: the first matching row, or the struct is
    left at its zero value. *)
Definition Find {A} (zero : A) (f : DB -> option A) : M A :=
  r <- query f ;;
  match r with
  | Some a => ret a
  | None => ret zero
  end.

(** [db.Transaction(fn)]: BEGIN, the body, then COMMIT; when the body or
    the commit fails (or the body panics) the tables are put back as
    they were at BEGIN. *)
Definition Transaction {A} (body : M A) : M A :=
  fun w =>
    match tick w with
    | (Ok _, w1) =>
        let snapshot := db w1 in
        match body w1 with
        | (Ok a, w2) =>
            match tick w2 with
            | (Ok _, w3) => (Ok a, w3)
            | (Err e, w3) => (Err e, setDB snapshot w3)
            | (Panic s, w3) => (Panic s, setDB snapshot w3)
            end
        | (Err e, w2) => (Err e, setDB snapshot w2)
        | (Panic s, w2) => (Panic s, setDB snapshot w2)
        end
    | (Err e, w1) => (Err e, w1)
    | (Panic s, w1) => (Panic s, w1)
    end.

(** ** Collaborators *)

Definition notify (n : Notification) : M unit :=
  tick ;;
  modify (fun w => mkWorld (db w) (clock w) (notifs w ++ [n]) (crawlQueue w) (emitted w)).

(** [ix.Crawler.Crawl(ctx, ai)]. *)
Definition Crawler_Crawl (ai : ActorInfo.t) : M unit :=
  tick ;;
  modify (fun w => mkWorld (db w) (clock w) (notifs w) (crawlQueue w ++ [ai]) (emitted w)).

(** [ix.events.AddEvent(ctx, evt)]. *)
Definition events_AddEvent (e : XRPCStreamEvent) : M unit :=
  tick ;;
  modify (fun w => mkWorld (db w) (clock w) (notifs w) (crawlQueue w) (emitted w ++ [e])).

(** ** Queries and statements, one per gorm chain of the handlers *)

Definition actorByUid (uid : Uid) (d : DB) : option ActorInfo.t :=
  find (fun a => ActorInfo.Uid a =? uid) (actors d).

Definition actorByDid (did : string) (d : DB) : option ActorInfo.t :=
  find (fun a => String.eqb (ActorInfo.Did a) did) (actors d).

(** ["rkey = ? AND author = (?)"] with the subquery
    [Model(ActorInfo{}).Where("did = ?", did).Select("id")]. *)
Definition postByRkeyAndAuthorDid (rkey did : string) (d : DB)
  : option FeedPost.t :=
  match actorByDid did d with
  | None => None
  | Some a =>
      find (fun p => String.eqb (FeedPost.Rkey p) rkey
                     && (FeedPost.Author p =? ActorInfo.ID a)) (posts d)
  end.

(** ["rkey = ? AND author = ?"]. *)
Definition postByRkeyAndAuthor (rkey : string) (user : Uid) (d : DB)
  : option FeedPost.t :=
  find (fun p => String.eqb (FeedPost.Rkey p) rkey
                 && (FeedPost.Author p =? user)) (posts d).

Definition insertPost (fp : FeedPost.t) (d : DB) : DB :=
  mkDB (actors d) (posts d ++ [fp]) (votes d) (follows d) (reposts d) (pdss d)
       (nextActorID d) (nextPostID d + 1) (nextVoteID d) (nextFollowID d)
       (nextRepostID d).

(** [db.Create(&fp)] on the posts table.  The table has a unique index on
    (rkey, author), the conflict target the upsert below names. *)
Definition CreatePost (fp : FeedPost.t) : M FeedPost.t :=
  tick ;;
  d <- gets db ;;
  match postByRkeyAndAuthor (FeedPost.Rkey fp) (FeedPost.Author fp) d with
  | Some _ =>
      fail (ErrExternal "UNIQUE constraint failed: feed_posts.rkey, feed_posts.author")
  | None =>
      let fp' := FeedPost.setID (nextPostID d) fp in
      modify (setDB (insertPost fp' d)) ;;
      ret fp'
  end.

(** [db.Clauses(clause.OnConflict{Columns: {rkey, author}, UpdateAll: true})
       .Create(&fp)]: when a row with the same (rkey, author) exists, all
    its columns but the primary key take the values of [fp]; otherwise
    [fp] is inserted. *)
Definition UpsertPost (fp : FeedPost.t) : M FeedPost.t :=
  tick ;;
  d <- gets db ;;
  match postByRkeyAndAuthor (FeedPost.Rkey fp) (FeedPost.Author fp) d with
  | Some old =>
      let fp' := FeedPost.setID (FeedPost.ID old) fp in
      let same p := String.eqb (FeedPost.Rkey p) (FeedPost.Rkey fp)
                    && (FeedPost.Author p =? FeedPost.Author fp) in
      modify (setDB (setPosts (map (fun p => if same p then FeedPost.setID (FeedPost.ID p) fp else p)
                                   (posts d)) d)) ;;
      ret fp'
  | None =>
      let fp' := FeedPost.setID (nextPostID d) fp in
      modify (setDB (insertPost fp' d)) ;;
      ret fp'
  end.

(** [db.FirstOrCreate(&fp, models.FeedPost{Author, Rkey, Missing: true})]:
    a struct condition constrains the columns whose field is not the zero
    value; the lookup and the insert are two statements. *)
Definition FirstOrCreateMissingPost (author : Uid) (rkey : string)
  : M FeedPost.t :=
  let matches p :=
    ((author =? 0) || (FeedPost.Author p =? author))
    && (String.eqb rkey "" || String.eqb (FeedPost.Rkey p) rkey)
    && FeedPost.Missing p in
  r <- query (fun d => find matches (posts d)) ;;
  match r with
  | Some p => ret p
  | None => CreatePost (FeedPost.mk 0 author rkey "" 0 0 true false)
  end.

(** [Model(FeedPost{}).Where("id = ?", id).Update("up_count", gorm.Expr("up_count + delta"))]. *)
Definition UpdateUpCount (id delta : Z) : M unit :=
  exec (fun d =>
          setPosts (map (fun p => if FeedPost.ID p =? id
                                  then FeedPost.setUpCount (FeedPost.UpCount p + delta) p
                                  else p) (posts d)) d).

(** [Model(FeedPost{}).Where("id = ?", id).UpdateColumn(col, v)]. *)
Definition UpdatePostColumn (id : Z) (set : FeedPost.t -> FeedPost.t) : M unit :=
  exec (fun d =>
          setPosts (map (fun p => if FeedPost.ID p =? id then set p else p)
                        (posts d)) d).

Definition CreateVote (vr : VoteRecord.t) : M VoteRecord.t :=
  tick ;;
  d <- gets db ;;
  let vr' := VoteRecord.setID (nextVoteID d) vr in
  modify (setDB (mkDB (actors d) (posts d) (votes d ++ [vr']) (follows d)
                      (reposts d) (pdss d) (nextActorID d) (nextPostID d)
                      (nextVoteID d + 1) (nextFollowID d) (nextRepostID d))) ;;
  ret vr'.

(** [Model(VoteRecord{}).Where("id = ?", id).Delete(&vr)]. *)
Definition DeleteVoteByID (id : Z) : M unit :=
  exec (fun d => setVotes (filter (fun v => negb (VoteRecord.ID v =? id)) (votes d)) d).

Definition CreateFollow (fr : FollowRecord.t) : M FollowRecord.t :=
  tick ;;
  d <- gets db ;;
  let fr' := FollowRecord.setID (nextFollowID d) fr in
  modify (setDB (mkDB (actors d) (posts d) (votes d) (follows d ++ [fr'])
                      (reposts d) (pdss d) (nextActorID d) (nextPostID d)
                      (nextVoteID d) (nextFollowID d + 1) (nextRepostID d))) ;;
  ret fr'.

(** [Where("follower = ? AND rkey = ?", ...).Delete(&FollowRecord{})];
    the result is [RowsAffected]. *)
Definition DeleteFollow (follower : Uid) (rkey : string) : M Z :=
  tick ;;
  d <- gets db ;;
  let hit f := (FollowRecord.Follower f =? follower)
               && String.eqb (FollowRecord.Rkey f) rkey in
  modify (setDB (setFollows (filter (fun f => negb (hit f)) (follows d)) d)) ;;
  ret (Z.of_nat (List.length (filter hit (follows d)))).

Definition CreateRepost (rr : RepostRecord.t) : M RepostRecord.t :=
  tick ;;
  d <- gets db ;;
  let rr' := RepostRecord.setID (nextRepostID d) rr in
  modify (setDB (mkDB (actors d) (posts d) (votes d) (follows d)
                      (reposts d ++ [rr']) (pdss d) (nextActorID d)
                      (nextPostID d) (nextVoteID d) (nextFollowID d)
                      (nextRepostID d + 1))) ;;
  ret rr'.

(** [Where("reposter = ? AND rkey = ?", ...).Delete(&RepostRecord{})]. *)
Definition DeleteRepost (reposter : Uid) (rkey : string) : M unit :=
  exec (fun d =>
          setReposts (filter (fun r => negb ((RepostRecord.Reposter r =? reposter)
                                             && String.eqb (RepostRecord.Rkey r) rkey))
                             (reposts d)) d).

(** [db.Save(&rr)] of a row that was just loaded: all columns of the row
    with that primary key are rewritten. *)
Definition SaveRepost (rr : RepostRecord.t) : M unit :=
  exec (fun d =>
          setReposts (map (fun r => if RepostRecord.ID r =? RepostRecord.ID rr
                                    then rr else r) (reposts d)) d).

(** [db.Clauses(clause.OnConflict{Columns: {uid}, UpdateAll: true})
       .Create(&models.ActorInfo{...})]. *)
Definition UpsertActor (ai : ActorInfo.t) : M unit :=
  exec (fun d =>
          let withID i := ActorInfo.mk i (ActorInfo.Uid ai) (ActorInfo.Handle ai)
                            (ActorInfo.Did ai) (ActorInfo.DisplayName ai)
                            (ActorInfo.Type_ ai) (ActorInfo.PDS ai) in
          match actorByUid (ActorInfo.Uid ai) d with
          | Some _ =>
              setActors (map (fun a => if ActorInfo.Uid a =? ActorInfo.Uid ai
                                       then withID (ActorInfo.ID a) else a)
                             (actors d)) d
          | None =>
              mkDB (actors d ++ [withID (nextActorID d)]) (posts d) (votes d)
                   (follows d) (reposts d) (pdss d) (nextActorID d + 1)
                   (nextPostID d) (nextVoteID d) (nextFollowID d) (nextRepostID d)
          end).

(** ** User directory *)

Definition isNotFound (err : error) : bool := isRecordNotFound err.

Definition DidForUser (uid : Uid) : M string :=
  ai <- First (actorByUid uid) ;;
  ret (ActorInfo.Did ai).

Definition LookupUser (id : Uid) : M ActorInfo.t :=
  First (actorByUid id).

Definition LookupUserByDid (did : string) : M ActorInfo.t :=
  ai <- Find ActorInfo.zero (actorByDid did) ;;
  if ActorInfo.ID ai =? 0 then fail ErrRecordNotFound else ret ai.

Definition LookupUserByHandle (handle : string) : M ActorInfo.t :=
  ai <- Find ActorInfo.zero
             (fun d => find (fun a => match ActorInfo.Handle a with
                                      | Some h => String.eqb h handle
                                      | None => false
                                      end) (actors d)) ;;
  if ActorInfo.ID ai =? 0 then fail ErrRecordNotFound else ret ai.

Definition addUserToCrawler (ix : Indexer) (ai : ActorInfo.t) : M unit :=
  if negb (hasCrawler ix) then ret tt else Crawler_Crawl ai.

Definition createMissingUserRecord (ix : Indexer) (did : string)
  : M ActorInfo.t :=
  ai <- CreateExternalUser ix did ;;
  wrapErr "failed to add unknown user to crawler: " (addUserToCrawler ix ai) ;;
  ret ai.

Definition GetUserOrMissing (ix : Indexer) (did : string) : M ActorInfo.t :=
  fun w =>
    match LookupUserByDid did w with
    | (Ok ai, w') => (Ok ai, w')
    | (Panic s, w') => (Panic s, w')
    | (Err err, w') =>
        if negb (isNotFound err) then (Err err, w')
        else createMissingUserRecord ix did w'
    end.

Definition handleInitActor (evt : Repomgr.RepoEvent) (op : Repomgr.RepoOp)
  : M unit :=
  ai <- deref (Repomgr.OpActorInfo op) ;;
  wrapErr "initializing new actor info: "
    (UpsertActor (ActorInfo.mk 0 (Repomgr.User evt) (Some (Repomgr.Handle ai))
                    (Repomgr.Did ai) (Repomgr.DisplayName ai)
                    (Repomgr.Type_ ai) (Repomgr.PDS evt))) ;;
  CreateFollow (FollowRecord.mk 0 (Repomgr.User evt) (Repomgr.User evt) "" "") ;;
  ret tt.

(** ** Posts *)

Definition parseUri (uri : string) : M ParsedUri :=
  fun w => (ParseAtUri uri, w).

Definition GetPost (uri : string) : M FeedPost.t :=
  puri <- parseUri uri ;;
  First (postByRkeyAndAuthorDid (puri_Rkey puri) (puri_Did puri)).

Definition createMissingPostRecord (ix : Indexer) (puri : ParsedUri)
  : M FeedPost.t :=
  ai <- GetUserOrMissing ix (puri_Did puri) ;;
  FirstOrCreateMissingPost (ActorInfo.Uid ai) (puri_Rkey puri).

Definition GetPostOrMissing (ix : Indexer) (uri : string) : M FeedPost.t :=
  puri <- parseUri uri ;;
  post <- Find FeedPost.zero
               (postByRkeyAndAuthorDid (puri_Rkey puri) (puri_Did puri)) ;;
  if FeedPost.ID post =? 0 then createMissingPostRecord ix puri
  else ret post.

(** The loop of [addNewPostNotification] over [mentions]. *)
Fixpoint notifyMentions (fp : FeedPost.t) (mentions : list ActorInfo.t)
  : M unit :=
  match mentions with
  | [] => ret tt
  | mentioned :: rest =>
      notify (AddMention (FeedPost.Author fp) (FeedPost.ID fp)
                         (ActorInfo.Uid mentioned)) ;;
      notifyMentions fp rest
  end.

Definition addNewPostNotification (post : Bsky.FeedPost) (fp : FeedPost.t)
    (mentions : list ActorInfo.t) : M unit :=
  match Bsky.Reply post with
  | Some reply =>
      parent <- deref (Bsky.Parent reply) ;;
      replyto <- GetPost (Bsky.Uri parent) ;;
      notify (AddReplyTo (FeedPost.Author fp) (FeedPost.ID fp) replyto)
  | None => ret tt
  end ;;
  notifyMentions fp mentions.

(** The loop of [handleRecordCreateFeedPost] over [rec.Entities]. *)
Fixpoint resolveMentions (ix : Indexer) (es : list Bsky.FeedPost_Entity)
    (mentions : list ActorInfo.t) : M (list ActorInfo.t) :=
  match es with
  | [] => ret mentions
  | e :: rest =>
      if String.eqb (Bsky.Type_ e) "mention" then
        ai <- GetUserOrMissing ix (Bsky.Value e) ;;
        resolveMentions ix rest (mentions ++ [ai])
      else resolveMentions ix rest mentions
  end.

Definition handleRecordCreateFeedPost (ix : Indexer) (user : Uid)
    (rkey : string) (rcid : Cid) (rec : Bsky.FeedPost) : M unit :=
  replyid <-
    match Bsky.Reply rec with
    | Some reply =>
        parent <- deref (Bsky.Parent reply) ;;
        replyto <- GetPostOrMissing ix (Bsky.Uri parent) ;;
        root <- deref (Bsky.Root reply) ;;
        GetPostOrMissing ix (Bsky.Uri root) ;;
        ret (FeedPost.ID replyto)
    | None => ret 0
    end ;;
  mentions <- resolveMentions ix (Bsky.Entities rec) [] ;;
  maybe <- Find FeedPost.zero (postByRkeyAndAuthor rkey user) ;;
  let fp := FeedPost.mk 0 user rkey rcid 0 replyid false false in
  fp' <- (if negb (FeedPost.ID maybe =? 0) then UpsertPost fp
          else CreatePost fp) ;;
  addNewPostNotification rec fp' mentions.

(** ** Likes *)

Definition addNewVoteNotification (postauthor : Uid) (vr : VoteRecord.t)
  : M unit :=
  notify (AddUpVote (VoteRecord.Voter vr) (VoteRecord.Post vr)
                    (VoteRecord.ID vr) postauthor).

Definition handleRecordCreateFeedLike (ix : Indexer) (rec : Bsky.FeedLike)
    (evt : Repomgr.RepoEvent) (op : Repomgr.RepoOp) : M unit :=
  subject <- deref (Bsky.LikeSubject rec) ;;
  post <- GetPostOrMissing ix (Bsky.Uri subject) ;;
  act <- LookupUser (FeedPost.Author post) ;;
  cid <- deref (Repomgr.RecCid op) ;;
  vr <- CreateVote (VoteRecord.mk 0 (Repomgr.User evt) (FeedPost.ID post)
                      (Bsky.LikeCreatedAt rec) (Repomgr.Rkey op) cid) ;;
  UpdateUpCount (FeedPost.ID post) 1 ;;
  addNewVoteNotification (ActorInfo.Uid act) vr.

Definition handleRecordDeleteFeedLike (evt : Repomgr.RepoEvent)
    (op : Repomgr.RepoOp) : M unit :=
  vr <- Find VoteRecord.zero
             (fun d => find (fun v => (VoteRecord.Voter v =? Repomgr.User evt)
                                      && String.eqb (VoteRecord.Rkey v) (Repomgr.Rkey op))
                            (votes d)) ;;
  Transaction
    (DeleteVoteByID (VoteRecord.ID vr) ;;
     UpdateUpCount (VoteRecord.Post vr) (-1)).

(** ** Follows *)

Definition handleRecordDeleteGraphFollow (evt : Repomgr.RepoEvent)
    (op : Repomgr.RepoOp) : M unit :=
  DeleteFollow (Repomgr.User evt) (Repomgr.Rkey op) ;;
  ret tt.

Definition handleRecordCreateGraphFollow (ix : Indexer)
    (rec : Bsky.GraphFollow) (evt : Repomgr.RepoEvent)
    (op : Repomgr.RepoOp) : M unit :=
  subj <-
    (fun w =>
       match LookupUserByDid (Bsky.FollowSubject rec) w with
       | (Err err, w') =>
           if negb (isRecordNotFound err)
           then (Err (Wrapf "failed to lookup user: " err), w')
           else wrapErr "create external user: "
                  (createMissingUserRecord ix (Bsky.FollowSubject rec)) w'
       | r => r
       end) ;;
  cid <- deref (Repomgr.RecCid op) ;;
  fr <- CreateFollow (FollowRecord.mk 0 (Repomgr.User evt) (ActorInfo.Uid subj)
                        (Repomgr.Rkey op) cid) ;;
  notify (AddFollow (FollowRecord.Follower fr) (FollowRecord.Target fr)
                    (FollowRecord.ID fr)).

(** ** Dispatch by record type and collection *)

Definition handleRecordDelete (evt : Repomgr.RepoEvent) (op : Repomgr.RepoOp)
    (local : bool) : M unit :=
  let c := Repomgr.Collection op in
  if String.eqb c "app.bsky.feed.post" then
    u <- LookupUser (Repomgr.User evt) ;;
    let uri := ("at://" ++ ActorInfo.Did u ++ "/app.bsky.feed.post/"
                  ++ Repomgr.Rkey op)%string in
    fun w =>
      match GetPost uri w with
      | (Err err, w') =>
          if isRecordNotFound err then (Ok tt, w') else (Err err, w')
      | (Panic s, w') => (Panic s, w')
      | (Ok fp, w') =>
          UpdatePostColumn (FeedPost.ID fp) (FeedPost.setDeleted true) w'
      end
  else if String.eqb c "app.bsky.feed.repost" then
    DeleteRepost (Repomgr.User evt) (Repomgr.Rkey op)
  else if String.eqb c "app.bsky.feed.vote" then
    handleRecordDeleteFeedLike evt op
  else if String.eqb c "app.bsky.graph.follow" then
    handleRecordDeleteGraphFollow evt op
  else if String.eqb c "app.bsky.graph.confirmation" then
    ret tt
  else
    fail (Errorf ("unrecognized record type (delete): " ++ quoted c)%string).

Definition handleRecordCreate (ix : Indexer) (evt : Repomgr.RepoEvent)
    (op : Repomgr.RepoOp) (local : bool) : M (option (list Z)) :=
  match Repomgr.Record_ op with
  | Bsky.IsFeedPost rec =>
      rcid <- deref (Repomgr.RecCid op) ;;
      handleRecordCreateFeedPost ix (Repomgr.User evt) (Repomgr.Rkey op) rcid rec ;;
      ret None
  | Bsky.IsFeedRepost rec =>
      subject <- deref (Bsky.RepostSubject rec) ;;
      fp <- GetPostOrMissing ix (Bsky.Uri subject) ;;
      author <- LookupUser (FeedPost.Author fp) ;;
      let out := append None (ActorInfo.PDS author) in
      cid <- deref (Repomgr.RecCid op) ;;
      rr <- CreateRepost (RepostRecord.mk 0 (Bsky.RepostCreatedAt rec)
                            (FeedPost.ID fp) (Repomgr.User evt)
                            (FeedPost.Author fp) cid (Repomgr.Rkey op)) ;;
      notify (AddRepost (FeedPost.Author fp) (RepostRecord.ID rr) (Repomgr.User evt)) ;;
      ret out
  | Bsky.IsFeedLike rec =>
      handleRecordCreateFeedLike ix rec evt op ;;
      ret None
  | Bsky.IsGraphFollow rec =>
      handleRecordCreateGraphFollow ix rec evt op ;;
      ret None
  | Bsky.IsActorProfile => ret None
  | rec =>
      fail (Errorf ("unrecognized record type: " ++ Bsky.typeName rec)%string)
  end.

(** [Find(&vr, "voted = ? AND rkey = ?", ...)] of the like update.  The
    votes table is written through the field [Voter] and queried by
    ["voter = ?"] on delete; it has no column [voted], so the statement
    is rejected by the database whenever it is issued. *)
Definition FindVoteByVoted (user : Uid) (rkey : string) : M VoteRecord.t :=
  tick ;;
  fail (ErrExternal "column voted does not exist").

Definition handleRecordUpdate (ix : Indexer) (evt : Repomgr.RepoEvent)
    (op : Repomgr.RepoOp) (local : bool) : M unit :=
  match Repomgr.Record_ op with
  | Bsky.IsFeedPost rec =>
      u <- LookupUser (Repomgr.User evt) ;;
      let uri := ("at://" ++ ActorInfo.Did u ++ "/app.bsky.feed.post/"
                    ++ Repomgr.Rkey op)%string in
      fp <- GetPostOrMissing ix uri ;;
      let oldReply := negb (FeedPost.ReplyTo fp =? 0) in
      let newReply := match Bsky.Reply rec with Some _ => true | None => false end in
      if negb (Bool.eqb oldReply newReply) then ret tt
      else
        same <-
          match Bsky.Reply rec with
          | Some reply =>
              parent <- deref (Bsky.Parent reply) ;;
              replyto <- GetPostOrMissing ix (Bsky.Uri parent) ;;
              ret (FeedPost.ID replyto =? FeedPost.ReplyTo fp)
          | None => ret true
          end ;;
        if negb same then ret tt
        else
          cid <- deref (Repomgr.RecCid op) ;;
          UpdatePostColumn (FeedPost.ID fp) (FeedPost.setCid cid)
  | Bsky.IsFeedRepost rec =>
      rr <- First (fun d => find (fun r => (RepostRecord.Reposter r =? Repomgr.User evt)
                                           && String.eqb (RepostRecord.Rkey r) (Repomgr.Rkey op))
                                 (reposts d)) ;;
      cid <- deref (Repomgr.RecCid op) ;;
      SaveRepost (RepostRecord.mk (RepostRecord.ID rr) (Bsky.RepostCreatedAt rec)
                    (RepostRecord.Post rr) (RepostRecord.Reposter rr)
                    (RepostRecord.Author rr) cid (RepostRecord.Rkey rr))
  | Bsky.IsFeedLike rec =>
      vr <- FindVoteByVoted (Repomgr.User evt) (Repomgr.Rkey op) ;;
      subject <- deref (Bsky.LikeSubject rec) ;;
      fp <- GetPostOrMissing ix (Bsky.Uri subject) ;;
      if negb (VoteRecord.Post vr =? FeedPost.ID fp) then
        handleRecordDeleteFeedLike evt op ;;
        handleRecordCreateFeedLike ix rec evt op
      else handleRecordCreateFeedLike ix rec evt op
  | Bsky.IsGraphFollow rec =>
      handleRecordDeleteGraphFollow evt op ;;
      handleRecordCreateGraphFollow ix rec evt op
  | Bsky.IsActorProfile => ret tt
  | rec =>
      fail (Errorf ("unrecognized record type: " ++ Bsky.typeName rec)%string)
  end.

(** ** Reference crawling *)

Definition crawlAtUriRef (ix : Indexer) (uri : string) : M unit :=
  puri <- parseUri uri ;;
  GetUserOrMissing ix (puri_Did puri) ;;
  ret tt.

Fixpoint crawlMentions (ix : Indexer) (es : list Bsky.FeedPost_Entity)
  : M unit :=
  match es with
  | [] => ret tt
  | e :: rest =>
      (if String.eqb (Bsky.Type_ e) "mention"
       then logged (GetUserOrMissing ix (Bsky.Value e))
       else ret tt) ;;
      crawlMentions ix rest
  end.

Definition crawlRecordReferences (ix : Indexer) (op : Repomgr.RepoOp)
  : M unit :=
  let crawlRef (r : option Bsky.RepoStrongRef) : M unit :=
    match r with
    | Some ref => logged (crawlAtUriRef ix (Bsky.Uri ref))
    | None => ret tt
    end in
  match Repomgr.Record_ op with
  | Bsky.IsFeedPost rec =>
      crawlMentions ix (Bsky.Entities rec) ;;
      match Bsky.Reply rec with
      | Some reply =>
          crawlRef (Bsky.Parent reply) ;;
          crawlRef (Bsky.Root reply)
      | None => ret tt
      end
  | Bsky.IsFeedRepost rec => crawlRef (Bsky.RepostSubject rec)
  | Bsky.IsFeedLike rec => crawlRef (Bsky.LikeSubject rec)
  | Bsky.IsGraphFollow rec =>
      logged (GetUserOrMissing ix (Bsky.FollowSubject rec))
  | Bsky.IsGraphBlock rec =>
      logged (GetUserOrMissing ix (Bsky.BlockSubject rec))
  | Bsky.IsActorProfile => ret tt
  | Bsky.Other _ => ret tt
  end.

Definition handleRepoOp (ix : Indexer) (evt : Repomgr.RepoEvent)
    (op : Repomgr.RepoOp) : M unit :=
  let kind := Repomgr.Kind op in
  if String.eqb kind Repomgr.EvtKindCreateRecord then
    (if doAggregations ix
     then wrapErr "handle recordCreate: " (handleRecordCreate ix evt op true) ;; ret tt
     else ret tt) ;;
    crawlRecordReferences ix op
  else if String.eqb kind Repomgr.EvtKindDeleteRecord then
    if doAggregations ix
    then wrapErr "handle recordDelete: " (handleRecordDelete evt op true)
    else ret tt
  else if String.eqb kind Repomgr.EvtKindUpdateRecord then
    if doAggregations ix
    then wrapErr "handle recordCreate: " (handleRecordUpdate ix evt op true)
    else ret tt
  else
    fail (Errorf ("unrecognized repo event type: " ++ quoted kind)%string).

(** ** The firehose envelope *)

Definition MaxEventSliceLength : Z := 1000000.
Definition MaxOpsSliceLength : Z := 200.

(** The envelope entry of an op:
    [{Path: op.Collection + "/" + op.Rkey, Action: string(op.Kind), Cid: link}]. *)
Definition outop (op : Repomgr.RepoOp) : Comatproto.SyncSubscribeRepos_RepoOp :=
  Comatproto.mkRepoOp (Repomgr.Collection op ++ "/" ++ Repomgr.Rkey op)%string
                      (Repomgr.Kind op) (Repomgr.RecCid op).

(** The loop of [HandleRepoEvent] over [evt.Ops]: each op is appended to
    [outops] and handled; a handler error is logged. *)
Fixpoint handleOps (ix : Indexer) (evt : Repomgr.RepoEvent)
    (ops : list Repomgr.RepoOp)
    (outops : option (list Comatproto.SyncSubscribeRepos_RepoOp))
  : M (option (list Comatproto.SyncSubscribeRepos_RepoOp)) :=
  match ops with
  | [] => ret outops
  | op :: rest =>
      let outops' := append outops (outop op) in
      logged (handleRepoOp ix evt op) ;;
      handleOps ix evt rest outops'
  end.

(** [time.Now().Format(util.ISO8601)] at the moment of emission. *)
Variable now : string.

Definition HandleRepoEvent (ix : Indexer) (evt : Repomgr.RepoEvent)
  : M unit :=
  outops <- handleOps ix evt (elems (Repomgr.Ops evt)) None ;;
  did <- DidForUser (Repomgr.User evt) ;;
  let slice := Repomgr.RepoSlice evt in
  let toobig := (len slice >? MaxEventSliceLength)
                || (len outops >? MaxOpsSliceLength) in
  let slice' := if toobig then None else slice in
  let outops' := if toobig then None else outops in
  fun w =>
    match events_AddEvent
            (mkStreamEvent
               (Comatproto.mkCommit did (Repomgr.OldRoot evt) slice'
                  (Repomgr.Rev evt) (Repomgr.Since evt) (Repomgr.NewRoot evt)
                  now outops' toobig 0)
               (Repomgr.User evt)) w with
    | (Err err, w') =>
        (Err (Errorf ("failed to push event: " ++ errorString err)%string), w')
    | r => r
    end.

End IndexerCode.

(* ================================================================== *)
(** * Repository fetch and catch-up *)
(* ================================================================== *)

(** A buffered live event and a crawl job ([catchupJob], [crawlWork]). *)
Record catchupJob : Type := mkCatchupJob
  { evt : Comatproto.SyncSubscribeRepos_Commit }.

Record crawlWork : Type := mkCrawlWork
  { act : ActorInfo.t;
    initScrape : bool;
    catchup : option (list catchupJob) }.

(** What the repository manager, the rate limiter and the PDS receive, in
    order, each call with the outcome it had. *)
Inductive Call : Type :=
| CallHandleExternalUserEvent (pdsID : Z) (uid : Uid) (did : string)
    (since : option string) (rev : string) (blocks : option (list Z))
    (ops : option (list Comatproto.SyncSubscribeRepos_RepoOp))
    (result : option error)
| CallLimiterWait (pdsID : Z)
| CallSyncGetRepo (host did since : string) (result : Res (list Z))
| CallImportNewRepo (uid : Uid) (did : string) (repo : list Z)
    (rev : option string) (result : option error).

Section FetchCode.

Variable fails : nat -> bool.

(** The state of the repository manager and of the remote hosts, and the
    operations on it that [FetchAndIndexRepo] calls. *)
Variable RS : Type.
Variable repomgr_GetRepoRev : Uid -> RS -> Res string.
Variable repomgr_HandleExternalUserEvent :
  Z -> Uid -> string -> option string -> string -> option (list Z) ->
  option (list Comatproto.SyncSubscribeRepos_RepoOp) -> RS -> option error * RS.
Variable comatproto_SyncGetRepo :
  PDS.t -> string -> string -> RS -> Res (list Z) * RS.
Variable repomgr_ImportNewRepo :
  Uid -> string -> list Z -> option string -> RS -> option error * RS.

Record FetchWorld : Type := mkFetchWorld
  { world : World; repo : RS; calls : list Call }.

Definition FM (A : Type) : Type := ST FetchWorld A.

(** A database statement of the indexer, run from the job. *)
Definition onWorld {A} (m : M A) : FM A :=
  fun s =>
    let (r, w') := m (world s) in
    (r, mkFetchWorld w' (repo s) (calls s)).

Definition GetRepoRev (uid : Uid) : FM string :=
  fun s => (repomgr_GetRepoRev uid (repo s), s).

Definition HandleExternalUserEvent (pdsID : Z) (uid : Uid) (did : string)
    (since : option string) (rev : string) (blocks : option (list Z))
    (ops : option (list Comatproto.SyncSubscribeRepos_RepoOp)) : FM unit :=
  fun s =>
    let (r, rs') :=
      repomgr_HandleExternalUserEvent pdsID uid did since rev blocks ops (repo s) in
    let s' := mkFetchWorld (world s) rs'
                (calls s ++ [CallHandleExternalUserEvent pdsID uid did since rev
                               blocks ops r]) in
    match r with
    | None => (Ok tt, s')
    | Some err => (Err err, s')
    end.

Definition ImportNewRepo (uid : Uid) (did : string) (bytes : list Z)
    (rev : option string) : FM unit :=
  fun s =>
    let (r, rs') := repomgr_ImportNewRepo uid did bytes rev (repo s) in
    let s' := mkFetchWorld (world s) rs'
                (calls s ++ [CallImportNewRepo uid did bytes rev r]) in
    match r with
    | None => (Ok tt, s')
    | Some err => (Err err, s')
    end.

Definition limiter_Wait (pdsID : Z) : FM unit :=
  modify (fun s => mkFetchWorld (world s) (repo s)
                     (calls s ++ [CallLimiterWait pdsID])).

Definition SyncGetRepo (pds : PDS.t) (did rev : string) : FM (list Z) :=
  fun s =>
    let (r, rs') := comatproto_SyncGetRepo pds did rev (repo s) in
    (r, mkFetchWorld (world s) rs'
          (calls s ++ [CallSyncGetRepo (PDS.Host pds) did rev r])).

Definition fetchRepo (pds : PDS.t) (did rev : string) : FM (list Z) :=
  limiter_Wait (PDS.ID pds) ;;
  wrapErr ("failed to fetch repo (did=" ++ did ++ ",rev=" ++ rev ++ ",host="
             ++ PDS.Host pds ++ "): ")%string
          (SyncGetRepo pds did rev).

(** The loop over [job.catchup]; the result is [resync]. *)
Fixpoint replayCatchup (pds : PDS.t) (ai : ActorInfo.t)
    (js : list catchupJob) : FM bool :=
  match js with
  | [] => ret false
  | j :: rest =>
      fun s =>
        match HandleExternalUserEvent (PDS.ID pds) (ActorInfo.Uid ai)
                (ActorInfo.Did ai) (Comatproto.Since (evt j))
                (Comatproto.Rev (evt j)) (Comatproto.Blocks (evt j))
                (Comatproto.Ops (evt j)) s with
        | (Ok _, s') => replayCatchup pds ai rest s'
        | (Err _, s') => (Ok true, s')
        | (Panic m, s') => (Panic m, s')
        end
  end.

(** The fetch and import steps of [FetchAndIndexRepo], from
    [c := models.ClientForPds(&pds)] to the end of the function. *)
Definition fetchAndImport (pds : PDS.t) (ai : ActorInfo.t) (rev : string)
  : FM unit :=
  repo <- fetchRepo pds (ActorInfo.Did ai) rev ;;
  fun s =>
    match ImportNewRepo (ActorInfo.Uid ai) (ActorInfo.Did ai) repo (Some rev) s with
    | (Err err, s') =>
        if ipldIsNotFound err then
          (repo' <- fetchRepo pds (ActorInfo.Did ai) "" ;;
           wrapErr ("failed to import backup repo (" ++ ActorInfo.Did ai ++ "): ")%string
                   (ImportNewRepo (ActorInfo.Uid ai) (ActorInfo.Did ai) repo' None)) s'
        else
          (Err (Wrapf ("importing fetched repo (curRev: " ++ rev ++ "): ")%string err), s')
    | r => r
    end.

(** [GetRepoRev] as the job reads it: a not-found error leaves [rev] at
    the empty string. *)
Definition storedRev (uid : Uid) : FM string :=
  fun s =>
    match GetRepoRev uid s with
    | (Err err, s') =>
        if negb (isNotFound err)
        then (Err (Wrapf "failed to get repo root: " err), s')
        else (Ok "", s')
    | r => r
    end.

Definition FetchAndIndexRepo (job : crawlWork) : FM unit :=
  let ai := act job in
  pds <- wrapErr ("expected to find pds record (" ++ FormatInt10 (ActorInfo.PDS ai)
                    ++ ") in db for crawling one of their users: ")%string
           (onWorld (First fails (fun d => find (fun p => PDS.ID p =? ActorInfo.PDS ai)
                                                (pdss d)))) ;;
  rev <- storedRev (ActorInfo.Uid ai) ;;
  match negb (initScrape job), elems (catchup job) with
  | true, first :: _ =>
      if match Comatproto.Since (evt first) with
         | None => true
         | Some since => String.eqb rev since
         end
      then
        resync <- replayCatchup pds ai (elems (catchup job)) ;;
        if negb resync then ret tt
        else fetchAndImport pds ai rev
      else fetchAndImport pds ai rev
  | _, _ => fetchAndImport pds ai rev
  end.

End FetchCode.

Arguments mkFetchWorld {RS} world repo calls.
Arguments world {RS} f.
Arguments repo {RS} f.
Arguments calls {RS} f.

(* ================================================================== *)
(** * Rate limiters *)
(* ================================================================== *)

(** ** Rate limiters, one per PDS

    [ix.Limiters] is a map from PDS ids to [*rate.Limiter].  A limiter
    lives on the heap: two calls that return the same pointer share its
    tokens.  The three accessors are embedded as they run one at a time;
    [LimitMux] has no counterpart. *)
Module Limiters.
Section Limiters.

(** [float64], as far as the accessors go: a rate is stored, never
    computed with. *)
Variable float64 : Type.

(** What [rate.NewLimiter(r, b)] is built from. *)
Record Limiter : Type := mkLimiter { limit : float64; burst : Z }.

(** A [*rate.Limiter]: [None] is nil, [Some a] the limiter allocated
    [a]-th. *)
Definition Ptr : Type := option nat.

(** The map (a missing key is [None]) and the limiters allocated so far. *)
Record State : Type := mkState
  { Limiters : Z -> option Ptr;
    heap : list Limiter }.

(** [ix.Limiters[pdsID] = lim]. *)
Definition store (pdsID : Z) (lim : Ptr) (m : Z -> option Ptr) : Z -> option Ptr :=
  fun k => if k =? pdsID then Some lim else m k.

(** [*p], for a pointer that is not nil. *)
Definition load (st : State) (p : Ptr) : option Limiter :=
  match p with
  | Some a => nth_error (heap st) a
  | None => None
  end.

(** [ix.Limiters[pdsID]]: the zero value, nil, for a missing key. *)
Definition GetLimiter (pdsID : Z) (st : State) : Ptr :=
  match Limiters st pdsID with
  | Some lim => lim
  | None => None
  end.

Definition GetOrCreateLimiter (pdsID : Z) (pdsrate : float64) (st : State)
  : Ptr * State :=
  match Limiters st pdsID with
  | Some lim => (lim, st)
  | None =>
      let lim := Some (List.length (heap st)) in
      (lim, mkState (store pdsID lim (Limiters st))
                    (heap st ++ [mkLimiter pdsrate 1]))
  end.

Definition SetLimiter (pdsID : Z) (lim : Ptr) (st : State) : State :=
  mkState (store pdsID lim (Limiters st)) (heap st).

End Limiters.
End Limiters.

(* ================================================================== *)
(** * Vocabulary of the properties *)
(* ================================================================== *)

(** ** Firehose envelope *)

(** The envelope entry [o] carries the op [op] as the specification
    words it: [{path = collection + "/" + rkey, action = kind, cid}]. *)
Definition Carries (op : Repomgr.RepoOp)
    (o : Comatproto.SyncSubscribeRepos_RepoOp) : Prop :=
  Comatproto.Path o = (Repomgr.Collection op ++ "/" ++ Repomgr.Rkey op)%string
  /\ Comatproto.Action o = Repomgr.Kind op
  /\ Comatproto.OpCid o = Repomgr.RecCid op.

(** The ops of an envelope in which nothing is truncated: the nil slice
    for an event without ops, else one entry per op, in the order of the
    ops, each carrying its op. *)
Definition PassedThrough (ops : list Repomgr.RepoOp)
    (out : option (list Comatproto.SyncSubscribeRepos_RepoOp)) : Prop :=
  match out with
  | None => ops = []
  | Some l => ops <> [] /\ Forall2 Carries ops l
  end.

(** ** Posts *)

(** The unique index of the posts table. *)
Definition UniqueKeys (l : list FeedPost.t) : Prop :=
  NoDup (map (fun p => (FeedPost.Author p, FeedPost.Rkey p)) l).

(** The world after one more statement. *)
Definition ticked (w : World) : World :=
  mkWorld (db w) (S (clock w)) (notifs w) (crawlQueue w) (emitted w).

(** The row that the upsert leaves for the key [(user, rkey)]. *)
Definition overwritten (user : Uid) (rkey : string) (rcid : Cid) (replyid : Z)
    (p : FeedPost.t) : FeedPost.t :=
  if String.eqb (FeedPost.Rkey p) rkey && (FeedPost.Author p =? user)
  then FeedPost.mk (FeedPost.ID p) user rkey rcid 0 replyid false false
  else p.

(** The reply references of [rec] resolve to rows of the posts table, the
    parent to the row of id [replyid]; for a record that is not a reply
    [replyid] is 0. *)
Definition ReplyKnown (ParseAtUri : string -> Res ParsedUri) (rec : Bsky.FeedPost)
    (d : DB) (replyid : Z) : Prop :=
  match Bsky.Reply rec with
  | None => replyid = 0
  | Some reply =>
      exists parent root puriP puriR pp rp,
        Bsky.Parent reply = Some parent
        /\ Bsky.Root reply = Some root
        /\ ParseAtUri (Bsky.Uri parent) = Ok puriP
        /\ ParseAtUri (Bsky.Uri root) = Ok puriR
        /\ postByRkeyAndAuthorDid (puri_Rkey puriP) (puri_Did puriP) d = Some pp
        /\ postByRkeyAndAuthorDid (puri_Rkey puriR) (puri_Did puriR) d = Some rp
        /\ FeedPost.ID pp <> 0
        /\ FeedPost.ID rp <> 0
        /\ replyid = FeedPost.ID pp
  end.

(** Every mention of [rec] names an actor of the directory. *)
Definition MentionsKnown (rec : Bsky.FeedPost) (d : DB) : Prop :=
  forall e, In e (Bsky.Entities rec) -> Bsky.Type_ e = "mention" ->
            exists a, actorByDid (Bsky.Value e) d = Some a /\ ActorInfo.ID a <> 0.

(** ** Likes *)

(** The number of VoteRecord rows whose post field is [P]. *)
Definition votesFor (P : Z) (vs : list VoteRecord.t) : Z :=
  Z.of_nat (List.length (filter (fun v => VoteRecord.Post v =? P) vs)).

(** Every post row carries the number of votes that refer to it. *)
Definition Conserved (d : DB) : Prop :=
  forall p, In p (posts d) -> FeedPost.UpCount p = votesFor (FeedPost.ID p) (votes d).

(** Ids come from the sequences: they are positive, below the next value
    of their sequence, votes have distinct ids, and a vote refers to an id
    that the posts sequence has already issued. *)
Definition IdsIssued (d : DB) : Prop :=
  0 < nextPostID d /\ 0 < nextVoteID d
  /\ (forall p, In p (posts d) -> 0 < FeedPost.ID p < nextPostID d)
  /\ (forall v, In v (votes d) -> 0 < VoteRecord.ID v < nextVoteID d)
  /\ NoDup (map VoteRecord.ID (votes d))
  /\ (forall v, In v (votes d) -> VoteRecord.Post v < nextPostID d).

Definition Consistent (d : DB) : Prop := IdsIssued d /\ Conserved d.

(** The part of the database that likes live in. *)
Definition likesPart (d : DB) : list FeedPost.t * list VoteRecord.t * Z * Z :=
  (posts d, votes d, nextPostID d, nextVoteID d).

(** The injected hook registers users; it leaves posts and votes alone. *)
Definition HookKeepsLikes (ix : Indexer) : Prop :=
  forall did w, likesPart (db (snd (CreateExternalUser ix did w))) = likesPart (db w).

(** A like operation on the indexer. *)
Inductive LikeOp : Type :=
| LikeCreate (rec : Bsky.FeedLike) (evt : Repomgr.RepoEvent) (op : Repomgr.RepoOp)
| LikeDelete (evt : Repomgr.RepoEvent) (op : Repomgr.RepoOp).

Definition runLikeOp (fails : nat -> bool) (ParseAtUri : string -> Res ParsedUri)
    (ix : Indexer) (o : LikeOp) : M unit :=
  match o with
  | LikeCreate rec evt op => handleRecordCreateFeedLike fails ParseAtUri ix rec evt op
  | LikeDelete evt op => handleRecordDeleteFeedLike fails evt op
  end.

(** The world after the operations have been handled one after the
    other, whatever each returned. *)
Definition runLikeOps (fails : nat -> bool) (ParseAtUri : string -> Res ParsedUri)
    (ix : Indexer) (ops : list LikeOp) (w : World) : World :=
  fold_left (fun w o => snd (runLikeOp fails ParseAtUri ix o w)) ops w.

(** [up_count] of the post [id] moves by [delta]. *)
Definition bump (id delta : Z) (p : FeedPost.t) : FeedPost.t :=
  if FeedPost.ID p =? id then FeedPost.setUpCount (FeedPost.UpCount p + delta) p else p.

(** Every like create of the sequence returns without error, when the
    operations are handled one after the other from [w]. *)
Inductive CreatesSucceed (fails : nat -> bool) (ParseAtUri : string -> Res ParsedUri)
    (ix : Indexer) : list LikeOp -> World -> Prop :=
| CreatesSucceed_nil (w : World) : CreatesSucceed fails ParseAtUri ix [] w
| CreatesSucceed_create (rec : Bsky.FeedLike) (evt : Repomgr.RepoEvent)
    (op : Repomgr.RepoOp) (rest : list LikeOp) (w w' : World) :
    handleRecordCreateFeedLike fails ParseAtUri ix rec evt op w = (Ok tt, w') ->
    CreatesSucceed fails ParseAtUri ix rest w' ->
    CreatesSucceed fails ParseAtUri ix (LikeCreate rec evt op :: rest) w
| CreatesSucceed_delete (evt : Repomgr.RepoEvent) (op : Repomgr.RepoOp)
    (rest : list LikeOp) (w : World) :
    CreatesSucceed fails ParseAtUri ix rest
      (snd (handleRecordDeleteFeedLike fails evt op w)) ->
    CreatesSucceed fails ParseAtUri ix (LikeDelete evt op :: rest) w.

(** ** Calls of a crawl job *)

Definition isFetch (c : Call) : bool :=
  match c with CallSyncGetRepo _ _ _ _ => true | _ => false end.

Definition isImport (c : Call) : bool :=
  match c with CallImportNewRepo _ _ _ _ _ => true | _ => false end.

Definition isReplay (c : Call) : bool :=
  match c with CallHandleExternalUserEvent _ _ _ _ _ _ _ _ => true | _ => false end.

Definition fetchCount (t : list Call) : nat := List.length (filter isFetch t).
Definition importCount (t : list Call) : nat := List.length (filter isImport t).

(** The replay call for a buffered event, with its outcome. *)
Definition replayCall (pds : PDS.t) (ai : ActorInfo.t) (j : catchupJob)
    (result : option error) : Call :=
  CallHandleExternalUserEvent (PDS.ID pds) (ActorInfo.Uid ai) (ActorInfo.Did ai)
    (Comatproto.Since (evt j)) (Comatproto.Rev (evt j)) (Comatproto.Blocks (evt j))
    (Comatproto.Ops (evt j)) result.

(** The calls of a replay of [js] and its [resync] flag: every event is
    replayed with success, in order; or the events up to some [j] are,
    in order, and the replay of [j] fails. *)
Inductive ReplayTrace (pds : PDS.t) (ai : ActorInfo.t) (js : list catchupJob)
  : list Call -> bool -> Prop :=
| Replay_all :
    ReplayTrace pds ai js (map (fun j => replayCall pds ai j None) js) false
| Replay_failed (done : list catchupJob) (j : catchupJob) (rest : list catchupJob)
    (err : error) :
    js = done ++ j :: rest ->
    ReplayTrace pds ai js
      (map (fun j => replayCall pds ai j None) done ++ [replayCall pds ai j (Some err)])
      true.

Definition fetchCall (pds : PDS.t) (ai : ActorInfo.t) (since : string)
    (result : Res (list Z)) : list Call :=
  [CallLimiterWait (PDS.ID pds);
   CallSyncGetRepo (PDS.Host pds) (ActorInfo.Did ai) since result].

Definition importCall (ai : ActorInfo.t) (repo : list Z) (rev : option string)
    (result : option error) : Call :=
  CallImportNewRepo (ActorInfo.Uid ai) (ActorInfo.Did ai) repo rev result.

Definition fetchError (pds : PDS.t) (ai : ActorInfo.t) (rev : string) (e : error) : error :=
  Wrapf ("failed to fetch repo (did=" ++ ActorInfo.Did ai ++ ",rev=" ++ rev ++ ",host="
           ++ PDS.Host pds ++ "): ")%string e.

(** What the caller of a fetch returns when the fetch did not succeed:
    the wrapped error, or the panic. *)
Definition handed {A} (wrap : error -> error) (r : Res A) : Res unit :=
  match r with
  | Ok _ => Ok tt
  | Err e => Err (wrap e)
  | Panic m => Panic m
  end.

Definition notOk {A} (r : Res A) : Prop :=
  match r with Ok _ => False | _ => True end.

(** The five runs of the fetch and import steps, each with the calls it
    issues and what the job returns. *)
Inductive PipelineTrace (pds : PDS.t) (ai : ActorInfo.t) (rev : string)
  : list Call -> Res unit -> Prop :=
| Pipeline_fetch_failed (res : Res (list Z)) :
    notOk res ->
    PipelineTrace pds ai rev (fetchCall pds ai rev res)
      (handed (fetchError pds ai rev) res)
| Pipeline_imported (repo : list Z) :
    PipelineTrace pds ai rev
      (fetchCall pds ai rev (Ok repo) ++ [importCall ai repo (Some rev) None])
      (Ok tt)
| Pipeline_import_failed (repo : list Z) (err : error) :
    ipldIsNotFound err = false ->
    PipelineTrace pds ai rev
      (fetchCall pds ai rev (Ok repo) ++ [importCall ai repo (Some rev) (Some err)])
      (Err (Wrapf ("importing fetched repo (curRev: " ++ rev ++ "): ")%string err))
| Pipeline_retry_fetch_failed (repo : list Z) (err : error) (res : Res (list Z)) :
    ipldIsNotFound err = true ->
    notOk res ->
    PipelineTrace pds ai rev
      (fetchCall pds ai rev (Ok repo) ++ [importCall ai repo (Some rev) (Some err)]
         ++ fetchCall pds ai "" res)
      (handed (fetchError pds ai "") res)
| Pipeline_retry_imported (repo : list Z) (err : error) (repo' : list Z)
    (result : option error) :
    ipldIsNotFound err = true ->
    PipelineTrace pds ai rev
      (fetchCall pds ai rev (Ok repo) ++ [importCall ai repo (Some rev) (Some err)]
         ++ fetchCall pds ai "" (Ok repo') ++ [importCall ai repo' None result])
      (match result with
       | None => Ok tt
       | Some err' =>
           Err (Wrapf ("failed to import backup repo (" ++ ActorInfo.Did ai ++ "): ")%string err')
       end).

(** ** Calls of the crawl job *)

(** Every fetch of [t] comes directly after a wait on the limiter of
    [pds] and asks the host of [pds] for the repository of [ai]; [prev]
    is the call before [t]. *)
Fixpoint Waited (pds : PDS.t) (ai : ActorInfo.t) (prev : option Call)
    (t : list Call) : Prop :=
  match t with
  | [] => True
  | c :: rest =>
      (isFetch c = true ->
       prev = Some (CallLimiterWait (PDS.ID pds))
       /\ exists since res,
            c = CallSyncGetRepo (PDS.Host pds) (ActorInfo.Did ai) since res)
      /\ Waited pds ai (Some c) rest
  end.

(** ** Decimal digits *)

(** The value of the decimal digits [d] read after the value [n]. *)
Fixpoint digitsValue (d : Decimal.uint) (n : Z) : Z :=
  match d with
  | Decimal.Nil => n
  | Decimal.D0 l => digitsValue l (10 * n)
  | Decimal.D1 l => digitsValue l (10 * n + 1)
  | Decimal.D2 l => digitsValue l (10 * n + 2)
  | Decimal.D3 l => digitsValue l (10 * n + 3)
  | Decimal.D4 l => digitsValue l (10 * n + 4)
  | Decimal.D5 l => digitsValue l (10 * n + 5)
  | Decimal.D6 l => digitsValue l (10 * n + 6)
  | Decimal.D7 l => digitsValue l (10 * n + 7)
  | Decimal.D8 l => digitsValue l (10 * n + 8)
  | Decimal.D9 l => digitsValue l (10 * n + 9)
  end.

(** ** Frames *)

(** [m] hands nothing to the broadcaster. *)
Definition Silent {A} (m : M A) : Prop :=
  forall w, emitted (snd (m w)) = emitted w.

(** The injected hook hands nothing to the broadcaster. *)
Definition HookSilent (ix : Indexer) : Prop :=
  forall did, Silent (CreateExternalUser ix did).

(** ** Hooks and lookups *)

(** The injected hook leaves the crawl queue alone. *)
Definition HookKeepsQueue (ix : Indexer) : Prop :=
  forall did w, crawlQueue (snd (CreateExternalUser ix did w)) = crawlQueue w.

(** [m] does not panic. *)
Definition NeverPanics {A} (m : M A) : Prop :=
  forall w s, fst (m w) <> Panic s.

(** The injected hook does not panic. *)
Definition HookNeverPanics (ix : Indexer) : Prop :=
  forall did, NeverPanics (CreateExternalUser ix did).

(** ** Follows *)

(** The rows that a follow delete of [(user, rkey)] addresses. *)
Definition followKey (user : Uid) (rkey : string) (f : FollowRecord.t) : bool :=
  (FollowRecord.Follower f =? user) && String.eqb (FollowRecord.Rkey f) rkey.

(** The part of the database that follows live in. *)
Definition followsPart (d : DB) : list FollowRecord.t * Z :=
  (follows d, nextFollowID d).

(** The injected hook leaves the follows table and its sequence alone. *)
Definition HookKeepsFollows (ix : Indexer) : Prop :=
  forall did w, followsPart (db (snd (CreateExternalUser ix did w))) = followsPart (db w).

(** ** Reposts *)

(** The part of the database that reposts live in. *)
Definition repostsPart (d : DB) : list RepostRecord.t * Z :=
  (reposts d, nextRepostID d).

(** The injected hook leaves the reposts table and its sequence alone. *)
Definition HookKeepsReposts (ix : Indexer) : Prop :=
  forall did w, repostsPart (db (snd (CreateExternalUser ix did w))) = repostsPart (db w).

(** [obs] does not read the posts table nor its sequence. *)
Definition PostsBlind {X} (obs : DB -> X) : Prop :=
  forall d ps n,
    obs (mkDB (actors d) ps (votes d) (follows d) (reposts d) (pdss d)
              (nextActorID d) n (nextVoteID d) (nextFollowID d) (nextRepostID d))
    = obs d.

(** ** Soft deletes *)

(** The row of id [id] is flagged as deleted. *)
Definition flagDeleted (id : Z) (p : FeedPost.t) : FeedPost.t :=
  if FeedPost.ID p =? id then FeedPost.setDeleted true p else p.

(** The URI under which the handlers look up the post [rkey] of [u]. *)
Definition postUri (u : ActorInfo.t) (rkey : string) : string :=
  ("at://" ++ ActorInfo.Did u ++ "/app.bsky.feed.post/" ++ rkey)%string.

(** ** Like deletes *)

(** The vote that a like delete of [(user, rkey)] loads: the first
    matching row, or the zero value. *)
Definition voteOf (user : Uid) (rkey : string) (d : DB) : VoteRecord.t :=
  match find (fun v => (VoteRecord.Voter v =? user)
                       && String.eqb (VoteRecord.Rkey v) rkey) (votes d) with
  | Some v => v
  | None => VoteRecord.zero
  end.

(** The database once the vote [vr] is removed and the up-count of its
    post taken down by one. *)
Definition unliked (vr : VoteRecord.t) (d : DB) : DB :=
  setPosts (map (bump (VoteRecord.Post vr) (-1)) (posts d))
           (setVotes (filter (fun v => negb (VoteRecord.ID v =? VoteRecord.ID vr))
                             (votes d)) d).

(** ** Post creates *)

(** The actors that the mentions of a post name, in the order of the
    entities. *)
Definition mentionedActors (es : list Bsky.FeedPost_Entity) (d : DB)
  : list ActorInfo.t :=
  flat_map (fun e => if String.eqb (Bsky.Type_ e) "mention"
                     then match actorByDid (Bsky.Value e) d with
                          | Some a => [a]
                          | None => []
                          end
                     else []) es.

(** The row of the post that [rec] replies to, when [rec] is a reply
    whose parent reference resolves. *)
Definition parentPost (ParseAtUri : string -> Res ParsedUri) (rec : Bsky.FeedPost)
    (d : DB) : option FeedPost.t :=
  match Bsky.Reply rec with
  | Some reply =>
      match Bsky.Parent reply with
      | Some parent =>
          match ParseAtUri (Bsky.Uri parent) with
          | Ok puri => postByRkeyAndAuthorDid (puri_Rkey puri) (puri_Did puri) d
          | _ => None
          end
      | None => None
      end
  | None => None
  end.

(* ================================================================== *)
(** * Stand-ins for the injected and library functions, sample data *)
(* ================================================================== *)

Module Sample.

(** No statement fails. *)
Definition noFaults : nat -> bool := fun _ => false.

(** Exactly the [k]-th statement fails. *)
Definition failAt (k : nat) : nat -> bool := fun n => Nat.eqb n k.

(** Splits [s] at the first slash. *)
Fixpoint cut (s : string) : string * option string :=
  match s with
  | EmptyString => (EmptyString, None)
  | String c rest =>
      if Ascii.eqb c "/" then (EmptyString, Some rest)
      else let (h, t) := cut rest in (String c h, t)
  end.

(** A parser for [at://did/collection/rkey]. *)
Definition parseAtUri (uri : string) : Res ParsedUri :=
  if negb (HasPrefix uri "at://") then
    Err (Errorf "AT uris must be prefixed with 'at://'")
  else
    match cut (String.substring 5 (String.length uri - 5) uri) with
    | (did, Some rest) =>
        match cut rest with
        | (coll, Some rest') =>
            match cut rest' with
            | (rkey, None) => Ok (mkParsedUri did coll rkey)
            | _ => Err (Errorf "AT uris must have three parts: did, collection, tid")
            end
        | _ => Err (Errorf "AT uris must have three parts: did, collection, tid")
        end
    | _ => Err (Errorf "AT uris must have three parts: did, collection, tid")
    end.

(** A [CreateExternalUser] that registers the DID as a new actor on PDS 1,
    with the next id as its UID. *)
Definition registerExternalUser (did : string) : M ActorInfo.t :=
  fun w =>
    let d := db w in
    let ai := ActorInfo.mk (nextActorID d) (nextActorID d) None did "" "" 1 in
    (Ok ai,
     setDB (mkDB (actors d ++ [ai]) (posts d) (votes d) (follows d) (reposts d)
                 (pdss d) (nextActorID d + 1) (nextPostID d) (nextVoteID d)
                 (nextFollowID d) (nextRepostID d)) w).

Definition ix : Indexer := mkIndexer true true registerExternalUser.

(** A decoder that accepts the strings starting with [bafy]. *)
Definition cid_Decode (s : string) : Res Bgs.Cid :=
  if HasPrefix s "bafy" then Ok s
  else Err (Errorf "invalid cid: selected encoding not supported").

Definition NormalizeHostname (h : string) : Res string := Ok h.
Definition MarshalCBOR (r : list Z) : Res (list Z) := Ok r.

(** Scenario S1: actors with UIDs 1..5, UID 3 tombstoned. *)
Definition s1_users : list Bgs.User :=
  [ Bgs.mkUser 1 "did:plc:u1" false false;
    Bgs.mkUser 2 "did:plc:u2" false false;
    Bgs.mkUser 3 "did:plc:u3" true false;
    Bgs.mkUser 4 "did:plc:u4" false false;
    Bgs.mkUser 5 "did:plc:u5" false false ].

Definition bgs (us : list Bgs.User) : Bgs.BGS :=
  Bgs.mkBGS us None true
    (fun uid => Ok ("bafyhead" ++ FormatInt10 uid)%string)
    (fun uid => Ok "rev0")
    (fun _ _ _ _ => Ok [])
    (fun _ _ => Ok [])
    None
    (fun _ => (false, None))
    (fun _ _ => None)
    (fun _ => None).

(** Two actors (UIDs 10 and 20) on PDS 1 and one post by actor 10, with
    no like yet. *)
Definition alice : ActorInfo.t := ActorInfo.mk 10 10 (Some "alice.test") "did:plc:alice" "Alice" "" 1.
Definition bob : ActorInfo.t := ActorInfo.mk 20 20 (Some "bob.test") "did:plc:bob" "Bob" "" 1.
Definition post1 : FeedPost.t := FeedPost.mk 1 10 "p1" "bafypost1" 0 0 false false.

Definition db0 : DB :=
  mkDB [alice; bob] [post1] [] [] [] [PDS.mk 1 "pds.example.com" true]
       21 2 1 1 1.

Definition w0 : World := mkWorld db0 0 [] [] [].

Definition likeRec : Bsky.FeedLike :=
  Bsky.mkFeedLike (Some (Bsky.mkRef "at://did:plc:alice/app.bsky.feed.post/p1" "bafypost1"))
                  "2023-06-01T00:00:00Z".

Definition evtBy (uid : Uid) (ops : list Repomgr.RepoOp) : Repomgr.RepoEvent :=
  Repomgr.mkEvent uid None "bafyroot" None "rev1" (Some [1; 2; 3]) 1 (Some ops).

Definition likeCreateOp : Repomgr.RepoOp :=
  Repomgr.mkOp "create" "app.bsky.feed.like" "l1" (Some "bafylike1")
               (Bsky.IsFeedLike likeRec) None.

Definition likeDeleteOp : Repomgr.RepoOp :=
  Repomgr.mkOp "delete" "app.bsky.feed.like" "l1" None (Bsky.Other "<nil>") None.


(** A post by alice that mentions bob. *)
Definition mentionPost : Bsky.FeedPost :=
  Bsky.mkFeedPost "hello @bob" [Bsky.mkEntity "mention" "did:plc:bob"] None
                  "2023-06-02T00:00:00Z".

(** Bob's post p2, and the record of a second create of p2: a reply to
    alice's p1 that mentions alice. *)
Definition post2 : FeedPost.t := FeedPost.mk 2 20 "p2" "bafypost2" 3 0 false false.

Definition db_two_posts : DB :=
  mkDB [alice; bob] [post1; post2] [] [] [] [PDS.mk 1 "pds.example.com" true]
       21 3 1 1 1.

Definition w_two_posts : World := mkWorld db_two_posts 0 [] [] [].

Definition replyPost : Bsky.FeedPost :=
  Bsky.mkFeedPost "@alice indeed" [Bsky.mkEntity "mention" "did:plc:alice"]
    (Some (Bsky.mkReplyRef
             (Some (Bsky.mkRef "at://did:plc:alice/app.bsky.feed.post/p1" "bafypost1"))
             (Some (Bsky.mkRef "at://did:plc:alice/app.bsky.feed.post/p1" "bafypost1"))))
    "2023-06-03T00:00:00Z".

(** Bob likes alice's post, alice likes it too, bob takes his like back. *)
Definition likeOps : list LikeOp :=
  [ LikeCreate likeRec (evtBy 20 [likeCreateOp]) likeCreateOp;
    LikeCreate likeRec (evtBy 10 [likeCreateOp]) likeCreateOp;
    LikeDelete (evtBy 20 [likeDeleteOp]) likeDeleteOp ].

(** Bob follows a DID that no actor row has yet. *)
Definition followOp : Repomgr.RepoOp :=
  Repomgr.mkOp "create" "app.bsky.graph.follow" "f1" (Some "bafyfollow1")
    (Bsky.IsGraphFollow (Bsky.mkGraphFollow "did:plc:xavier" "2023-06-01T00:00:00Z"))
    None.

(** The first actor event of carol, UID 30. *)
Definition initActorOp : Repomgr.RepoOp :=
  Repomgr.mkOp "initActor" "" "" None (Bsky.Other "<nil>")
               (Some (Repomgr.mkActorInfo "did:plc:carol" "carol.test" "Carol" "")).

(** An event of bob with 201 ops. *)
Definition bigEvent : Repomgr.RepoEvent :=
  Repomgr.mkEvent 20 (Some "bafyold") "bafynew" (Some "rev1") "rev2"
                  (Some [1; 2; 3]) 1 (Some (repeat likeDeleteOp 201)).

(** A repository manager whose state is the stored rev: an event applies
    when it has no [since] or its [since] is the stored rev; importing a
    diff reports a missing block, importing a full repository works. *)
Definition storedRevOf (uid : Uid) (rs : string) : Res string :=
  if String.eqb rs "" then Err ErrRecordNotFound else Ok rs.

Definition applyEvent (pdsID : Z) (uid : Uid) (did : string)
    (since : option string) (rev : string) (blocks : option (list Z))
    (ops : option (list Comatproto.SyncSubscribeRepos_RepoOp)) (rs : string)
  : option error * string :=
  match since with
  | None => (None, rev)
  | Some sn =>
      if String.eqb sn rs then (None, rev)
      else (Some (Errorf "event does not follow the stored rev"), rs)
  end.

Definition getRepo (pds : PDS.t) (did since : string) (rs : string)
  : Res (list Z) * string :=
  (Ok [1; 2; 3], rs).

Definition importRepo (uid : Uid) (did : string) (bytes : list Z)
    (rev : option string) (rs : string) : option error * string :=
  match rev with
  | None => (None, "r9")
  | Some r =>
      if String.eqb r "" then (None, "r9")
      else (Some ErrIpldNotFound, rs)
  end.

Definition runJob (job : crawlWork) (s : FetchWorld string)
  : Res unit * FetchWorld string :=
  FetchAndIndexRepo noFaults string storedRevOf applyEvent getRepo importRepo job s.

Definition commitEvt (since rev : string) : catchupJob :=
  mkCatchupJob (Comatproto.mkCommit "did:plc:alice" None None rev (Some since)
                  "bafycommit" "2023-06-01T00:00:00Z" None false 7).

Definition pds1 : PDS.t := PDS.mk 1 "pds.example.com" true.

(** The job starts with stored rev [r0]. *)
Definition job_state : FetchWorld string := mkFetchWorld w0 "r0" [].

(** Scenario S5: the buffer links to the stored rev. *)
Definition job_s5 : crawlWork :=
  mkCrawlWork alice false (Some [commitEvt "r0" "r1"; commitEvt "r1" "r2"]).

(** The second buffered event does not follow the first. *)
Definition job_broken : crawlWork :=
  mkCrawlWork alice false (Some [commitEvt "r0" "r1"; commitEvt "rX" "rY"]).

(** A PDS that serves diffs but not the full repository. *)
Definition getDiffOnly (pds : PDS.t) (did since : string) (rs : string)
  : Res (list Z) * string :=
  if String.eqb since "" then (Err (ErrExternal "XRPC ERROR 502"), rs)
  else (Ok [1; 2; 3], rs).

(** Scenario S6: the buffer does not link to the stored rev. *)
Definition job_s6 : crawlWork :=
  mkCrawlWork alice false (Some [commitEvt "rX" "rY"]).

(** An initial scrape of alice that carries a buffered event. *)
Definition job_init : crawlWork :=
  mkCrawlWork alice true (Some [commitEvt "r0" "r1"]).

(** A job for an actor whose PDS (id 9) has no row. *)
Definition job_no_pds : crawlWork :=
  mkCrawlWork (ActorInfo.mk 30 30 None "did:plc:carol" "" "" 9) true None.

(** An indexer that only crawls: it writes no posts, votes or follows. *)
Definition ix_crawl_only : Indexer := mkIndexer false true registerExternalUser.

(** Bob takes the follow [f1] back, or points it to alice. *)
Definition followDeleteOp : Repomgr.RepoOp :=
  Repomgr.mkOp "delete" "app.bsky.graph.follow" "f1" None (Bsky.Other "<nil>") None.

Definition followUpdateOp : Repomgr.RepoOp :=
  Repomgr.mkOp "update" "app.bsky.graph.follow" "f1" (Some "bafyfollow2")
    (Bsky.IsGraphFollow (Bsky.mkGraphFollow "did:plc:alice" "2023-06-04T00:00:00Z"))
    None.

(** Alice deletes her post [p1], and a post [p9] that was never indexed. *)
Definition postDeleteOp : Repomgr.RepoOp :=
  Repomgr.mkOp "delete" "app.bsky.feed.post" "p1" None (Bsky.Other "<nil>") None.

Definition postDeleteUnseenOp : Repomgr.RepoOp :=
  Repomgr.mkOp "delete" "app.bsky.feed.post" "p9" None (Bsky.Other "<nil>") None.

(** Alice rewrites her post [p1]. *)
Definition postUpdateOp : Repomgr.RepoOp :=
  Repomgr.mkOp "update" "app.bsky.feed.post" "p1" (Some "bafypost1b")
    (Bsky.IsFeedPost mentionPost) None.

(** Bob reposts alice's post. *)
Definition repostRec : Bsky.FeedRepost :=
  Bsky.mkFeedRepost
    (Some (Bsky.mkRef "at://did:plc:alice/app.bsky.feed.post/p1" "bafypost1"))
    "2023-06-05T00:00:00Z".

Definition repostOp : Repomgr.RepoOp :=
  Repomgr.mkOp "create" "app.bsky.feed.repost" "r1" (Some "bafyrepost1")
    (Bsky.IsFeedRepost repostRec) None.

(** The sample world once bob's like of alice's post is indexed. *)
Definition w_liked : World :=
  snd (HandleRepoEvent noFaults parseAtUri "2023-06-03T00:00:00Z" ix
         (evtBy 20 [likeCreateOp]) w0).

(** The sample world once bob's follow [f1] is indexed. *)
Definition w_followed : World :=
  snd (handleRecordCreateGraphFollow noFaults ix
         (Bsky.mkGraphFollow "did:plc:xavier" "2023-06-01T00:00:00Z")
         (evtBy 20 [followOp]) followOp w0).

End Sample.

(* ================================================================== *)
(** * Properties of the sync handlers *)
(* ================================================================== *)

Module BgsFacts.
Import Bgs.

Section Generic.
Variable cid_Decode : string -> Res Cid.
Variable NormalizeHostname : string -> Res string.
Variable MarshalCBOR : list Z -> Res (list Z).

(** A hostname that carries a scheme is rejected with status 400,
    whatever the server state. *)
Lemma requestCrawl_scheme_400 (s : BGS) (host : string) :
  HasPrefix host "https://" || HasPrefix host "http://" = true ->
  exists e,
    handleComAtprotoSyncRequestCrawl NormalizeHostname s host = Err e
    /\ httpStatus e = 400.
Proof.
  intros Hp. unfold handleComAtprotoSyncRequestCrawl.
  destruct (String.eqb host "") eqn:He.
  - apply String.eqb_eq in He. subst host. discriminate Hp.
  - rewrite Hp. eexists. split; reflexivity.
Qed.

(** A cursor that [strconv.ParseInt] rejects comes back as a wrapped
    plain error, which surfaces as status 500. *)
Lemma listRepos_bad_cursor_500 (s : BGS) (cursor : string) (limit : Z) (err : error) :
  cursor <> "" ->
  ParseInt10 cursor = Err err ->
  handleComAtprotoSyncListRepos s cursor limit = Err (Wrapf "invalid cursor: " err)
  /\ httpStatus (Wrapf "invalid cursor: " err) = 500.
Proof.
  intros Hne Hp. unfold handleComAtprotoSyncListRepos.
  destruct (String.eqb cursor "") eqn:He.
  - apply String.eqb_eq in He. contradiction.
  - rewrite Hp. split; reflexivity.
Qed.

(** A commit parameter that [cid.Decode] rejects comes back as a
    wrapped plain error for every live user. *)
Lemma getRecord_bad_commit_500 (s : BGS) (collection commit did rkey : string)
    (u : User) (err : error) :
  lookupLiveUser s did = Ok u ->
  commit <> "" ->
  cid_Decode commit = Err err ->
  handleComAtprotoSyncGetRecord cid_Decode MarshalCBOR s collection commit did rkey
  = Err (Wrapf "failed to decode commit cid: " err)
  /\ httpStatus (Wrapf "failed to decode commit cid: " err) = 500.
Proof.
  intros Hu Hne Hd. unfold handleComAtprotoSyncGetRecord.
  rewrite Hu.
  destruct (String.eqb commit "") eqn:He.
  - apply String.eqb_eq in He. contradiction.
  - rewrite Hd. split; reflexivity.
Qed.

(** The cursor of a non-empty page is the incoming cursor plus the
    number of rows of the page. *)
Lemma listRepos_cursor_is_offset (s : BGS) (cursor : string) (limit c : Z)
    (out : SyncListRepos_Output) (repos : list SyncListRepos_Repo) :
  (if String.eqb cursor "" then Ok 0 else ParseInt10 cursor) = Ok c ->
  handleComAtprotoSyncListRepos s cursor limit = Ok out ->
  Repos out = Some repos ->
  Cursor out
  = Some (FormatInt10 (wrap64 (c + Z.of_nat (List.length (listReposQuery s c limit))))).
Proof.
  intros Hc Hrun Hrepos. unfold handleComAtprotoSyncListRepos in Hrun.
  destruct (String.eqb cursor "") eqn:He.
  - injection Hc as <-.
    destruct (dbFault s) as [e|].
    + destruct e; try discriminate Hrun; injection Hrun as <-; discriminate Hrepos.
    + destruct (listReposQuery s 0 limit) as [|u us] eqn:Hq.
      * injection Hrun as <-. discriminate Hrepos.
      * destruct (listReposHeads s (u :: us) []); try discriminate Hrun.
        injection Hrun as <-. reflexivity.
  - rewrite Hc in Hrun.
    destruct (dbFault s) as [e|].
    + destruct e; try discriminate Hrun; injection Hrun as <-; discriminate Hrepos.
    + destruct (listReposQuery s c limit) as [|u us] eqn:Hq.
      * injection Hrun as <-. discriminate Hrepos.
      * destruct (listReposHeads s (u :: us) []); try discriminate Hrun.
        injection Hrun as <-. reflexivity.
Qed.
End Generic.

(** C2 (the code departs from the claim).  Scenario S1: UIDs 1..5 with
    UID 3 tombstoned.  The page after cursor 2 holds the users 4 and 5, so
    the last returned UID is 5, rendered [5]; the handler answers with
    cursor [4] (the incoming cursor plus the page length), and the next
    call, with that cursor, returns user 5 a second time. *)
Theorem listRepos_cursor_is_not_last_uid :
  let s := Sample.bgs Sample.s1_users in
  handleComAtprotoSyncListRepos s "2" 2
  = Ok (mkListReposOutput (Some "4")
          (Some [mkRepo "did:plc:u4" "bafyhead4"; mkRepo "did:plc:u5" "bafyhead5"]))
  /\ map ID (listReposQuery s 2 2) = [4; 5]
  /\ FormatInt10 (last (map ID (listReposQuery s 2 2)) 0) = "5"
  /\ handleComAtprotoSyncListRepos s "4" 2
     = Ok (mkListReposOutput (Some "5") (Some [mkRepo "did:plc:u5" "bafyhead5"])).
Proof. vm_compute. repeat split; reflexivity. Qed.

(** C8 (the code departs from the claim).  Of the three validation
    failures only the hostname with a scheme surfaces as status 400; the
    cursor that is not a base-10 integer and the commit that is not a
    decodable CID are returned as plain errors, which surface as 500. *)
Theorem validation_errors_status :
  let s := Sample.bgs Sample.s1_users in
  (exists e,
      handleComAtprotoSyncRequestCrawl Sample.NormalizeHostname s "https://example.com" = Err e
      /\ httpStatus e = 400)
  /\ (exists e,
         handleComAtprotoSyncListRepos s "abc" 2 = Err e
         /\ e = Wrapf "invalid cursor: " (ErrSyntax "ParseInt" "abc")
         /\ httpStatus e = 500)
  /\ (exists e,
         handleComAtprotoSyncGetRecord Sample.cid_Decode Sample.MarshalCBOR s
           "app.bsky.feed.post" "not-a-cid" "did:plc:u1" "r1" = Err e
         /\ e = Wrapf "failed to decode commit cid: "
                  (Errorf "invalid cid: selected encoding not supported")
         /\ httpStatus e = 500).
Proof.
  cbv zeta. split; [|split].
  - apply requestCrawl_scheme_400. reflexivity.
  - eexists. split; [|split]; vm_compute; reflexivity.
  - eexists. split; [|split]; vm_compute; reflexivity.
Qed.

End BgsFacts.

(* ================================================================== *)
(** * Properties of the indexer *)
(* ================================================================== *)

Module IndexerFacts.
Import Sample.

Ltac go_unfold :=
  unfold handleRecordDeleteFeedLike, handleRecordCreateFeedLike, handleInitActor,
    addNewVoteNotification, LookupUser, LookupUserByDid, DidForUser,
    Transaction, First, Find, UpsertActor, CreateFollow, CreateVote,
    DeleteVoteByID, UpdateUpCount, notify, query, exec, tick,
    wrapErr, logged, deref, bind, ret, fail, panic, gets, modify in *.

(** ** Lists *)

Lemma find_app_none {A} (f : A -> bool) (l l' : list A) :
  find f l = None -> find f (l ++ l') = find f l'.
Proof.
  induction l as [|x xs IH]; simpl; [reflexivity|].
  destruct (f x); [discriminate|exact IH].
Qed.

Lemma find_app_some {A} (f : A -> bool) (l l' : list A) (a : A) :
  find f l = Some a -> find f (l ++ l') = Some a.
Proof.
  induction l as [|x xs IH]; simpl; [discriminate|].
  destruct (f x); [trivial|exact IH].
Qed.

(** ** Delete dispatch *)

(** C6 (the code departs from the claim).  A delete op of collection
    [app.bsky.feed.like] reaches the default arm of the dispatch: the
    handler returns the unrecognized-record-type error and leaves the
    world as it was.  The like-delete transaction is filed under the
    collection name [app.bsky.feed.vote]. *)
Theorem handleRecordDelete_like_unrecognized
    (fails : nat -> bool) (ParseAtUri : string -> Res ParsedUri)
    (evt : Repomgr.RepoEvent) (kind rkey : string) (rcid : option Cid)
    (rec : Bsky.Record_) (ai : option Repomgr.ActorInfo) (local : bool)
    (w : World) :
  handleRecordDelete fails ParseAtUri evt
    (Repomgr.mkOp kind "app.bsky.feed.like" rkey rcid rec ai) local w
  = (Err (Errorf ("unrecognized record type (delete): "
                    ++ quoted "app.bsky.feed.like")%string), w)
  /\ handleRecordDelete fails ParseAtUri evt
       (Repomgr.mkOp kind "app.bsky.feed.vote" rkey rcid rec ai) local w
     = handleRecordDeleteFeedLike fails evt
         (Repomgr.mkOp kind "app.bsky.feed.vote" rkey rcid rec ai) w.
Proof. split; reflexivity. Qed.

(** ** Atomicity of the like handlers *)

(** Whatever statement fails, a like delete that returns an error leaves
    the tables as they were. *)
Lemma like_delete_atomic (fails : nat -> bool) (evt : Repomgr.RepoEvent)
    (op : Repomgr.RepoOp) (w w' : World) (r : Res unit) :
  handleRecordDeleteFeedLike fails evt op w = (r, w') ->
  r <> Ok tt ->
  db w' = db w.
Proof.
  intros Hrun Hr. go_unfold. simpl in Hrun.
  repeat match type of Hrun with
         | context [if fails ?n then _ else _] => destruct (fails n)
         | context [match find ?f ?l with _ => _ end] => destruct (find f l)
         end;
    simpl in Hrun; injection Hrun as <- <-; simpl; try reflexivity;
    exfalso; apply Hr; reflexivity.
Qed.

(** C5 (the code departs from the claim).  The like create inserts the
    VoteRecord and adjusts [up_count] in two separate statements outside
    any transaction.  With bob liking alice's post and the statement that
    adjusts [up_count] (the fourth one issued) failing, the handler
    returns the error, the VoteRecord row persists and the post still has
    [up_count = 0]: the up-count no longer is the number of votes. *)
Theorem like_create_not_atomic :
  let run := handleRecordCreateFeedLike (failAt 3) parseAtUri ix likeRec
               (evtBy 20 [likeCreateOp]) likeCreateOp w0 in
  fst run = Err (ErrExternal "statement failed")
  /\ votes (db (snd run))
     = [VoteRecord.mk 1 20 1 "2023-06-01T00:00:00Z" "l1" "bafylike1"]
  /\ posts (db (snd run)) = [post1]
  /\ FeedPost.UpCount post1 = 0
  /\ ~ Conserved (db (snd run)).
Proof.
  cbv zeta. split; [reflexivity|]. split; [reflexivity|]. split; [reflexivity|].
  split; [reflexivity|].
  intros Hc. specialize (Hc post1 (or_introl eq_refl)). discriminate Hc.
Qed.

(** ** Actor initialisation *)

(** When no statement fails, initialising an actor succeeds. *)
Lemma handleInitActor_succeeds (evt : Repomgr.RepoEvent) (kind coll rkey : string)
    (rcid : option Cid) (rec : Bsky.Record_) (ai : Repomgr.ActorInfo) (w : World) :
  fst (handleInitActor noFaults evt
         (Repomgr.mkOp kind coll rkey rcid rec (Some ai)) w) = Ok tt.
Proof. reflexivity. Qed.

(** C9.  Whenever [handleInitActor] succeeds (whichever statements the
    database may fail), the follows table has gained exactly one row,
    whose follower and target are both the UID of the event, and the
    actors table holds a row for that UID with the DID and PDS of the
    event. *)
Theorem handleInitActor_self_follow (fails : nat -> bool)
    (evt : Repomgr.RepoEvent) (op : Repomgr.RepoOp) (w w' : World) :
  handleInitActor fails evt op w = (Ok tt, w') ->
  follows (db w')
  = follows (db w)
      ++ [FollowRecord.mk (nextFollowID (db w)) (Repomgr.User evt)
            (Repomgr.User evt) "" ""]
  /\ exists (a : ActorInfo.t) (ai : Repomgr.ActorInfo),
       Repomgr.OpActorInfo op = Some ai
       /\ actorByUid (Repomgr.User evt) (db w') = Some a
       /\ ActorInfo.Did a = Repomgr.Did ai
       /\ ActorInfo.PDS a = Repomgr.PDS evt.
Proof.
  intros Hrun. go_unfold.
  destruct (Repomgr.OpActorInfo op) as [ai|]; simpl in Hrun; [|discriminate].
  destruct (fails (clock w)); simpl in Hrun; [discriminate|].
  destruct (fails (S (clock w))); simpl in Hrun; [discriminate|].
  injection Hrun as <-. simpl.
  unfold actorByUid.
  destruct (find (fun a => ActorInfo.Uid a =? Repomgr.User evt) (actors (db w)))
    as [old|] eqn:Hold; simpl.
  - split; [reflexivity|].
    assert (Hfind : exists a,
               find (fun a => ActorInfo.Uid a =? Repomgr.User evt)
                 (map (fun a => if ActorInfo.Uid a =? Repomgr.User evt
                                then ActorInfo.mk (ActorInfo.ID a) (Repomgr.User evt)
                                       (Some (Repomgr.Handle ai)) (Repomgr.Did ai)
                                       (Repomgr.DisplayName ai) (Repomgr.Type_ ai)
                                       (Repomgr.PDS evt)
                                else a) (actors (db w))) = Some a
               /\ ActorInfo.Did a = Repomgr.Did ai
               /\ ActorInfo.PDS a = Repomgr.PDS evt).
    { clear -Hold. induction (actors (db w)) as [|x xs IH]; [discriminate|].
      simpl in *. destruct (ActorInfo.Uid x =? Repomgr.User evt) eqn:Hx.
      - simpl. rewrite Z.eqb_refl. eexists. split; [reflexivity|]. split; reflexivity.
      - rewrite Hx. apply IH. exact Hold. }
    destruct Hfind as (a & Ha & Hd & Hp).
    exists a, ai. repeat split; assumption.
  - split; [reflexivity|].
    eexists. exists ai. split; [reflexivity|].
    rewrite find_app_none.
    + simpl. rewrite Z.eqb_refl. split; [reflexivity|]. split; reflexivity.
    + exact Hold.
Qed.

(** ** The firehose envelope *)

Section Envelope.
Variable fails : nat -> bool.
Variable ParseAtUri : string -> Res ParsedUri.
Variable now : string.
Variable ix : Indexer.

Lemma outop_Carries (ops : list Repomgr.RepoOp) :
  Forall2 Carries ops (map outop ops).
Proof.
  induction ops as [|op rest IH]; simpl; constructor; [|exact IH].
  repeat split.
Qed.

Lemma handleOps_outops (evt : Repomgr.RepoEvent) (ops : list Repomgr.RepoOp) :
  forall acc w out w',
    handleOps fails ParseAtUri ix evt ops acc w = (Ok out, w') ->
    out = match ops with
          | [] => acc
          | _ => Some (elems acc ++ map outop ops)
          end.
Proof.
  induction ops as [|op rest IH]; intros acc w out w' Hrun.
  - simpl in Hrun. unfold ret in Hrun. congruence.
  - simpl in Hrun. unfold bind at 1 in Hrun. unfold logged in Hrun.
    destruct (handleRepoOp fails ParseAtUri ix evt op w) as [[u|e|m] w1];
      try discriminate Hrun;
      apply IH in Hrun; subst out;
      destruct acc as [l|]; destruct rest; simpl;
      rewrite <- ?app_assoc; reflexivity.
Qed.

(** C4.  Whenever [HandleRepoEvent] returns without error, the event it
    handed to the broadcaster last is a commit envelope for the user of
    the event in which: [tooBig] is set exactly when the repo slice is
    longer than 1,000,000 bytes or there are more than 200 ops; the repo
    DID is the one stored for the user, and prev, rev, since and commit
    are those of the event; blocks and ops are nil when [tooBig] is set,
    and otherwise blocks is the repo slice of the event and ops holds one
    entry per op of the event, in order, with the collection and record
    key of the op as its path, the kind of the op as its action and the
    record CID of the op as its CID (the nil slice for an event without
    ops). *)
Theorem HandleRepoEvent_envelope (evt : Repomgr.RepoEvent) (w w' : World) :
  HandleRepoEvent fails ParseAtUri now ix evt w = (Ok tt, w') ->
  exists (pre : list XRPCStreamEvent) (c : Comatproto.SyncSubscribeRepos_Commit),
    emitted w' = pre ++ [mkStreamEvent c (Repomgr.User evt)]
    /\ Comatproto.TooBig c
       = ((len (Repomgr.RepoSlice evt) >? 1000000)
          || (len (Repomgr.Ops evt) >? 200))
    /\ (exists a, actorByUid (Repomgr.User evt) (db w') = Some a
                  /\ Comatproto.Repo c = ActorInfo.Did a)
    /\ Comatproto.Prev c = Repomgr.OldRoot evt
    /\ Comatproto.Rev c = Repomgr.Rev evt
    /\ Comatproto.Since c = Repomgr.Since evt
    /\ Comatproto.Commit c = Repomgr.NewRoot evt
    /\ (Comatproto.TooBig c = true ->
        Comatproto.Blocks c = None /\ Comatproto.Ops c = None)
    /\ (Comatproto.TooBig c = false ->
        Comatproto.Blocks c = Repomgr.RepoSlice evt
        /\ PassedThrough (elems (Repomgr.Ops evt)) (Comatproto.Ops c)).
Proof.
  intros Hrun. unfold HandleRepoEvent in Hrun.
  unfold bind at 1 in Hrun.
  destruct (handleOps fails ParseAtUri ix evt (elems (Repomgr.Ops evt)) None w)
    as [[outops|e|m] w1] eqn:Hops; try discriminate Hrun.
  apply handleOps_outops in Hops.
  assert (Hlen : len outops = len (Repomgr.Ops evt)).
  { subst outops. destruct (Repomgr.Ops evt) as [[|o os]|]; simpl; try reflexivity.
    rewrite length_map. reflexivity. }
  assert (Hout : PassedThrough (elems (Repomgr.Ops evt)) outops).
  { subst outops. destruct (elems (Repomgr.Ops evt)) as [|o os]; [reflexivity|].
    split; [discriminate|apply outop_Carries]. }
  clear Hops.
  unfold bind at 1 in Hrun. unfold DidForUser, First, query, tick in Hrun.
  unfold bind, gets, ret, fail in Hrun. simpl in Hrun.
  destruct (fails (clock w1)); simpl in Hrun; [discriminate Hrun|].
  destruct (actorByUid (Repomgr.User evt) (db w1)) as [a|] eqn:Ha;
    simpl in Hrun; [|discriminate Hrun].
  unfold events_AddEvent, tick, bind, modify in Hrun. simpl in Hrun.
  destruct (fails (S (clock w1))); simpl in Hrun; [discriminate Hrun|].
  injection Hrun as <-. simpl.
  unfold MaxEventSliceLength, MaxOpsSliceLength. rewrite Hlen.
  eexists. eexists. split; [reflexivity|]. simpl.
  split; [reflexivity|].
  split; [exists a; split; [exact Ha|reflexivity]|].
  repeat (split; [reflexivity|]).
  split; intros Hb; rewrite Hb; split; try reflexivity.
  exact Hout.
Qed.
End Envelope.

(** ** Duplicate post creates *)

Section DuplicateCreate.
Variable ParseAtUri : string -> Res ParsedUri.
Variable ix : Indexer.

Lemma LookupUserByDid_known (did : string) (a : ActorInfo.t) (w : World) :
  actorByDid did (db w) = Some a ->
  ActorInfo.ID a <> 0 ->
  LookupUserByDid noFaults did w = (Ok a, ticked w).
Proof.
  intros Ha Hid. unfold LookupUserByDid, Find, query, tick, bind, gets, ret.
  simpl. rewrite Ha. simpl.
  destruct (ActorInfo.ID a =? 0) eqn:Hz; [|reflexivity].
  apply Z.eqb_eq in Hz. contradiction.
Qed.

Lemma GetUserOrMissing_known (did : string) (a : ActorInfo.t) (w : World) :
  actorByDid did (db w) = Some a ->
  ActorInfo.ID a <> 0 ->
  GetUserOrMissing noFaults ix did w = (Ok a, ticked w).
Proof.
  intros Ha Hid. unfold GetUserOrMissing.
  rewrite (LookupUserByDid_known did a w Ha Hid). reflexivity.
Qed.

Lemma resolveMentions_known (es : list Bsky.FeedPost_Entity) :
  forall (acc : list ActorInfo.t) (w : World),
    (forall e, In e es -> Bsky.Type_ e = "mention" ->
               exists a, actorByDid (Bsky.Value e) (db w) = Some a
                         /\ ActorInfo.ID a <> 0) ->
    exists ms w1,
      resolveMentions noFaults ix es acc w = (Ok ms, w1) /\ db w1 = db w.
Proof.
  induction es as [|e rest IH]; intros acc w Hknown.
  - exists acc, w. split; reflexivity.
  - simpl. destruct (String.eqb (Bsky.Type_ e) "mention") eqn:Hm.
    + apply String.eqb_eq in Hm.
      destruct (Hknown e (or_introl eq_refl) Hm) as (a & Ha & Hid).
      unfold bind. rewrite (GetUserOrMissing_known _ a w Ha Hid).
      destruct (IH (acc ++ [a]) (ticked w)) as (ms & w1 & Hrun & Hdb).
      { intros e' Hin Hm'. apply Hknown; [right; exact Hin|exact Hm']. }
      exists ms, w1. split; [exact Hrun|exact Hdb].
    + apply IH. intros e' Hin Hm'. apply Hknown; [right; exact Hin|exact Hm'].
Qed.

Lemma notifyMentions_ok (fp : FeedPost.t) (ms : list ActorInfo.t) :
  forall w, exists w1,
    notifyMentions noFaults fp ms w = (Ok tt, w1) /\ db w1 = db w.
Proof.
  induction ms as [|m rest IH]; intros w.
  - exists w. split; reflexivity.
  - simpl. unfold bind at 1. unfold notify, tick, bind, modify. simpl.
    destruct (IH (mkWorld (db w) (S (clock w))
                    (notifs w ++ [AddMention (FeedPost.Author fp) (FeedPost.ID fp)
                                    (ActorInfo.Uid m)])
                    (crawlQueue w) (emitted w))) as (w1 & Hrun & Hdb).
    exists w1. split; [exact Hrun|exact Hdb].
Qed.

Lemma GetPostOrMissing_known (uri : string) (puri : ParsedUri) (pp : FeedPost.t)
    (w : World) :
  ParseAtUri uri = Ok puri ->
  postByRkeyAndAuthorDid (puri_Rkey puri) (puri_Did puri) (db w) = Some pp ->
  FeedPost.ID pp <> 0 ->
  GetPostOrMissing noFaults ParseAtUri ix uri w = (Ok pp, ticked w).
Proof.
  intros Hp Hf Hid. unfold GetPostOrMissing, parseUri, Find, query, tick, bind, gets, ret.
  rewrite Hp. simpl. rewrite Hf. simpl.
  destruct (FeedPost.ID pp =? 0) eqn:Hz; [|reflexivity].
  apply Z.eqb_eq in Hz. contradiction.
Qed.

Lemma overwritten_key (user : Uid) (rkey : string) (rcid : Cid) (replyid : Z)
    (p : FeedPost.t) :
  (FeedPost.Author (overwritten user rkey rcid replyid p),
   FeedPost.Rkey (overwritten user rkey rcid replyid p))
  = (FeedPost.Author p, FeedPost.Rkey p).
Proof.
  unfold overwritten.
  destruct (String.eqb (FeedPost.Rkey p) rkey) eqn:Hr; simpl; [|reflexivity].
  destruct (FeedPost.Author p =? user) eqn:Ha; simpl; [|reflexivity].
  apply String.eqb_eq in Hr. apply Z.eqb_eq in Ha. congruence.
Qed.

Lemma find_map_same {A} (f : A -> bool) (g : A -> A) (l : list A) :
  (forall x, f (g x) = f x) ->
  find f (map g l) = option_map g (find f l).
Proof.
  intros Hfg. induction l as [|x xs IH]; simpl; [reflexivity|].
  rewrite Hfg. destruct (f x); [reflexivity|exact IH].
Qed.

Lemma postByRkeyAndAuthorDid_overwritten (user : Uid) (rkey : string) (rcid : Cid)
    (replyid : Z) (r did : string) (d : DB) :
  postByRkeyAndAuthorDid r did
    (setPosts (map (overwritten user rkey rcid replyid) (posts d)) d)
  = option_map (overwritten user rkey rcid replyid) (postByRkeyAndAuthorDid r did d).
Proof.
  unfold postByRkeyAndAuthorDid, actorByDid. simpl.
  destruct (find (fun a => String.eqb (ActorInfo.Did a) did) (actors d)) as [a|];
    [|reflexivity].
  apply find_map_same. intros p.
  pose proof (overwritten_key user rkey rcid replyid p) as Hk.
  injection Hk as Ha Hr. rewrite Ha, Hr. reflexivity.
Qed.

Lemma overwritten_id (user : Uid) (rkey : string) (rcid : Cid) (replyid : Z)
    (p : FeedPost.t) :
  FeedPost.ID (overwritten user rkey rcid replyid p) = FeedPost.ID p.
Proof.
  unfold overwritten.
  destruct (String.eqb (FeedPost.Rkey p) rkey && (FeedPost.Author p =? user));
    reflexivity.
Qed.

Lemma overwritten_found (user : Uid) (rkey : string) (rcid : Cid) (replyid : Z)
    (l : list FeedPost.t) (old : FeedPost.t) :
  find (fun p => String.eqb (FeedPost.Rkey p) rkey && (FeedPost.Author p =? user)) l
  = Some old ->
  In (FeedPost.mk (FeedPost.ID old) user rkey rcid 0 replyid false false)
     (map (overwritten user rkey rcid replyid) l).
Proof.
  induction l as [|p ps IH]; simpl; [discriminate|].
  destruct (String.eqb (FeedPost.Rkey p) rkey && (FeedPost.Author p =? user)) eqn:Hk.
  - intros [= <-]. left. unfold overwritten. rewrite Hk. reflexivity.
  - intros Hf. right. apply IH. exact Hf.
Qed.

(** The statements from the lookup of the existing row to the end of the
    handler, once the reply and the mentions are resolved. *)
Lemma store_and_notify (user : Uid) (rkey : string) (rcid : Cid)
    (rec : Bsky.FeedPost) (replyid : Z) (ms : list ActorInfo.t)
    (w1 : World) (old : FeedPost.t) :
  ReplyKnown ParseAtUri rec (db w1) replyid ->
  postByRkeyAndAuthor rkey user (db w1) = Some old ->
  FeedPost.ID old <> 0 ->
  exists w',
    (maybe <- Find noFaults FeedPost.zero (postByRkeyAndAuthor rkey user) ;;
     fp' <- (if negb (FeedPost.ID maybe =? 0)
             then UpsertPost noFaults (FeedPost.mk 0 user rkey rcid 0 replyid false false)
             else CreatePost noFaults (FeedPost.mk 0 user rkey rcid 0 replyid false false)) ;;
     addNewPostNotification noFaults ParseAtUri rec fp' ms) w1
    = (Ok tt, w')
    /\ posts (db w') = map (overwritten user rkey rcid replyid) (posts (db w1)).
Proof.
  intros Hreply Hold Hid.
  unfold bind at 1. unfold Find, query, tick, bind at 1 2, gets, ret. simpl.
  rewrite Hold. simpl.
  destruct (FeedPost.ID old =? 0) eqn:Hz; [apply Z.eqb_eq in Hz; contradiction|].
  simpl. unfold bind at 1. unfold UpsertPost, tick, bind at 1 2 3, gets, modify, ret. simpl.
  rewrite Hold. simpl.
  unfold addNewPostNotification. unfold ReplyKnown in Hreply.
  destruct (Bsky.Reply rec) as [reply|].
  - destruct Hreply as (parent & root & puriP & puriR & pp & rp & Hpa & Hro & HpP & HpR
                        & HfP & HfR & HidP & HidR & ->).
    rewrite Hpa. unfold deref, GetPost, parseUri, First, query, tick, notify.
    unfold bind, gets, ret, modify. rewrite HpP. simpl.
    match goal with
    | |- context [postByRkeyAndAuthorDid ?r ?d ?D] =>
        replace (postByRkeyAndAuthorDid r d D)
          with (Some (overwritten user rkey rcid (FeedPost.ID pp) pp))
    end.
    2: { match goal with
         | |- _ = postByRkeyAndAuthorDid ?r ?d ?D =>
             change D with (setPosts (map (overwritten user rkey rcid (FeedPost.ID pp))
                                          (posts (db w1))) (db w1))
         end.
         rewrite postByRkeyAndAuthorDid_overwritten, HfP. reflexivity. }
    simpl.
    match goal with
    | |- context [notifyMentions noFaults ?fp ms ?w2] =>
        destruct (notifyMentions_ok fp ms w2) as (w3 & Hn & Hdb3)
    end.
    exists w3. rewrite Hn, Hdb3. split; reflexivity.
  - subst replyid. unfold bind, ret. simpl.
    match goal with
    | |- context [notifyMentions noFaults ?fp ms ?w2] =>
        destruct (notifyMentions_ok fp ms w2) as (w3 & Hn & Hdb3)
    end.
    exists w3. rewrite Hn, Hdb3. split; reflexivity.
Qed.

(** C10.  A post create for a [(user, rkey)] that already has a row (a
    duplicate create when the row is not a placeholder), for a record
    whose reply references (if any) and mentions resolve in the
    database, on a database whose statements execute: the handler
    returns no error; the posts table keeps its rows, ids and keys, in
    the same order; the row of [(user, rkey)] keeps its id and takes the
    values of the new record (CID, reply target, not missing, not
    deleted, zero up-count); the key remains unique. *)
Theorem duplicate_post_create_overwrites (user : Uid) (rkey : string)
    (rcid : Cid) (rec : Bsky.FeedPost) (w : World) (old : FeedPost.t) (replyid : Z) :
  ReplyKnown ParseAtUri rec (db w) replyid ->
  MentionsKnown rec (db w) ->
  postByRkeyAndAuthor rkey user (db w) = Some old ->
  FeedPost.ID old <> 0 ->
  FeedPost.Missing old = false ->
  UniqueKeys (posts (db w)) ->
  exists w',
    handleRecordCreateFeedPost noFaults ParseAtUri ix user rkey rcid rec w
    = (Ok tt, w')
    /\ posts (db w') = map (overwritten user rkey rcid replyid) (posts (db w))
    /\ map FeedPost.ID (posts (db w')) = map FeedPost.ID (posts (db w))
    /\ In (FeedPost.mk (FeedPost.ID old) user rkey rcid 0 replyid false false)
          (posts (db w'))
    /\ UniqueKeys (posts (db w')).
Proof.
  intros Hreply Hknown Hold Hid _ Huniq.
  assert (Hrun : exists w',
             handleRecordCreateFeedPost noFaults ParseAtUri ix user rkey rcid rec w
             = (Ok tt, w')
             /\ posts (db w') = map (overwritten user rkey rcid replyid) (posts (db w))).
  { unfold handleRecordCreateFeedPost. unfold bind at 1.
    assert (Hres : exists wr,
               match Bsky.Reply rec with
               | Some reply =>
                   parent <- deref (Bsky.Parent reply) ;;
                   replyto <- GetPostOrMissing noFaults ParseAtUri ix (Bsky.Uri parent) ;;
                   root <- deref (Bsky.Root reply) ;;
                   GetPostOrMissing noFaults ParseAtUri ix (Bsky.Uri root) ;;
                   ret (FeedPost.ID replyto)
               | None => ret 0
               end w = (Ok replyid, wr) /\ db wr = db w).
    { pose proof Hreply as Hr. unfold ReplyKnown in Hr.
      destruct (Bsky.Reply rec) as [reply|].
      - destruct Hr as (parent & root & puriP & puriR & pp & rp & Hpa & Hro & HpP & HpR
                        & HfP & HfR & HidP & HidR & ->).
        rewrite Hpa, Hro. unfold deref. unfold bind at 1. unfold ret at 1.
        unfold bind at 1. rewrite (GetPostOrMissing_known _ puriP pp w HpP HfP HidP).
        unfold bind at 1. unfold ret at 1. unfold bind at 1.
        rewrite (GetPostOrMissing_known _ puriR rp (ticked w) HpR HfR HidR).
        exists (ticked (ticked w)). split; reflexivity.
      - subst replyid. exists w. split; reflexivity. }
    destruct Hres as (wr & Hres & Hdbr). rewrite Hres. cbv beta iota.
    unfold bind at 1.
    destruct (resolveMentions_known (Bsky.Entities rec) [] wr)
      as (ms & w1 & Hms & Hdb1).
    { rewrite Hdbr. exact Hknown. }
    rewrite Hms. cbv beta iota.
    assert (Hdb : db w1 = db w) by (rewrite Hdb1; exact Hdbr).
    destruct (store_and_notify user rkey rcid rec replyid ms w1 old) as (w' & Hst & Hposts).
    - rewrite Hdb. exact Hreply.
    - rewrite Hdb. exact Hold.
    - exact Hid.
    - exists w'. rewrite Hst, Hposts, Hdb. split; reflexivity. }
  destruct Hrun as (w' & Hrun & Hposts).
  exists w'. rewrite Hposts.
  split; [exact Hrun|]. split; [reflexivity|]. split; [|split].
  - rewrite map_map. apply map_ext. intros p. apply overwritten_id.
  - apply overwritten_found. exact Hold.
  - unfold UniqueKeys in *. rewrite map_map.
    erewrite map_ext; [exact Huniq|].
    intros p. apply overwritten_key.
Qed.
End DuplicateCreate.

(** ** Up-count conservation *)

Lemma Consistent_likesPart (d d' : DB) :
  likesPart d' = likesPart d -> Consistent d -> Consistent d'.
Proof.
  unfold likesPart, Consistent, IdsIssued, Conserved.
  intros [= Hp Hv Hnp Hnv]. rewrite Hp, Hv, Hnp, Hnv. trivial.
Qed.

(** *** Counting votes *)

Lemma votesFor_app (P : Z) (vs vs' : list VoteRecord.t) :
  votesFor P (vs ++ vs') = votesFor P vs + votesFor P vs'.
Proof. unfold votesFor. rewrite filter_app, length_app. lia. Qed.

Lemma votesFor_none (P : Z) (vs : list VoteRecord.t) :
  (forall v, In v vs -> VoteRecord.Post v <> P) -> votesFor P vs = 0.
Proof.
  intros H. unfold votesFor.
  induction vs as [|v vs IH]; simpl; [reflexivity|].
  destruct (VoteRecord.Post v =? P) eqn:He.
  - apply Z.eqb_eq in He. exfalso. apply (H v); [left; reflexivity|exact He].
  - apply IH. intros v' Hin. apply H. right. exact Hin.
Qed.

Lemma filter_id_absent (i : Z) (vs : list VoteRecord.t) :
  (forall v, In v vs -> VoteRecord.ID v <> i) ->
  filter (fun v => negb (VoteRecord.ID v =? i)) vs = vs.
Proof.
  intros H. induction vs as [|v vs IH]; simpl; [reflexivity|].
  destruct (VoteRecord.ID v =? i) eqn:He; simpl.
  - apply Z.eqb_eq in He. exfalso. apply (H v); [left; reflexivity|exact He].
  - f_equal. apply IH. intros v' Hin. apply H. right. exact Hin.
Qed.

Lemma votesFor_one (P : Z) (v : VoteRecord.t) :
  votesFor P [v] = if VoteRecord.Post v =? P then 1 else 0.
Proof. unfold votesFor. simpl. destruct (VoteRecord.Post v =? P); reflexivity. Qed.

(** Deleting by the id of a row of a table without duplicate ids removes
    that one row from the count of its post, and no other. *)
Lemma votesFor_delete (P : Z) (vr : VoteRecord.t) (vs : list VoteRecord.t) :
  NoDup (map VoteRecord.ID vs) ->
  In vr vs ->
  votesFor P (filter (fun v => negb (VoteRecord.ID v =? VoteRecord.ID vr)) vs)
  = votesFor P vs - (if VoteRecord.Post vr =? P then 1 else 0).
Proof.
  intros Hnd Hin. induction vs as [|v vs IH]; [contradiction|].
  simpl in Hnd. inversion Hnd as [|i l Hni Hnd']; subst.
  destruct Hin as [->|Hin].
  - simpl. rewrite Z.eqb_refl. simpl.
    rewrite filter_id_absent.
    + change (vr :: vs) with ([vr] ++ vs). rewrite votesFor_app, votesFor_one.
      destruct (VoteRecord.Post vr =? P); lia.
    + intros v' Hv' He. apply Hni. rewrite <- He. apply in_map. exact Hv'.
  - simpl. destruct (VoteRecord.ID v =? VoteRecord.ID vr) eqn:He.
    + apply Z.eqb_eq in He. exfalso. apply Hni. rewrite He. apply in_map. exact Hin.
    + simpl. change (v :: filter (fun v0 => negb (VoteRecord.ID v0 =? VoteRecord.ID vr)) vs)
        with ([v] ++ filter (fun v0 => negb (VoteRecord.ID v0 =? VoteRecord.ID vr)) vs).
      change (v :: vs) with ([v] ++ vs).
      rewrite !votesFor_app. rewrite (IH Hnd' Hin). lia.
Qed.

(** *** The three writes keep the database consistent *)

Lemma bump_id (id delta : Z) (p : FeedPost.t) : FeedPost.ID (bump id delta p) = FeedPost.ID p.
Proof. unfold bump. destruct (FeedPost.ID p =? id); reflexivity. Qed.

Lemma in_map_bump (id delta : Z) (q : FeedPost.t) (ps : list FeedPost.t) :
  In q (map (bump id delta) ps) -> exists p, In p ps /\ q = bump id delta p.
Proof. intros H. apply in_map_iff in H. destruct H as (p & <- & Hin). eauto. Qed.

Ltac split_consistent :=
  refine (conj (conj _ (conj _ (conj _ (conj _ (conj _ _))))) _); simpl.

(** A placeholder post is inserted. *)
Lemma Consistent_placeholder (d : DB) (fp : FeedPost.t) :
  FeedPost.UpCount fp = 0 ->
  Consistent d ->
  Consistent (insertPost (FeedPost.setID (nextPostID d) fp) d).
Proof.
  intros Hup ((Hnp & Hnv & Hps & Hvs & Hnd & Hvp) & Hc).
  split_consistent.
  - lia.
  - exact Hnv.
  - intros p H. apply in_app_or in H.
    destruct H as [H|[<-|[]]]; simpl; [apply Hps in H|]; lia.
  - exact Hvs.
  - exact Hnd.
  - intros v Hv. apply Hvp in Hv. lia.
  - intros p Hp. simpl in *. apply in_app_or in Hp. destruct Hp as [Hp|[<-|[]]].
    + apply Hc. exact Hp.
    + simpl. rewrite Hup. symmetry. apply votesFor_none.
      intros v Hv He. apply Hvp in Hv. lia.
Qed.

(** A vote for [post] is inserted and the up-count of [post] goes up. *)
Lemma Consistent_like (d : DB) (post : FeedPost.t) (vr : VoteRecord.t) :
  In post (posts d) ->
  VoteRecord.Post vr = FeedPost.ID post ->
  Consistent d ->
  let d1 := mkDB (actors d) (posts d) (votes d ++ [VoteRecord.setID (nextVoteID d) vr])
                 (follows d) (reposts d) (pdss d) (nextActorID d) (nextPostID d)
                 (nextVoteID d + 1) (nextFollowID d) (nextRepostID d) in
  Consistent (setPosts (map (bump (FeedPost.ID post) 1) (posts d1)) d1).
Proof.
  intros Hpost Hvr ((Hnp & Hnv & Hps & Hvs & Hnd & Hvp) & Hc). cbv zeta.
  split_consistent.
  - exact Hnp.
  - lia.
  - intros q H. apply in_map_bump in H. destruct H as (p & Hp & ->).
    rewrite bump_id. apply Hps. exact Hp.
  - intros v H. apply in_app_or in H.
    destruct H as [H|[<-|[]]]; simpl; [apply Hvs in H|]; lia.
  - rewrite map_app. simpl. apply NoDup_app; [exact Hnd|repeat constructor; intros []|].
    intros i Hi [<-|[]]. apply in_map_iff in Hi. destruct Hi as (v & He & Hv).
    apply Hvs in Hv. lia.
  - intros v Hv. apply in_app_or in Hv. destruct Hv as [Hv|[<-|[]]].
    + apply Hvp. exact Hv.
    + simpl. rewrite Hvr. apply Hps in Hpost. lia.
  - intros q Hq. simpl in *. apply in_map_bump in Hq. destruct Hq as (p & Hp & ->).
    rewrite bump_id, votesFor_app, votesFor_one. simpl. rewrite Hvr.
    unfold bump. rewrite (Z.eqb_sym (FeedPost.ID post)).
    destruct (FeedPost.ID p =? FeedPost.ID post); simpl; rewrite (Hc p Hp); lia.
Qed.

(** The vote [vr] is deleted by id and the up-count of its post goes down;
    [vr] is a row of the table, or the zero value of a lookup that found
    none. *)
Lemma Consistent_unlike (d : DB) (vr : VoteRecord.t) :
  In vr (votes d) \/ vr = VoteRecord.zero ->
  Consistent d ->
  let d1 := setVotes (filter (fun v => negb (VoteRecord.ID v =? VoteRecord.ID vr)) (votes d)) d in
  Consistent (setPosts (map (bump (VoteRecord.Post vr) (-1)) (posts d1)) d1).
Proof.
  intros Hvr ((Hnp & Hnv & Hps & Hvs & Hnd & Hvp) & Hc). cbv zeta.
  assert (Hsub : forall v, In v (filter (fun v => negb (VoteRecord.ID v =? VoteRecord.ID vr)) (votes d))
                           -> In v (votes d)).
  { intros v Hv. apply filter_In in Hv. tauto. }
  split_consistent.
  - exact Hnp.
  - exact Hnv.
  - intros q H. apply in_map_bump in H. destruct H as (p & Hp & ->).
    rewrite bump_id. apply Hps. exact Hp.
  - intros v H. apply Hvs, Hsub, H.
  - clear -Hnd. induction (votes d) as [|v vs IH]; simpl; [constructor|].
    simpl in Hnd. inversion Hnd as [|i l Hni Hnd']; subst.
    destruct (VoteRecord.ID v =? VoteRecord.ID vr); simpl; [apply IH; exact Hnd'|].
    constructor; [|apply IH; exact Hnd'].
    intros Hi. apply Hni. apply in_map_iff in Hi. destruct Hi as (x & He & Hx).
    apply filter_In in Hx. rewrite <- He. apply in_map. tauto.
  - intros v Hv. apply Hvp, Hsub, Hv.
  - intros q Hq. simpl in *. apply in_map_bump in Hq. destruct Hq as (p & Hp & ->).
    rewrite bump_id. destruct Hvr as [Hin| ->].
    + rewrite (votesFor_delete _ vr _ Hnd Hin).
      unfold bump. rewrite (Z.eqb_sym (VoteRecord.Post vr)).
      destruct (FeedPost.ID p =? VoteRecord.Post vr); simpl; rewrite (Hc p Hp); lia.
    + simpl. rewrite filter_id_absent.
      * unfold bump. simpl. destruct (FeedPost.ID p =? 0) eqn:He.
        { apply Z.eqb_eq in He. apply Hps in Hp. lia. }
        { apply Hc. exact Hp. }
      * intros v Hv He. apply Hvs in Hv. lia.
Qed.

Lemma Res_eq_Ok_dec (r : Res unit) : {r = Ok tt} + {r <> Ok tt}.
Proof.
  destruct r as [[]|e|m]; [left; reflexivity|right; discriminate|right; discriminate].
Qed.

(** *** The handlers keep the database consistent *)

Section Conservation.
Variable fails : nat -> bool.
Variable ParseAtUri : string -> Res ParsedUri.
Variable ix : Indexer.
Hypothesis Hhook : HookKeepsLikes ix.

Lemma LookupUserByDid_db (did : string) (w w' : World) (r : Res ActorInfo.t) :
  LookupUserByDid fails did w = (r, w') -> db w' = db w.
Proof.
  unfold LookupUserByDid, Find, query, tick, bind, gets, ret, fail. simpl.
  destruct (fails (clock w)); simpl.
  - intros [= <- <-]. reflexivity.
  - destruct (actorByDid did (db w)) as [a|]; simpl;
      [destruct (ActorInfo.ID a =? 0)|]; intros [= <- <-]; reflexivity.
Qed.

Lemma addUserToCrawler_db (ai : ActorInfo.t) (w w' : World) (r : Res unit) :
  addUserToCrawler fails ix ai w = (r, w') -> db w' = db w.
Proof.
  unfold addUserToCrawler, Crawler_Crawl, tick, bind, modify, ret.
  destruct (hasCrawler ix); simpl; [destruct (fails (clock w)); simpl|];
    intros [= <- <-]; reflexivity.
Qed.

Lemma GetUserOrMissing_likes (did : string) (w w' : World) (r : Res ActorInfo.t) :
  GetUserOrMissing fails ix did w = (r, w') ->
  likesPart (db w') = likesPart (db w).
Proof.
  unfold GetUserOrMissing.
  destruct (LookupUserByDid fails did w) as [[a|e|m] w1] eqn:Hl;
    apply LookupUserByDid_db in Hl.
  - intros [= <- <-]. rewrite Hl. reflexivity.
  - destruct (negb (isNotFound e)).
    + intros [= <- <-]. rewrite Hl. reflexivity.
    + unfold createMissingUserRecord. unfold bind at 1.
      pose proof (Hhook did w1) as Hh.
      destruct (CreateExternalUser ix did w1) as [[ai|e'|m'] w2]; simpl in Hh;
        rewrite Hl in Hh.
      * unfold bind, wrapErr.
        destruct (addUserToCrawler fails ix ai w2) as [[u|e''|m''] w3] eqn:Hc;
          apply addUserToCrawler_db in Hc; unfold ret;
          intros [= <- <-]; rewrite Hc; exact Hh.
      * intros [= <- <-]. exact Hh.
      * intros [= <- <-]. exact Hh.
  - intros [= <- <-]. rewrite Hl. reflexivity.
Qed.

Lemma FirstOrCreateMissingPost_consistent (author : Uid) (rkey : string)
    (w w' : World) (r : Res FeedPost.t) :
  FirstOrCreateMissingPost fails author rkey w = (r, w') ->
  Consistent (db w) ->
  Consistent (db w') /\ forall post, r = Ok post -> In post (posts (db w')).
Proof.
  unfold FirstOrCreateMissingPost, CreatePost, query, tick, bind, gets, modify, ret, fail.
  simpl. intros Hrun Hc.
  destruct (fails (clock w)); simpl in Hrun.
  { injection Hrun as <- <-. split; [exact Hc|discriminate]. }
  match type of Hrun with
  | context [find ?f (posts (db w))] =>
      destruct (find f (posts (db w))) as [p|] eqn:Hf
  end; simpl in Hrun.
  { injection Hrun as <- <-. split; [exact Hc|].
    intros post [= <-]. apply find_some in Hf. apply Hf. }
  destruct (fails (S (clock w))); simpl in Hrun.
  { injection Hrun as <- <-. split; [exact Hc|discriminate]. }
  destruct (postByRkeyAndAuthor rkey author (db w)); simpl in Hrun.
  { injection Hrun as <- <-. split; [exact Hc|discriminate]. }
  injection Hrun as <- <-. simpl. split.
  - apply (Consistent_placeholder (db w)
             (FeedPost.mk 0 author rkey "" 0 0 true false) eq_refl Hc).
  - intros post [= <-]. apply in_or_app. right. left. reflexivity.
Qed.

Lemma GetPostOrMissing_consistent (uri : string) (w w' : World) (r : Res FeedPost.t) :
  GetPostOrMissing fails ParseAtUri ix uri w = (r, w') ->
  Consistent (db w) ->
  Consistent (db w') /\ forall post, r = Ok post -> In post (posts (db w')).
Proof.
  unfold GetPostOrMissing, parseUri. unfold bind at 1.
  intros Hrun Hc.
  destruct (ParseAtUri uri) as [puri|e|m].
  2,3: injection Hrun as <- <-; split; [exact Hc|discriminate].
  unfold bind at 1 in Hrun. unfold Find, query, tick, bind, gets, ret in Hrun.
  simpl in Hrun.
  destruct (fails (clock w)); simpl in Hrun.
  { injection Hrun as <- <-. split; [exact Hc|discriminate]. }
  assert (Hmiss : forall w0 : World,
             db w0 = db w ->
             createMissingPostRecord fails ix puri w0 = (r, w') ->
             Consistent (db w') /\ forall post, r = Ok post -> In post (posts (db w'))).
  { intros w0 Hdb. unfold createMissingPostRecord. unfold bind at 1.
    destruct (GetUserOrMissing fails ix (puri_Did puri) w0) as [[ai|e|m] w1] eqn:Hg;
      apply GetUserOrMissing_likes in Hg; rewrite Hdb in Hg.
    - intros Hf. apply FirstOrCreateMissingPost_consistent in Hf; [exact Hf|].
      apply (Consistent_likesPart (db w)); assumption.
    - intros [= <- <-]. split; [|discriminate].
      apply (Consistent_likesPart (db w)); assumption.
    - intros [= <- <-]. split; [|discriminate].
      apply (Consistent_likesPart (db w)); assumption. }
  destruct (postByRkeyAndAuthorDid (puri_Rkey puri) (puri_Did puri) (db w))
    as [post|] eqn:Hf; simpl in Hrun.
  - destruct (FeedPost.ID post =? 0).
    + apply Hmiss in Hrun; [exact Hrun|reflexivity].
    + injection Hrun as <- <-. split; [exact Hc|]. intros p [= <-].
      unfold postByRkeyAndAuthorDid in Hf.
      destruct (actorByDid (puri_Did puri) (db w)); [|discriminate].
      apply find_some in Hf. apply Hf.
  - apply Hmiss in Hrun; [exact Hrun|reflexivity].
Qed.

(** A like delete keeps the database consistent, whatever fails. *)
Lemma handleRecordDeleteFeedLike_consistent (evt : Repomgr.RepoEvent)
    (op : Repomgr.RepoOp) (w w' : World) (r : Res unit) :
  handleRecordDeleteFeedLike fails evt op w = (r, w') ->
  Consistent (db w) ->
  Consistent (db w').
Proof.
  intros Hrun Hc.
  destruct (Res_eq_Ok_dec r) as [->|Hr].
  2: { rewrite (like_delete_atomic fails evt op w w' r Hrun Hr). exact Hc. }
  unfold handleRecordDeleteFeedLike in Hrun. unfold bind at 1 in Hrun.
  unfold Find, query, tick, bind at 1 2, gets, ret in Hrun. simpl in Hrun.
  destruct (fails (clock w)); simpl in Hrun; [discriminate|].
  match type of Hrun with
  | context [find ?f (votes (db w))] =>
      destruct (find f (votes (db w))) as [vr|] eqn:Hf
  end; simpl in Hrun.
  - unfold Transaction, DeleteVoteByID, UpdateUpCount, exec, tick, bind, modify in Hrun.
    simpl in Hrun.
    repeat match type of Hrun with
           | context [if fails ?n then _ else _] =>
               destruct (fails n); simpl in Hrun; try discriminate Hrun
           end.
    injection Hrun as <-. simpl.
    apply find_some in Hf.
    apply (Consistent_unlike (db w) vr (or_introl (proj1 Hf)) Hc).
  - unfold Transaction, DeleteVoteByID, UpdateUpCount, exec, tick, bind, modify in Hrun.
    simpl in Hrun.
    repeat match type of Hrun with
           | context [if fails ?n then _ else _] =>
               destruct (fails n); simpl in Hrun; try discriminate Hrun
           end.
    injection Hrun as <-. simpl.
    apply (Consistent_unlike (db w) VoteRecord.zero (or_intror eq_refl) Hc).
Qed.

(** A like create keeps the database consistent when it returns without
    error, and also, whatever it returns, when no statement fails. *)
Lemma handleRecordCreateFeedLike_consistent (rec : Bsky.FeedLike)
    (evt : Repomgr.RepoEvent) (op : Repomgr.RepoOp) (w w' : World) (r : Res unit) :
  handleRecordCreateFeedLike fails ParseAtUri ix rec evt op w = (r, w') ->
  r = Ok tt \/ (forall n, fails n = false) ->
  Consistent (db w) ->
  Consistent (db w').
Proof.
  intros Hrun Hok Hc. unfold handleRecordCreateFeedLike in Hrun.
  unfold bind at 1 in Hrun. unfold deref at 1 in Hrun.
  destruct (Bsky.LikeSubject rec) as [subject|]; simpl in Hrun.
  2: { injection Hrun as <- <-. exact Hc. }
  unfold bind at 1 in Hrun.
  destruct (GetPostOrMissing fails ParseAtUri ix (Bsky.Uri subject) w)
    as [[post|e|m] w1] eqn:Hg;
    apply GetPostOrMissing_consistent in Hg; try exact Hc;
    destruct Hg as [Hc1 Hin].
  2,3: injection Hrun as <- <-; exact Hc1.
  specialize (Hin post eq_refl).
  unfold bind at 1 in Hrun. unfold LookupUser, First, query, tick in Hrun.
  unfold bind at 1 2 3, gets, ret, fail in Hrun. simpl in Hrun.
  destruct (fails (clock w1)); simpl in Hrun.
  { injection Hrun as <- <-. exact Hc1. }
  destruct (actorByUid (FeedPost.Author post) (db w1)) as [act|]; simpl in Hrun.
  2: { injection Hrun as <- <-. exact Hc1. }
  unfold bind at 1 in Hrun. unfold deref in Hrun.
  destruct (Repomgr.RecCid op) as [cid|]; simpl in Hrun.
  2: { injection Hrun as <- <-. exact Hc1. }
  unfold CreateVote, UpdateUpCount, addNewVoteNotification, notify, exec, tick,
    bind, gets, modify, ret in Hrun. simpl in Hrun.
  destruct (fails (S (clock w1))) eqn:Hf1; simpl in Hrun.
  { injection Hrun as <- <-. exact Hc1. }
  destruct (fails (S (S (clock w1)))) eqn:Hf2; simpl in Hrun.
  { injection Hrun as <- <-. exfalso. destruct Hok as [Hok|Hok].
    - discriminate Hok.
    - rewrite Hok in Hf2. discriminate Hf2. }
  assert (Hfin : Consistent
                   (setPosts
                      (map (bump (FeedPost.ID post) 1) (posts (db w1)))
                      (mkDB (actors (db w1)) (posts (db w1))
                         (votes (db w1)
                            ++ [VoteRecord.setID (nextVoteID (db w1))
                                  (VoteRecord.mk 0 (Repomgr.User evt) (FeedPost.ID post)
                                     (Bsky.LikeCreatedAt rec) (Repomgr.Rkey op) cid)])
                         (follows (db w1)) (reposts (db w1)) (pdss (db w1))
                         (nextActorID (db w1)) (nextPostID (db w1))
                         (nextVoteID (db w1) + 1) (nextFollowID (db w1))
                         (nextRepostID (db w1))))).
  { apply (Consistent_like (db w1) post); [exact Hin|reflexivity|exact Hc1]. }
  destruct (fails (S (S (S (clock w1))))); simpl in Hrun;
    injection Hrun as <- <-; exact Hfin.
Qed.

Lemma runLikeOp_consistent (o : LikeOp) (w w' : World) (r : Res unit) :
  runLikeOp fails ParseAtUri ix o w = (r, w') ->
  (match o with LikeCreate _ _ _ => r = Ok tt | LikeDelete _ _ => True end
   \/ (forall n, fails n = false)) ->
  Consistent (db w) ->
  Consistent (db w').
Proof.
  destruct o as [rec evt op|evt op]; simpl; intros Hrun Hok Hc.
  - apply (handleRecordCreateFeedLike_consistent rec evt op w w' r Hrun Hok Hc).
  - apply (handleRecordDeleteFeedLike_consistent evt op w w' r Hrun Hc).
Qed.
End Conservation.

(** C1.  On a database whose statements execute and whose ids are
    consistent, if every post row carries the number of VoteRecord rows
    that refer to it, then the same holds after any sequence of like
    creates and like deletes (on any posts, by any voters, with any
    rkeys), for every post row. *)
Theorem up_count_conservation (ParseAtUri : string -> Res ParsedUri)
    (ix : Indexer) (ops : list LikeOp) (w : World) :
  HookKeepsLikes ix ->
  IdsIssued (db w) ->
  Conserved (db w) ->
  forall P : FeedPost.t,
    In P (posts (db (runLikeOps noFaults ParseAtUri ix ops w))) ->
    FeedPost.UpCount P
    = votesFor (FeedPost.ID P) (votes (db (runLikeOps noFaults ParseAtUri ix ops w))).
Proof.
  intros Hhook Hids Hcons.
  assert (Hc : Consistent (db w)) by (split; assumption).
  clear Hids Hcons. revert w Hc.
  induction ops as [|o rest IH]; intros w Hc.
  - simpl. apply Hc.
  - simpl. apply IH.
    destruct (runLikeOp noFaults ParseAtUri ix o w) as [r w1] eqn:Hrun. simpl.
    apply (runLikeOp_consistent noFaults ParseAtUri ix Hhook o w w1 r Hrun);
      [right; reflexivity|exact Hc].
Qed.

Lemma up_count_conservation_with_faults (fails : nat -> bool)
    (ParseAtUri : string -> Res ParsedUri) (ix : Indexer) (ops : list LikeOp)
    (w : World) :
  HookKeepsLikes ix ->
  CreatesSucceed fails ParseAtUri ix ops w ->
  Consistent (db w) ->
  Consistent (db (runLikeOps fails ParseAtUri ix ops w)).
Proof.
  intros Hhook Hs. induction Hs as [w|rec evt op rest w w' Hrun Hs IH|evt op rest w Hs IH];
    intros Hc; simpl.
  - exact Hc.
  - rewrite Hrun. simpl. apply IH.
    apply (handleRecordCreateFeedLike_consistent fails ParseAtUri ix Hhook rec evt op
             w w' (Ok tt) Hrun (or_introl eq_refl) Hc).
  - apply IH.
    destruct (handleRecordDeleteFeedLike fails evt op w) as [r w1] eqn:Hrun. simpl.
    apply (handleRecordDeleteFeedLike_consistent fails evt op w w1 r Hrun Hc).
Qed.

(** ** Scenarios of the specification on the sample data *)

(** S3, first half: bob likes alice's post.  One VoteRecord exists, the
    up-count of the post is 1 and one up-vote notification is recorded for
    alice, from bob, about the post. *)
Example S3_like_create :
  let out := HandleRepoEvent noFaults parseAtUri "2023-06-03T00:00:00Z" ix
               (evtBy 20 [likeCreateOp]) w0 in
  fst out = Ok tt
  /\ votes (db (snd out))
     = [VoteRecord.mk 1 20 1 "2023-06-01T00:00:00Z" "l1" "bafylike1"]
  /\ map FeedPost.UpCount (posts (db (snd out))) = [1]
  /\ notifs (snd out) = [AddUpVote 20 1 1 10].
Proof. vm_compute. repeat split; reflexivity. Qed.

(** S3, second half: bob deletes the like.  Called directly, the like
    delete handler removes the VoteRecord and brings the up-count back to 0;
    the event handler does not reach it for the collection
    [app.bsky.feed.like], and the row and the count stay. *)
Example S3_like_delete :
  let liked := snd (HandleRepoEvent noFaults parseAtUri "2023-06-03T00:00:00Z" ix
                      (evtBy 20 [likeCreateOp]) w0) in
  let direct := handleRecordDeleteFeedLike noFaults (evtBy 20 [likeDeleteOp])
                  likeDeleteOp liked in
  let handled := HandleRepoEvent noFaults parseAtUri "2023-06-03T00:00:01Z" ix
                   (evtBy 20 [likeDeleteOp]) liked in
  fst direct = Ok tt
  /\ votes (db (snd direct)) = []
  /\ map FeedPost.UpCount (posts (db (snd direct))) = [0]
  /\ fst handled = Ok tt
  /\ votes (db (snd handled)) = votes (db liked)
  /\ map FeedPost.UpCount (posts (db (snd handled))) = [1].
Proof. vm_compute. repeat split; reflexivity. Qed.

(** S4: bob follows an unknown DID.  The actor is created through the
    hook and sent to the crawler, and the FollowRecord points to it. *)
Example S4_follow_unknown_subject :
  let out := HandleRepoEvent noFaults parseAtUri "2023-06-03T00:00:00Z" ix
               (evtBy 20 [followOp]) w0 in
  fst out = Ok tt
  /\ map ActorInfo.Did (actors (db (snd out)))
     = ["did:plc:alice"; "did:plc:bob"; "did:plc:xavier"]
  /\ map ActorInfo.Did (crawlQueue (snd out)) = ["did:plc:xavier"]
  /\ follows (db (snd out)) = [FollowRecord.mk 1 20 21 "f1" "bafyfollow1"]
  /\ notifs (snd out) = [AddFollow 20 21 1].
Proof. vm_compute. repeat split; reflexivity. Qed.

(** ** The properties on the sample data *)

Lemma up_count_conservation_witness :
  HookKeepsLikes ix
  /\ IdsIssued (db w0)
  /\ Conserved (db w0)
  /\ In (FeedPost.mk 1 10 "p1" "bafypost1" 1 0 false false)
        (posts (db (runLikeOps noFaults parseAtUri ix likeOps w0)))
  /\ FeedPost.UpCount (FeedPost.mk 1 10 "p1" "bafypost1" 1 0 false false)
     = votesFor (FeedPost.ID (FeedPost.mk 1 10 "p1" "bafypost1" 1 0 false false))
         (votes (db (runLikeOps noFaults parseAtUri ix likeOps w0))).
Proof.
  assert (Hh : HookKeepsLikes ix) by (intros did w; reflexivity).
  assert (Hi : IdsIssued (db w0)).
  { unfold IdsIssued. simpl.
    split; [lia|]. split; [lia|].
    split; [intros p [<-|[]]; simpl; lia|].
    split; [intros v []|].
    split; [constructor|intros v []]. }
  assert (Hc : Conserved (db w0)) by (intros p [<-|[]]; reflexivity).
  assert (Hin : In (FeedPost.mk 1 10 "p1" "bafypost1" 1 0 false false)
                   (posts (db (runLikeOps noFaults parseAtUri ix likeOps w0))))
    by (vm_compute; left; reflexivity).
  split; [exact Hh|]. split; [exact Hi|]. split; [exact Hc|]. split; [exact Hin|].
  exact (up_count_conservation parseAtUri ix likeOps w0 Hh Hi Hc _ Hin).
Defined.

Lemma HandleRepoEvent_envelope_witness :
  let liked := evtBy 20 [likeCreateOp] in
  let w1 := snd (HandleRepoEvent noFaults parseAtUri "2023-06-03T00:00:00Z" ix liked w0) in
  let w2 := snd (HandleRepoEvent noFaults parseAtUri "2023-06-03T00:00:00Z" ix bigEvent w0) in
  (HandleRepoEvent noFaults parseAtUri "2023-06-03T00:00:00Z" ix liked w0 = (Ok tt, w1)
   /\ map RepoCommit (emitted w1)
      = [Comatproto.mkCommit "did:plc:bob" None (Some [1; 2; 3]) "rev1" None "bafyroot"
           "2023-06-03T00:00:00Z"
           (Some [Comatproto.mkRepoOp "app.bsky.feed.like/l1" "create" (Some "bafylike1")])
           false 0]
   /\ exists (pre : list XRPCStreamEvent) (c : Comatproto.SyncSubscribeRepos_Commit),
        emitted w1 = pre ++ [mkStreamEvent c (Repomgr.User liked)]
        /\ Comatproto.TooBig c
           = ((len (Repomgr.RepoSlice liked) >? 1000000)
              || (len (Repomgr.Ops liked) >? 200))
        /\ (exists a, actorByUid (Repomgr.User liked) (db w1) = Some a
                      /\ Comatproto.Repo c = ActorInfo.Did a)
        /\ Comatproto.Prev c = Repomgr.OldRoot liked
        /\ Comatproto.Rev c = Repomgr.Rev liked
        /\ Comatproto.Since c = Repomgr.Since liked
        /\ Comatproto.Commit c = Repomgr.NewRoot liked
        /\ (Comatproto.TooBig c = true ->
            Comatproto.Blocks c = None /\ Comatproto.Ops c = None)
        /\ (Comatproto.TooBig c = false ->
            Comatproto.Blocks c = Repomgr.RepoSlice liked
            /\ PassedThrough (elems (Repomgr.Ops liked)) (Comatproto.Ops c)))
  /\ (HandleRepoEvent noFaults parseAtUri "2023-06-03T00:00:00Z" ix bigEvent w0 = (Ok tt, w2)
      /\ map (fun e => (Comatproto.TooBig (RepoCommit e), Comatproto.Blocks (RepoCommit e),
                        Comatproto.Ops (RepoCommit e))) (emitted w2)
         = [(true, None, None)]
      /\ exists (pre : list XRPCStreamEvent) (c : Comatproto.SyncSubscribeRepos_Commit),
           emitted w2 = pre ++ [mkStreamEvent c (Repomgr.User bigEvent)]
           /\ Comatproto.TooBig c
              = ((len (Repomgr.RepoSlice bigEvent) >? 1000000)
                 || (len (Repomgr.Ops bigEvent) >? 200))
           /\ (exists a, actorByUid (Repomgr.User bigEvent) (db w2) = Some a
                         /\ Comatproto.Repo c = ActorInfo.Did a)
           /\ Comatproto.Prev c = Repomgr.OldRoot bigEvent
           /\ Comatproto.Rev c = Repomgr.Rev bigEvent
           /\ Comatproto.Since c = Repomgr.Since bigEvent
           /\ Comatproto.Commit c = Repomgr.NewRoot bigEvent
           /\ (Comatproto.TooBig c = true ->
               Comatproto.Blocks c = None /\ Comatproto.Ops c = None)
           /\ (Comatproto.TooBig c = false ->
               Comatproto.Blocks c = Repomgr.RepoSlice bigEvent
               /\ PassedThrough (elems (Repomgr.Ops bigEvent)) (Comatproto.Ops c))).
Proof.
  cbv zeta.
  assert (Hsmall : HandleRepoEvent noFaults parseAtUri "2023-06-03T00:00:00Z" ix
                     (evtBy 20 [likeCreateOp]) w0
                   = (Ok tt, snd (HandleRepoEvent noFaults parseAtUri "2023-06-03T00:00:00Z"
                                    ix (evtBy 20 [likeCreateOp]) w0)))
    by (vm_compute; reflexivity).
  assert (Hbig : HandleRepoEvent noFaults parseAtUri "2023-06-03T00:00:00Z" ix bigEvent w0
                 = (Ok tt, snd (HandleRepoEvent noFaults parseAtUri "2023-06-03T00:00:00Z"
                                  ix bigEvent w0)))
    by (vm_compute; reflexivity).
  split.
  - split; [exact Hsmall|]. split; [vm_compute; reflexivity|].
    exact (HandleRepoEvent_envelope noFaults parseAtUri "2023-06-03T00:00:00Z" ix
             (evtBy 20 [likeCreateOp]) w0 _ Hsmall).
  - split; [exact Hbig|]. split; [vm_compute; reflexivity|].
    exact (HandleRepoEvent_envelope noFaults parseAtUri "2023-06-03T00:00:00Z" ix bigEvent
             w0 _ Hbig).
Defined.

Lemma handleInitActor_self_follow_witness :
  let evt := evtBy 30 [initActorOp] in
  let w' := snd (handleInitActor noFaults evt initActorOp w0) in
  handleInitActor noFaults evt initActorOp w0 = (Ok tt, w')
  /\ follows (db w')
     = follows (db w0)
         ++ [FollowRecord.mk (nextFollowID (db w0)) (Repomgr.User evt)
               (Repomgr.User evt) "" ""]
  /\ exists (a : ActorInfo.t) (ai : Repomgr.ActorInfo),
       Repomgr.OpActorInfo initActorOp = Some ai
       /\ actorByUid (Repomgr.User evt) (db w') = Some a
       /\ ActorInfo.Did a = Repomgr.Did ai
       /\ ActorInfo.PDS a = Repomgr.PDS evt.
Proof.
  cbv zeta.
  assert (Hrun : handleInitActor noFaults (evtBy 30 [initActorOp]) initActorOp w0
                 = (Ok tt, snd (handleInitActor noFaults (evtBy 30 [initActorOp])
                                  initActorOp w0)))
    by reflexivity.
  split; [exact Hrun|].
  exact (handleInitActor_self_follow noFaults (evtBy 30 [initActorOp]) initActorOp w0 _ Hrun).
Defined.

Lemma duplicate_post_create_overwrites_witness :
  ReplyKnown parseAtUri replyPost (db w_two_posts) 1
  /\ MentionsKnown replyPost (db w_two_posts)
  /\ postByRkeyAndAuthor "p2" 20 (db w_two_posts) = Some post2
  /\ FeedPost.ID post2 <> 0
  /\ FeedPost.Missing post2 = false
  /\ UniqueKeys (posts (db w_two_posts))
  /\ exists w',
       handleRecordCreateFeedPost noFaults parseAtUri ix 20 "p2" "bafypost2b" replyPost
         w_two_posts
       = (Ok tt, w')
       /\ posts (db w') = map (overwritten 20 "p2" "bafypost2b" 1) (posts (db w_two_posts))
       /\ map FeedPost.ID (posts (db w')) = map FeedPost.ID (posts (db w_two_posts))
       /\ In (FeedPost.mk (FeedPost.ID post2) 20 "p2" "bafypost2b" 0 1 false false)
             (posts (db w'))
       /\ UniqueKeys (posts (db w')).
Proof.
  assert (H1 : ReplyKnown parseAtUri replyPost (db w_two_posts) 1).
  { unfold ReplyKnown. simpl.
    exists (Bsky.mkRef "at://did:plc:alice/app.bsky.feed.post/p1" "bafypost1").
    exists (Bsky.mkRef "at://did:plc:alice/app.bsky.feed.post/p1" "bafypost1").
    exists (mkParsedUri "did:plc:alice" "app.bsky.feed.post" "p1").
    exists (mkParsedUri "did:plc:alice" "app.bsky.feed.post" "p1").
    exists post1. exists post1.
    repeat (split; [reflexivity || discriminate|]). reflexivity. }
  assert (H2 : MentionsKnown replyPost (db w_two_posts)).
  { intros e [<-|[]] _. exists alice. split; [reflexivity|discriminate]. }
  assert (H3 : postByRkeyAndAuthor "p2" 20 (db w_two_posts) = Some post2) by reflexivity.
  assert (H4 : FeedPost.ID post2 <> 0) by discriminate.
  assert (H5 : FeedPost.Missing post2 = false) by reflexivity.
  assert (H6 : UniqueKeys (posts (db w_two_posts))).
  { unfold UniqueKeys. simpl.
    constructor; [intros [Heq|[]]; discriminate Heq|].
    constructor; [intros []|constructor]. }
  split; [exact H1|]. split; [exact H2|]. split; [exact H3|]. split; [exact H4|].
  split; [exact H5|]. split; [exact H6|].
  exact (duplicate_post_create_overwrites parseAtUri ix 20 "p2" "bafypost2b" replyPost
           w_two_posts post2 1 H1 H2 H3 H4 H5 H6).
Defined.

End IndexerFacts.

(* ================================================================== *)
(** * Properties of the crawl job *)
(* ================================================================== *)

Module FetchFacts.
Import IndexerFacts.

Lemma fetchCount_app (t t' : list Call) :
  fetchCount (t ++ t') = (fetchCount t + fetchCount t')%nat.
Proof. unfold fetchCount. rewrite filter_app, length_app. reflexivity. Qed.


Lemma replays_fetchCount (t : list Call) :
  Forall (fun c => isReplay c = true) t -> fetchCount t = 0%nat /\ importCount t = 0%nat.
Proof.
  induction 1 as [|c t Hc _ IH]; [split; reflexivity|].
  destruct c; try discriminate Hc. exact IH.
Qed.

Lemma ReplayTrace_replays (pds : PDS.t) (ai : ActorInfo.t) (js : list catchupJob)
    (hs : list Call) (resync : bool) :
  ReplayTrace pds ai js hs resync -> Forall (fun c => isReplay c = true) hs.
Proof.
  intros H. inversion H; subst.
  - apply Forall_forall. intros c Hc. apply in_map_iff in Hc.
    destruct Hc as (j & <- & _). reflexivity.
  - apply Forall_app. split.
    + apply Forall_forall. intros c Hc. apply in_map_iff in Hc.
      destruct Hc as (j' & <- & _). reflexivity.
    + repeat constructor.
Qed.

(** The fetch and import steps issue one fetch, or two when the import of
    the first reports a missing block; the first fetch asks for the
    changes since [rev], the second for the full repository. *)
Lemma PipelineTrace_fetches (pds : PDS.t) (ai : ActorInfo.t) (rev : string)
    (p : list Call) (r : Res unit) :
  PipelineTrace pds ai rev p r ->
  (exists res rest, p = fetchCall pds ai rev res ++ rest)
  /\ (fetchCount p = 1%nat
      \/ (fetchCount p = 2%nat
          /\ exists repo err res rest,
               p = fetchCall pds ai rev (Ok repo)
                     ++ [importCall ai repo (Some rev) (Some err)]
                     ++ fetchCall pds ai "" res ++ rest
               /\ ipldIsNotFound err = true)).
Proof.
  intros H.
  inversion H as [res Hres|repo0|repo0 err0 Hnf|repo0 err0 res Hnf Hres
                  |repo0 err0 repo1 result Hnf]; subst.
  - split; [exists res, []; rewrite app_nil_r; reflexivity|left; reflexivity].
  - split; [eexists; eexists; reflexivity|left; reflexivity].
  - split; [eexists; eexists; reflexivity|left; reflexivity].
  - split; [eexists; eexists; reflexivity|right].
    split; [reflexivity|]. exists repo0, err0, res, []. rewrite app_nil_r. split; trivial.
  - split; [eexists; eexists; reflexivity|right].
    split; [reflexivity|]. exists repo0, err0, (Ok repo1). eexists. split; [reflexivity|trivial].
Qed.



Section Job.
Variable fails : nat -> bool.
Variable RS : Type.
Variable repomgr_GetRepoRev : Uid -> RS -> Res string.
Variable repomgr_HandleExternalUserEvent :
Z -> Uid -> string -> option string -> string -> option (list Z) ->
option (list Comatproto.SyncSubscribeRepos_RepoOp) -> RS -> option error * RS.
Variable comatproto_SyncGetRepo :
PDS.t -> string -> string -> RS -> Res (list Z) * RS.
Variable repomgr_ImportNewRepo :
Uid -> string -> list Z -> option string -> RS -> option error * RS.

Let FW : Type := FetchWorld RS.
Let replay := replayCatchup RS repomgr_HandleExternalUserEvent.
Let pipeline := fetchAndImport RS comatproto_SyncGetRepo repomgr_ImportNewRepo.
Let run :=
FetchAndIndexRepo fails RS repomgr_GetRepoRev repomgr_HandleExternalUserEvent
  comatproto_SyncGetRepo repomgr_ImportNewRepo.

Lemma replayCatchup_trace (pds : PDS.t) (ai : ActorInfo.t) (js : list catchupJob) :
forall (s s' : FW) (r : Res bool),
  replay pds ai js s = (r, s') ->
  world s' = world s
  /\ exists hs resync,
       r = Ok resync /\ calls s' = calls s ++ hs /\ ReplayTrace pds ai js hs resync.
Proof.
unfold replay.
induction js as [|j rest IH]; intros s s' r Hrun.
- simpl in Hrun. injection Hrun as <- <-. split; [reflexivity|].
  exists [], false. rewrite app_nil_r. repeat split. apply (Replay_all pds ai []).
- simpl in Hrun. unfold HandleExternalUserEvent in Hrun.
  destruct (repomgr_HandleExternalUserEvent (PDS.ID pds) (ActorInfo.Uid ai)
              (ActorInfo.Did ai) (Comatproto.Since (evt j)) (Comatproto.Rev (evt j))
              (Comatproto.Blocks (evt j)) (Comatproto.Ops (evt j)) (repo s))
    as [[err|] rs'] eqn:Hh.
  + injection Hrun as <- <-. simpl. split; [reflexivity|].
    eexists. exists true. split; [reflexivity|]. split; [reflexivity|].
    apply (Replay_failed pds ai (j :: rest) [] j rest err). reflexivity.
  + apply IH in Hrun. simpl in Hrun.
    destruct Hrun as (Hw & hs & resync & -> & Hcalls & Htr).
    split; [exact Hw|].
    exists (replayCall pds ai j None :: hs), resync.
    split; [reflexivity|]. split.
    * rewrite Hcalls. rewrite <- app_assoc. reflexivity.
    * inversion Htr as [|done j' rest' err' Hjs]; subst.
      { apply (Replay_all pds ai (j :: rest)). }
      { apply (Replay_failed pds ai (j :: done ++ j' :: rest') (j :: done) j' rest' err').
        reflexivity. }
Qed.

Lemma fetchAndImport_trace (pds : PDS.t) (ai : ActorInfo.t) (rev : string)
  (s s' : FW) (r : Res unit) :
pipeline pds ai rev s = (r, s') ->
world s' = world s
/\ exists t, calls s' = calls s ++ t /\ PipelineTrace pds ai rev t r.
Proof.
unfold pipeline, fetchAndImport, fetchRepo, limiter_Wait, SyncGetRepo, ImportNewRepo,
  wrapErr, bind, modify. simpl.
destruct (comatproto_SyncGetRepo pds (ActorInfo.Did ai) rev (repo s))
  as [[bytes|e|m] rs1] eqn:Hf1; simpl.
2: { intros [= <- <-]. simpl. split; [reflexivity|]. eexists.
     rewrite <- app_assoc. split; [reflexivity|].
     apply (Pipeline_fetch_failed pds ai rev (Err e)). exact I. }
2: { intros [= <- <-]. simpl. split; [reflexivity|]. eexists.
     rewrite <- app_assoc. split; [reflexivity|].
     apply (Pipeline_fetch_failed pds ai rev (Panic m)). exact I. }
destruct (repomgr_ImportNewRepo (ActorInfo.Uid ai) (ActorInfo.Did ai) bytes
            (Some rev) rs1) as [[err|] rs2] eqn:Hi1; simpl.
2: { intros [= <- <-]. simpl. split; [reflexivity|]. eexists.
     rewrite <- !app_assoc. split; [reflexivity|].
     apply (Pipeline_imported pds ai rev bytes). }
destruct (ipldIsNotFound err) eqn:Hnf; simpl.
2: { intros [= <- <-]. simpl. split; [reflexivity|]. eexists.
     rewrite <- !app_assoc. split; [reflexivity|].
     apply (Pipeline_import_failed pds ai rev bytes err Hnf). }
destruct (comatproto_SyncGetRepo pds (ActorInfo.Did ai) "" rs2)
  as [[bytes'|e|m] rs3] eqn:Hf2; simpl.
2: { intros [= <- <-]. simpl. split; [reflexivity|]. eexists.
     rewrite <- !app_assoc. split; [reflexivity|].
     apply (Pipeline_retry_fetch_failed pds ai rev bytes err (Err e) Hnf). exact I. }
2: { intros [= <- <-]. simpl. split; [reflexivity|]. eexists.
     rewrite <- !app_assoc. split; [reflexivity|].
     apply (Pipeline_retry_fetch_failed pds ai rev bytes err (Panic m) Hnf). exact I. }
destruct (repomgr_ImportNewRepo (ActorInfo.Uid ai) (ActorInfo.Did ai) bytes'
            None rs3) as [[err'|] rs4] eqn:Hi2; simpl.
- intros [= <- <-]. simpl. split; [reflexivity|]. eexists.
  rewrite <- !app_assoc. split; [reflexivity|].
  apply (Pipeline_retry_imported pds ai rev bytes err bytes' (Some err') Hnf).
- intros [= <- <-]. simpl. split; [reflexivity|]. eexists.
  rewrite <- !app_assoc. split; [reflexivity|].
  apply (Pipeline_retry_imported pds ai rev bytes err bytes' None Hnf).
Qed.

(** The job, once the PDS row and the stored rev are loaded: the replay
  when the first buffered event links to the stored rev, then the fetch
  and import steps unless the replay went through. *)
Lemma FetchAndIndexRepo_trace (job : crawlWork) (s s' : FW) (r : Res unit)
  (pds : PDS.t) (rev : string) :
fails (clock (world s)) = false ->
find (fun p => PDS.ID p =? ActorInfo.PDS (act job)) (pdss (db (world s))) = Some pds ->
fst (storedRev RS repomgr_GetRepoRev (ActorInfo.Uid (act job)) s) = Ok rev ->
run job s = (r, s') ->
exists hs p resync,
  calls s' = calls s ++ hs ++ p
  /\ match negb (initScrape job), elems (catchup job) with
     | true, first :: _ =>
         if match Comatproto.Since (evt first) with
            | None => true
            | Some since => String.eqb rev since
            end
         then ReplayTrace pds (act job) (elems (catchup job)) hs resync
         else hs = [] /\ resync = true
     | _, _ => hs = [] /\ resync = true
     end
  /\ (if resync then PipelineTrace pds (act job) rev p r
      else p = [] /\ r = Ok tt).
Proof.
intros Hnf Hpds Hrev Hrun. unfold run, FetchAndIndexRepo in Hrun.
unfold bind at 1 in Hrun.
unfold wrapErr, onWorld, First, query, tick, bind at 1 2 3, gets, ret in Hrun.
simpl in Hrun. rewrite Hnf in Hrun. simpl in Hrun. rewrite Hpds in Hrun.
simpl in Hrun.
assert (Hstored : forall s0 : FW,
           repo s0 = repo s ->
           storedRev RS repomgr_GetRepoRev (ActorInfo.Uid (act job)) s0 = (Ok rev, s0)).
{ intros s0 Hr0. unfold storedRev, GetRepoRev in *. rewrite Hr0.
  destruct (repomgr_GetRepoRev (ActorInfo.Uid (act job)) (repo s)) as [x|e|m];
    simpl in Hrev |- *; try discriminate Hrev.
  - injection Hrev as ->. reflexivity.
  - destruct (negb (isNotFound e)); simpl in Hrev |- *;
      [discriminate Hrev|injection Hrev as <-; reflexivity]. }
rewrite Hstored in Hrun by reflexivity. clear Hstored.
assert (Hpipe : forall s0 : FW,
           calls s0 = calls s ->
           pipeline pds (act job) rev s0 = (r, s') ->
           exists p, calls s' = calls s ++ [] ++ p /\ PipelineTrace pds (act job) rev p r).
{ intros s0 Hc Hp. apply fetchAndImport_trace in Hp.
  destruct Hp as (_ & t & Ht & Htr). exists t. rewrite Ht, Hc. split; [reflexivity|exact Htr]. }
destruct (negb (initScrape job)); [destruct (elems (catchup job)) as [|first rest] eqn:Hcu|].
- apply Hpipe in Hrun; [|reflexivity]. destruct Hrun as (p & Hc & Htr).
  exists [], p, true. repeat split; assumption.
- destruct (match Comatproto.Since (evt first) with
            | None => true
            | Some since => String.eqb rev since
            end).
  + unfold bind at 1 in Hrun.
    match type of Hrun with
    | context [replayCatchup RS _ pds (act job) (first :: rest) ?s0] =>
        destruct (replayCatchup RS repomgr_HandleExternalUserEvent pds (act job)
                    (first :: rest) s0) as [rr s1] eqn:Hrep
    end.
    apply replayCatchup_trace in Hrep. simpl in Hrep.
    destruct Hrep as (_ & hs & resync & -> & Hc1 & Htr).
    destruct resync; simpl in Hrun.
    * apply fetchAndImport_trace in Hrun.
      destruct Hrun as (_ & t & Ht & Hpt).
      exists hs, t, true. rewrite Ht, Hc1, <- app_assoc. repeat split; assumption.
    * injection Hrun as <- <-.
      exists hs, [], false. rewrite Hc1, app_nil_r. repeat split; assumption.
  + apply Hpipe in Hrun; [|reflexivity]. destruct Hrun as (p & Hc & Htr).
    exists [], p, true. repeat split; assumption.
- apply Hpipe in Hrun; [|reflexivity]. destruct Hrun as (p & Hc & Htr).
  exists [], p, true. repeat split; assumption.
Qed.


(** C3, as amended.  A job with [initScrape = false] and a non-empty
  buffer, once its PDS row and stored rev are loaded.  When the first
  buffered event has no [since] or its [since] is the stored rev, the
  buffered events are replayed in order; if every replay succeeds the job
  returns nil and no fetch is issued.  When the first event's [since]
  differs from the stored rev, or a replay fails (the later events are
  then not replayed), the fetch and import steps follow: one
  [sync.getRepo] with [since = rev] and, only when the import of what it
  returned reports a missing block, a second one with an empty
  [since]. *)
Theorem FetchAndIndexRepo_catchup (job : crawlWork) (s s' : FW) (r : Res unit)
  (first : catchupJob) (rest : list catchupJob) (pds : PDS.t) (rev : string) :
initScrape job = false ->
catchup job = Some (first :: rest) ->
fails (clock (world s)) = false ->
find (fun p => PDS.ID p =? ActorInfo.PDS (act job)) (pdss (db (world s))) = Some pds ->
fst (storedRev RS repomgr_GetRepoRev (ActorInfo.Uid (act job)) s) = Ok rev ->
run job s = (r, s') ->
let linked := match Comatproto.Since (evt first) with
              | None => true
              | Some since => String.eqb rev since
              end in
exists hs p resync,
  calls s' = calls s ++ hs ++ p
  /\ (linked = true -> ReplayTrace pds (act job) (first :: rest) hs resync)
  /\ (linked = false -> hs = [] /\ resync = true)
  /\ (resync = false ->
      hs = map (fun j => replayCall pds (act job) j None) (first :: rest)
      /\ p = [] /\ r = Ok tt /\ fetchCount (hs ++ p) = 0%nat)
  /\ (resync = true ->
      PipelineTrace pds (act job) rev p r
      /\ (exists res rest', p = fetchCall pds (act job) rev res ++ rest')
      /\ (fetchCount (hs ++ p) = 1%nat
          \/ (fetchCount (hs ++ p) = 2%nat
              /\ exists repo err res rest',
                   p = fetchCall pds (act job) rev (Ok repo)
                         ++ [importCall (act job) repo (Some rev) (Some err)]
                         ++ fetchCall pds (act job) "" res ++ rest'
                   /\ ipldIsNotFound err = true))).
Proof.
intros Hinit Hcu Hnf Hpds Hrev Hrun linked.
destruct (FetchAndIndexRepo_trace job s s' r pds rev Hnf Hpds Hrev Hrun)
  as (hs & p & resync & Hc & Hh & Hp).
rewrite Hinit, Hcu in Hh. simpl in Hh. fold linked in Hh.
exists hs, p, resync. split; [exact Hc|].
assert (Hreplays : Forall (fun c => isReplay c = true) hs).
{ destruct linked; [apply (ReplayTrace_replays _ _ _ _ _ Hh)|].
  destruct Hh as [-> _]. constructor. }
apply replays_fetchCount in Hreplays. destruct Hreplays as [Hf0 _].
split; [|split; [|split]].
- intros Hl. rewrite Hl in Hh. exact Hh.
- intros Hl. rewrite Hl in Hh. exact Hh.
- intros ->. destruct Hp as [-> ->].
  split; [|split; [reflexivity|split; [reflexivity|]]].
  + destruct linked; [|destruct Hh as [_ Hh]; discriminate Hh].
    inversion Hh. reflexivity.
  + rewrite app_nil_r. exact Hf0.
- intros ->. split; [exact Hp|].
  destruct (PipelineTrace_fetches _ _ _ _ _ Hp) as [Hfirst Hcount].
  split; [exact Hfirst|].
  rewrite fetchCount_app, Hf0. exact Hcount.
Qed.

End Job.

(** ** Further runs on the sample data *)

(** The first buffered event is replayed, the replay of the second fails,
    and the fetch and import steps follow, with the rev that was read when
    the job started. *)
Example replay_failure_falls_back_to_fetch :
  let out := Sample.runJob Sample.job_broken Sample.job_state in
  map isReplay (calls (snd out)) = [true; true; false; false; false; false; false; false]
  /\ nth_error (calls (snd out)) 1
     = Some (CallHandleExternalUserEvent 1 10 "did:plc:alice" (Some "rX") "rY" None None
               (Some (Errorf "event does not follow the stored rev")))
  /\ nth_error (calls (snd out)) 3
     = Some (CallSyncGetRepo "pds.example.com" "did:plc:alice" "r0" (Ok [1; 2; 3]))
  /\ fst out = Ok tt.
Proof. vm_compute. repeat split; reflexivity. Qed.

(** When the second fetch fails, its error is returned and nothing is
    imported a second time. *)
Example retry_fetch_failure_is_returned :
  let out := FetchAndIndexRepo Sample.noFaults string Sample.storedRevOf
               Sample.applyEvent Sample.getDiffOnly Sample.importRepo
               Sample.job_s6 Sample.job_state in
  calls (snd out)
  = [ CallLimiterWait 1;
      CallSyncGetRepo "pds.example.com" "did:plc:alice" "r0" (Ok [1; 2; 3]);
      CallImportNewRepo 10 "did:plc:alice" [1; 2; 3] (Some "r0") (Some ErrIpldNotFound);
      CallLimiterWait 1;
      CallSyncGetRepo "pds.example.com" "did:plc:alice" ""
        (Err (ErrExternal "XRPC ERROR 502")) ]
  /\ fst out
     = Err (fetchError Sample.pds1 Sample.alice "" (ErrExternal "XRPC ERROR 502")).
Proof. vm_compute. repeat split; reflexivity. Qed.

(** ** The properties on the scenarios S5 and S6 *)

Lemma FetchAndIndexRepo_catchup_witness :
  let s' := snd (Sample.runJob Sample.job_s5 Sample.job_state) in
  let first := Sample.commitEvt "r0" "r1" in
  let rest := [Sample.commitEvt "r1" "r2"] in
  let linked := match Comatproto.Since (evt first) with
                | None => true
                | Some since => String.eqb "r0" since
                end in
  initScrape Sample.job_s5 = false
  /\ catchup Sample.job_s5 = Some (first :: rest)
  /\ Sample.noFaults (clock (world Sample.job_state)) = false
  /\ find (fun p => PDS.ID p =? ActorInfo.PDS (act Sample.job_s5))
          (pdss (db (world Sample.job_state))) = Some Sample.pds1
  /\ fst (storedRev string Sample.storedRevOf (ActorInfo.Uid (act Sample.job_s5))
            Sample.job_state) = Ok "r0"
  /\ Sample.runJob Sample.job_s5 Sample.job_state = (Ok tt, s')
  /\ exists hs p resync,
       calls s' = calls Sample.job_state ++ hs ++ p
       /\ (linked = true ->
           ReplayTrace Sample.pds1 (act Sample.job_s5) (first :: rest) hs resync)
       /\ (linked = false -> hs = [] /\ resync = true)
       /\ (resync = false ->
           hs = map (fun j => replayCall Sample.pds1 (act Sample.job_s5) j None)
                    (first :: rest)
           /\ p = [] /\ Ok tt = Ok tt /\ fetchCount (hs ++ p) = 0%nat)
       /\ (resync = true ->
           PipelineTrace Sample.pds1 (act Sample.job_s5) "r0" p (Ok tt)
           /\ (exists res rest', p = fetchCall Sample.pds1 (act Sample.job_s5) "r0" res ++ rest')
           /\ (fetchCount (hs ++ p) = 1%nat
               \/ (fetchCount (hs ++ p) = 2%nat
                   /\ exists repo err res rest',
                        p = fetchCall Sample.pds1 (act Sample.job_s5) "r0" (Ok repo)
                              ++ [importCall (act Sample.job_s5) repo (Some "r0") (Some err)]
                              ++ fetchCall Sample.pds1 (act Sample.job_s5) "" res ++ rest'
                        /\ ipldIsNotFound err = true))).
Proof.
  cbv zeta.
  assert (H1 : initScrape Sample.job_s5 = false) by reflexivity.
  assert (H2 : catchup Sample.job_s5
               = Some [Sample.commitEvt "r0" "r1"; Sample.commitEvt "r1" "r2"]) by reflexivity.
  assert (H3 : Sample.noFaults (clock (world Sample.job_state)) = false) by reflexivity.
  assert (H4 : find (fun p => PDS.ID p =? ActorInfo.PDS (act Sample.job_s5))
                    (pdss (db (world Sample.job_state))) = Some Sample.pds1) by reflexivity.
  assert (H5 : fst (storedRev string Sample.storedRevOf (ActorInfo.Uid (act Sample.job_s5))
                      Sample.job_state) = Ok "r0") by reflexivity.
  assert (H6 : Sample.runJob Sample.job_s5 Sample.job_state
               = (Ok tt, snd (Sample.runJob Sample.job_s5 Sample.job_state)))
    by (vm_compute; reflexivity).
  split; [exact H1|]. split; [exact H2|]. split; [exact H3|]. split; [exact H4|].
  split; [exact H5|]. split; [exact H6|].
  exact (FetchAndIndexRepo_catchup Sample.noFaults string Sample.storedRevOf
           Sample.applyEvent Sample.getRepo Sample.importRepo
           Sample.job_s5 Sample.job_state _ (Ok tt) _ _ Sample.pds1 "r0"
           H1 H2 H3 H4 H5 H6).
Defined.

(** C3 as stated fails on scenario S6.  The job has [initScrape = false]
    and one buffered event whose [since] is [rX] while the stored rev is
    [r0]; the import of what the first fetch returned reports a missing
    block, so a second fetch follows: two [sync.getRepo] calls, not
    one. *)
Lemma FetchAndIndexRepo_fetches_twice :
  let out := Sample.runJob Sample.job_s6 Sample.job_state in
  initScrape Sample.job_s6 = false
  /\ catchup Sample.job_s6 = Some [Sample.commitEvt "rX" "rY"]
  /\ Comatproto.Since (evt (Sample.commitEvt "rX" "rY")) = Some "rX"
  /\ fst (storedRev string Sample.storedRevOf (ActorInfo.Uid (act Sample.job_s6))
            Sample.job_state) = Ok "r0"
  /\ fst out = Ok tt
  /\ calls (snd out)
     = [ CallLimiterWait 1;
         CallSyncGetRepo "pds.example.com" "did:plc:alice" "r0" (Ok [1; 2; 3]);
         CallImportNewRepo 10 "did:plc:alice" [1; 2; 3] (Some "r0")
           (Some ErrIpldNotFound);
         CallLimiterWait 1;
         CallSyncGetRepo "pds.example.com" "did:plc:alice" "" (Ok [1; 2; 3]);
         CallImportNewRepo 10 "did:plc:alice" [1; 2; 3] None None ]
  /\ fetchCount (calls (snd out)) = 2%nat
  /\ fetchCount (calls (snd out)) <> 1%nat.
Proof. vm_compute. repeat split; try reflexivity. discriminate. Qed.


End FetchFacts.

(* ================================================================== *)
(** * Properties of the sync handlers: pages, cursors, served accounts *)
(* ================================================================== *)

Module StrconvFacts.

Lemma digitsValue_ge (d : Decimal.uint) : forall n, 0 <= n -> n <= digitsValue d n.
Proof.
  induction d; intros n Hn; cbn [digitsValue]; [lia|..];
    match goal with
    | |- _ <= digitsValue _ ?m => specialize (IHd m); lia
    end.
Qed.

Lemma digitsValue_acc (d : Decimal.uint) :
  forall acc, digitsValue d (Z.pos acc) = Z.pos (Pos.of_uint_acc d acc).
Proof.
  induction d; intros acc; cbn [digitsValue Pos.of_uint_acc]; [reflexivity|..];
    rewrite <- IHd; f_equal; lia.
Qed.

Lemma digitsValue_of_uint (d : Decimal.uint) :
  digitsValue d 0 = Z.of_N (Pos.of_uint d).
Proof.
  induction d; cbn [digitsValue Pos.of_uint]; try reflexivity; try exact IHd;
    cbn [Z.of_N]; rewrite <- digitsValue_acc; reflexivity.
Qed.

Lemma parseUintLoop_step (s0 rest : string) (c : ascii) (n k : Z) :
  isDigit c = true ->
  Z.of_nat (nat_of_ascii c) - 48 = k ->
  0 <= n -> 0 <= k <= 9 -> 10 * n + k <= maxUint64 ->
  parseUintLoop s0 (String c rest) n = parseUintLoop s0 rest (10 * n + k).
Proof.
  intros Hd Hk Hn Hk9 Hmax. cbn [parseUintLoop]. rewrite Hd, Hk.
  unfold maxUint64 in *.
  destruct (n >=? (2 ^ 64 - 1) / 10 + 1) eqn:H1.
  - exfalso. apply Z.geb_le in H1.
    change ((2 ^ 64 - 1) / 10 + 1) with 1844674407370955162 in H1. lia.
  - cbv zeta. destruct (n * 10 + k >? 2 ^ 64 - 1) eqn:H2.
    + exfalso. apply Z.gtb_lt in H2. lia.
    + f_equal. lia.
Qed.

Lemma parseUintLoop_digits (s0 : string) (d : Decimal.uint) :
  forall n, 0 <= n -> digitsValue d n <= maxUint64 ->
            parseUintLoop s0 (NilEmpty.string_of_uint d) n = Ok (digitsValue d n).
Proof.
  induction d; intros n Hn Hmax; [reflexivity|..];
    cbn [NilEmpty.string_of_uint digitsValue] in *;
    match type of Hmax with
    | digitsValue _ ?m <= _ =>
        pose proof (digitsValue_ge d m ltac:(lia)) as Hge;
        rewrite <- (IHd m ltac:(lia) Hmax)
    end.
  - rewrite (parseUintLoop_step s0 _ _ n 0); [f_equal; lia|reflexivity|reflexivity|lia|lia|lia].
  - apply parseUintLoop_step; [reflexivity|reflexivity|lia|lia|lia].
  - apply parseUintLoop_step; [reflexivity|reflexivity|lia|lia|lia].
  - apply parseUintLoop_step; [reflexivity|reflexivity|lia|lia|lia].
  - apply parseUintLoop_step; [reflexivity|reflexivity|lia|lia|lia].
  - apply parseUintLoop_step; [reflexivity|reflexivity|lia|lia|lia].
  - apply parseUintLoop_step; [reflexivity|reflexivity|lia|lia|lia].
  - apply parseUintLoop_step; [reflexivity|reflexivity|lia|lia|lia].
  - apply parseUintLoop_step; [reflexivity|reflexivity|lia|lia|lia].
  - apply parseUintLoop_step; [reflexivity|reflexivity|lia|lia|lia].
Qed.


Lemma string_of_uint_head (d : Decimal.uint) :
  d <> Decimal.Nil ->
  exists c rest,
    NilEmpty.string_of_uint d = String c rest
    /\ Ascii.eqb c "+" = false /\ Ascii.eqb c "-" = false.
Proof.
  intros Hd. destruct d; [contradiction|..]; eexists; eexists;
    (split; [reflexivity|split; reflexivity]).
Qed.

Lemma string_of_uint_nonnil (d : Decimal.uint) :
  d <> Decimal.Nil -> NilZero.string_of_uint d = NilEmpty.string_of_uint d.
Proof. destruct d; [contradiction|..]; reflexivity. Qed.

Lemma ParseUint10_positive (p : positive) :
  Z.pos p <= maxUint64 ->
  ParseUint10 (NilEmpty.string_of_uint (Pos.to_uint p)) = Ok (Z.pos p).
Proof.
  intros Hmax.
  assert (Hv : digitsValue (Pos.to_uint p) 0 = Z.pos p).
  { rewrite digitsValue_of_uint, DecimalPos.Unsigned.of_to. reflexivity. }
  destruct (string_of_uint_head (Pos.to_uint p) (Unsigned.to_uint_nonnil p))
    as (c & rest & Hs & _).
  unfold ParseUint10. rewrite Hs. rewrite <- Hs.
  rewrite parseUintLoop_digits; [rewrite Hv; reflexivity|lia|rewrite Hv; exact Hmax].
Qed.

Lemma wrap64_small (z : Z) : minInt64 <= z <= maxInt64 -> wrap64 z = z.
Proof.
  unfold minInt64, maxInt64, wrap64. intros H.
  rewrite Z.mod_small; lia.
Qed.

Lemma wrap64_range (z : Z) : minInt64 <= wrap64 z <= maxInt64.
Proof.
  unfold minInt64, maxInt64, wrap64.
  pose proof (Z.mod_pos_bound (z + 2 ^ 63) (2 ^ 64) ltac:(lia)). lia.
Qed.

(** [strconv.ParseInt] reads back what [strconv.FormatInt] wrote, for
    every [int64]. *)
Lemma ParseInt10_FormatInt10 (z : Z) :
  minInt64 <= z <= maxInt64 -> ParseInt10 (FormatInt10 z) = Ok z.
Proof.
  intros Hz. unfold FormatInt10. destruct z as [|p|p].
  - reflexivity.
  - cbn [Z.to_int NilZero.string_of_int].
    rewrite (string_of_uint_nonnil _ (Unsigned.to_uint_nonnil p)).
    destruct (string_of_uint_head (Pos.to_uint p) (Unsigned.to_uint_nonnil p))
      as (c & rest & Hs & Hplus & Hminus).
    pose proof (ParseUint10_positive p) as Hu. rewrite Hs in Hu |- *.
    unfold ParseInt10. rewrite Hplus, Hminus. cbn [orb].
    rewrite Hu by (unfold maxInt64, maxUint64 in *; lia).
    cbn [negb andb].
    destruct (Z.pos p >=? 2 ^ 63) eqn:Hc.
    + apply Z.geb_le in Hc. unfold maxInt64 in Hz. lia.
    + rewrite wrap64_small by exact Hz. reflexivity.
  - cbn [Z.to_int NilZero.string_of_int].
    rewrite (string_of_uint_nonnil _ (Unsigned.to_uint_nonnil p)).
    unfold ParseInt10. change (Ascii.eqb "-" "-") with true.
    change (Ascii.eqb "-" "+") with false. cbn [orb negb andb].
    rewrite ParseUint10_positive by (unfold minInt64, maxUint64 in *; lia).
    destruct (Z.pos p >? 2 ^ 63) eqn:Hc.
    + apply Z.gtb_lt in Hc. unfold minInt64 in Hz. lia.
    + change (- Z.pos p) with (Z.neg p). rewrite wrap64_small by exact Hz. reflexivity.
Qed.

(** [strconv.FormatInt] never writes the empty string. *)
Lemma FormatInt10_nonempty (z : Z) : FormatInt10 z <> "".
Proof.
  unfold FormatInt10. destruct z as [|p|p]; cbn [Z.to_int NilZero.string_of_int];
    try discriminate.
  rewrite (string_of_uint_nonnil _ (Unsigned.to_uint_nonnil p)).
  destruct (string_of_uint_head (Pos.to_uint p) (Unsigned.to_uint_nonnil p))
    as (c & rest & Hs & _).
  rewrite Hs. discriminate.
Qed.

End StrconvFacts.

Module SyncFacts.
Import Bgs StrconvFacts.

(** ** The page of [listRepos] *)

Lemma insertByID_In (x u : User) (l : list User) :
  In x (insertByID u l) <-> x = u \/ In x l.
Proof.
  induction l as [|v l IH]; simpl.
  - intuition congruence.
  - destruct (ID u <=? ID v); simpl; rewrite ?IH; intuition congruence.
Qed.

Lemma orderByID_In (x : User) (l : list User) : In x (orderByID l) <-> In x l.
Proof.
  unfold orderByID. induction l as [|v l IH]; simpl; [tauto|].
  rewrite insertByID_In, IH. intuition congruence.
Qed.

Lemma insertByID_sorted (u : User) (l : list User) :
  StronglySorted (fun a b => ID a <= ID b) l ->
  StronglySorted (fun a b => ID a <= ID b) (insertByID u l).
Proof.
  induction 1 as [|v l Hs IH Hall]; simpl.
  - repeat constructor.
  - destruct (ID u <=? ID v) eqn:Hle.
    + apply Z.leb_le in Hle. constructor; [constructor; assumption|].
      constructor; [exact Hle|].
      apply Forall_forall. intros x Hx.
      rewrite Forall_forall in Hall. specialize (Hall x Hx). lia.
    + apply Z.leb_gt in Hle. constructor; [exact IH|].
      apply Forall_forall. intros x Hx. apply insertByID_In in Hx.
      destruct Hx as [->|Hx]; [lia|].
      rewrite Forall_forall in Hall. exact (Hall x Hx).
Qed.

Lemma orderByID_sorted (l : list User) :
  StronglySorted (fun a b => ID a <= ID b) (orderByID l).
Proof.
  unfold orderByID. induction l as [|v l IH]; simpl; [constructor|].
  apply insertByID_sorted. exact IH.
Qed.

Lemma StronglySorted_firstn {A} (R : A -> A -> Prop) (l : list A) :
  StronglySorted R l -> forall n, StronglySorted R (firstn n l).
Proof.
  induction 1 as [|a l Hs IH Hall]; intros [|n]; simpl; try constructor.
  - apply IH.
  - apply Forall_forall. intros x Hx.
    rewrite Forall_forall in Hall. apply Hall.
    rewrite <- (firstn_skipn n l). apply in_or_app. left. exact Hx.
Qed.

Lemma StronglySorted_app_le {A} (R : A -> A -> Prop) (l1 l2 : list A) :
  StronglySorted R (l1 ++ l2) ->
  forall a b, In a l1 -> In b l2 -> R a b.
Proof.
  induction l1 as [|x l1 IH]; simpl; intros Hs a b Ha Hb; [contradiction|].
  apply StronglySorted_inv in Hs. destruct Hs as [Hs Hall].
  destruct Ha as [->|Ha].
  - rewrite Forall_forall in Hall. apply Hall. apply in_or_app. right. exact Hb.
  - exact (IH Hs a b Ha Hb).
Qed.

Lemma listReposQuery_In (s : BGS) (c limit : Z) (u : User) :
  In u (listReposQuery s c limit) ->
  In u (users s) /\ c < ID u /\ Tombstoned u = false /\ TakenDown u = false.
Proof.
  unfold listReposQuery, sqlLimit. intros Hin.
  assert (Hf : In u (filter (fun u => (c <? ID u) && negb (Tombstoned u)
                                      && negb (TakenDown u)) (users s))).
  { apply orderByID_In. destruct (limit <? 0); [exact Hin|].
    rewrite <- (firstn_skipn (Z.to_nat limit)). apply in_or_app. left. exact Hin. }
  apply filter_In in Hf. destruct Hf as [Hu Hb].
  apply andb_prop in Hb. destruct Hb as [Hb Htd].
  apply andb_prop in Hb. destruct Hb as [Hc Hts].
  apply Z.ltb_lt in Hc.
  destruct (Tombstoned u); [discriminate Hts|].
  destruct (TakenDown u); [discriminate Htd|].
  repeat split; assumption.
Qed.

Lemma listReposQuery_sorted (s : BGS) (c limit : Z) :
  StronglySorted (fun a b => ID a <= ID b) (listReposQuery s c limit).
Proof.
  unfold listReposQuery, sqlLimit.
  destruct (limit <? 0); [apply orderByID_sorted|].
  apply StronglySorted_firstn. apply orderByID_sorted.
Qed.

Lemma listReposQuery_length (s : BGS) (c limit : Z) :
  0 <= limit -> Z.of_nat (List.length (listReposQuery s c limit)) <= limit.
Proof.
  intros Hl. unfold listReposQuery, sqlLimit.
  destruct (limit <? 0) eqn:Hn; [apply Z.ltb_lt in Hn; lia|].
  pose proof (firstn_le_length (Z.to_nat limit)
                (orderByID (filter (fun u => (c <? ID u) && negb (Tombstoned u)
                                             && negb (TakenDown u)) (users s)))).
  lia.
Qed.

Lemma listReposQuery_no_skip (s : BGS) (c limit : Z) (u v : User) :
  In v (listReposQuery s c limit) ->
  In u (users s) -> Tombstoned u = false -> TakenDown u = false ->
  c < ID u < ID v ->
  In u (listReposQuery s c limit).
Proof.
  unfold listReposQuery, sqlLimit. intros Hv Hu Hts Htd Hid.
  set (live := filter (fun u => (c <? ID u) && negb (Tombstoned u)
                                && negb (TakenDown u)) (users s)) in *.
  assert (HuL : In u (orderByID live)).
  { apply orderByID_In. apply filter_In. split; [exact Hu|].
    rewrite Hts, Htd. simpl. rewrite !andb_true_r. apply Z.ltb_lt. lia. }
  destruct (limit <? 0); [exact HuL|].
  rewrite <- (firstn_skipn (Z.to_nat limit) (orderByID live)) in HuL.
  apply in_app_or in HuL. destruct HuL as [HuL|HuL]; [exact HuL|].
  exfalso.
  pose proof (orderByID_sorted live) as Hs.
  rewrite <- (firstn_skipn (Z.to_nat limit) (orderByID live)) in Hs.
  pose proof (StronglySorted_app_le _ _ _ Hs v u Hv HuL) as Hle. simpl in Hle. lia.
Qed.

Lemma listReposHeads_spec (s : BGS) (us : list User) :
  forall acc repos,
    listReposHeads s us acc = Ok repos ->
    exists tail,
      repos = acc ++ tail
      /\ Forall2 (fun u r => Repo_Did r = Did u
                             /\ repoman_GetRepoRoot s (ID u) = Ok (Repo_Head r))
                 us tail.
Proof.
  induction us as [|u us IH]; intros acc repos Hrun; simpl in Hrun.
  - injection Hrun as <-. exists []. rewrite app_nil_r. split; constructor.
  - destruct (repoman_GetRepoRoot s (ID u)) as [root|e|m] eqn:Hroot; try discriminate Hrun.
    apply IH in Hrun. destruct Hrun as (tail & -> & Hall).
    exists (mkRepo (Did u) root :: tail). rewrite <- app_assoc. split; [reflexivity|].
    constructor; [split; [reflexivity|exact Hroot]|exact Hall].
Qed.

(** What a successful call returned, in terms of the query. *)
Lemma listRepos_ok (s : BGS) (cursor : string) (limit : Z) (out : SyncListRepos_Output) :
  handleComAtprotoSyncListRepos s cursor limit = Ok out ->
  exists c,
    (if String.eqb cursor "" then Ok 0 else ParseInt10 cursor) = Ok c
    /\ (out = mkListReposOutput None None
        \/ exists repos,
             dbFault s = None
             /\ listReposQuery s c limit <> []
             /\ listReposHeads s (listReposQuery s c limit) [] = Ok repos
             /\ out = mkListReposOutput
                        (Some (FormatInt10
                                 (wrap64 (c + Z.of_nat (List.length (listReposQuery s c limit))))))
                        (Some repos)).
Proof.
  unfold handleComAtprotoSyncListRepos. intros Hrun.
  destruct (String.eqb cursor "").
  - exists 0. split; [reflexivity|].
    destruct (dbFault s) as [e|].
    + destruct e; try discriminate Hrun. injection Hrun as <-. left. reflexivity.
    + destruct (listReposQuery s 0 limit) as [|u us] eqn:Hq.
      * injection Hrun as <-. left. reflexivity.
      * destruct (listReposHeads s (u :: us) []) as [repos|e|m] eqn:Hh;
          try discriminate Hrun.
        injection Hrun as <-. right. exists repos.
        repeat split. discriminate.
  - destruct (ParseInt10 cursor) as [c|e|m]; try discriminate Hrun.
    exists c. split; [reflexivity|].
    destruct (dbFault s) as [e|].
    + destruct e; try discriminate Hrun. injection Hrun as <-. left. reflexivity.
    + destruct (listReposQuery s c limit) as [|u us] eqn:Hq.
      * injection Hrun as <-. left. reflexivity.
      * destruct (listReposHeads s (u :: us) []) as [repos|e|m] eqn:Hh;
          try discriminate Hrun.
        injection Hrun as <-. right. exists repos.
        repeat split. discriminate.
Qed.

(** X1.  The page of [listRepos]: the repos returned are, one for one and in
    ascending order of user id, users that are neither tombstoned nor
    taken down and whose id is above the cursor, each with the head that
    the repository manager gives for it; a positive limit bounds
    their number. *)
Theorem listRepos_page (s : BGS) (cursor : string) (limit : Z)
    (out : SyncListRepos_Output) (repos : list SyncListRepos_Repo) :
  handleComAtprotoSyncListRepos s cursor limit = Ok out ->
  Repos out = Some repos ->
  exists (c : Z) (page : list User),
    (if String.eqb cursor "" then Ok 0 else ParseInt10 cursor) = Ok c
    /\ Forall2 (fun u r => Repo_Did r = Did u
                           /\ repoman_GetRepoRoot s (ID u) = Ok (Repo_Head r))
               page repos
    /\ (forall u, In u page ->
                  In u (users s) /\ c < ID u
                  /\ Tombstoned u = false /\ TakenDown u = false)
    /\ StronglySorted (fun a b => ID a <= ID b) page
    /\ (0 < limit -> Z.of_nat (List.length repos) <= limit).
Proof.
  intros Hrun Hrepos.
  destruct (listRepos_ok s cursor limit out Hrun) as (c & Hc & [->|(rs & _ & _ & Hh & ->)]);
    [discriminate Hrepos|].
  injection Hrepos as ->.
  apply listReposHeads_spec in Hh. destruct Hh as (tail & Ht & Hall). simpl in Ht. subst tail.
  exists c, (listReposQuery s c limit).
  split; [exact Hc|]. split; [exact Hall|].
  split; [intros u; apply listReposQuery_In|].
  split; [apply listReposQuery_sorted|].
  intros Hl. rewrite <- (Forall2_length Hall). apply listReposQuery_length. lia.
Qed.

(** X2.  A page skips no one: a user that is neither tombstoned nor taken down
    and whose id lies between the cursor and the id of a user of the page
    is on the page. *)
Theorem listRepos_no_skip (s : BGS) (cursor : string) (limit c : Z)
    (out : SyncListRepos_Output) (repos : list SyncListRepos_Repo) (u v : User) :
  (if String.eqb cursor "" then Ok 0 else ParseInt10 cursor) = Ok c ->
  handleComAtprotoSyncListRepos s cursor limit = Ok out ->
  Repos out = Some repos ->
  In u (users s) -> Tombstoned u = false -> TakenDown u = false ->
  In v (users s) -> In (Did v) (map Repo_Did repos) ->
  (forall w, In w (users s) -> Did w = Did v -> w = v) ->
  c < ID u < ID v ->
  In (Did u) (map Repo_Did repos).
Proof.
  intros Hc Hrun Hrepos Hu Hts Htd Hv Hvr Huniq Hid.
  destruct (listRepos_ok s cursor limit out Hrun) as (c' & Hc' & [->|(rs & _ & _ & Hh & ->)]);
    [discriminate Hrepos|].
  rewrite Hc in Hc'. injection Hc' as <-.
  injection Hrepos as ->.
  apply listReposHeads_spec in Hh. destruct Hh as (tail & Ht & Hall). simpl in Ht. subst tail.
  assert (Hdids : map Repo_Did repos = map Did (listReposQuery s c limit)).
  { clear -Hall. induction Hall as [|x r xs rs [Hd _] _ IH]; simpl; [reflexivity|].
    rewrite Hd, IH. reflexivity. }
  rewrite Hdids in Hvr |- *.
  apply in_map_iff in Hvr. destruct Hvr as (v' & Hdv & Hv').
  assert (v' = v).
  { apply Huniq; [apply (listReposQuery_In s c limit v' Hv')|exact Hdv]. }
  subst v'.
  apply in_map. apply (listReposQuery_no_skip s c limit u v); assumption.
Qed.

(** X3.  The cursor of a page is never empty and reads back, as a base-10
    [int64], to the incoming cursor plus the length of the page: the next
    call does not reject it. *)
Theorem listRepos_cursor_accepted (s : BGS) (cursor : string) (limit : Z)
    (out : SyncListRepos_Output) (cur : string) :
  handleComAtprotoSyncListRepos s cursor limit = Ok out ->
  Cursor out = Some cur ->
  cur <> ""
  /\ exists c : Z,
       (if String.eqb cursor "" then Ok 0 else ParseInt10 cursor) = Ok c
       /\ ParseInt10 cur
          = Ok (wrap64 (c + Z.of_nat (List.length (listReposQuery s c limit)))).
Proof.
  intros Hrun Hcur.
  destruct (listRepos_ok s cursor limit out Hrun) as (c & Hc & [->|(rs & Hdb & _ & Hh & ->)]);
    [discriminate Hcur|].
  injection Hcur as <-.
  split; [apply FormatInt10_nonempty|].
  exists c. split; [exact Hc|].
  apply ParseInt10_FormatInt10. apply wrap64_range.
Qed.

(** ** Accounts that are served *)

Section Served.
Variable cid_Decode : string -> Res Cid.
Variable MarshalCBOR : list Z -> Res (list Z).

Lemma lookupLiveUser_ok (s : BGS) (did : string) (u : User) :
  lookupLiveUser s did = Ok u ->
  lookupUserByDid s did = Ok u /\ Tombstoned u = false /\ TakenDown u = false.
Proof.
  unfold lookupLiveUser.
  destruct (lookupUserByDid s did) as [u'|e|m]; try discriminate.
  - destruct (Tombstoned u') eqn:Hts; [discriminate|].
    destruct (TakenDown u') eqn:Htd; [discriminate|].
    intros [= ->]. repeat split; assumption.
  - destruct (isRecordNotFound e); discriminate.
Qed.

(** X4.  The repository, a record or the latest commit of a DID is only
    served when the lookup of the DID gives a user that is neither
    tombstoned nor taken down; what is served is what the repository
    manager holds under the id of that user. *)
Theorem sync_serves_live_accounts_only (s : BGS) (did : string) :
  (exists since buf, handleComAtprotoSyncGetRepo s did since = Ok buf)
  \/ (exists collection commit rkey buf,
         handleComAtprotoSyncGetRecord cid_Decode MarshalCBOR s collection commit did rkey
         = Ok buf)
  \/ (exists out, handleComAtprotoSyncGetLatestCommit s did = Ok out) ->
  exists u,
    lookupUserByDid s did = Ok u /\ Tombstoned u = false /\ TakenDown u = false
    /\ (forall since buf, handleComAtprotoSyncGetRepo s did since = Ok buf ->
                          repoman_ReadRepo s (ID u) since = Ok buf)
    /\ (forall out, handleComAtprotoSyncGetLatestCommit s did = Ok out ->
                    repoman_GetRepoRoot s (ID u) = Ok (Commit_Cid out)
                    /\ repoman_GetRepoRev s (ID u) = Ok (Commit_Rev out)).
Proof.
  intros Hserved.
  assert (Hlive : exists u, lookupLiveUser s did = Ok u).
  { destruct Hserved as [(since & buf & H)|[(collection & commit & rkey & buf & H)|(out & H)]].
    - unfold handleComAtprotoSyncGetRepo in H.
      destruct (lookupLiveUser s did) as [u|e|m]; try discriminate H. exists u. reflexivity.
    - unfold handleComAtprotoSyncGetRecord in H.
      destruct (lookupLiveUser s did) as [u|e|m]; try discriminate H. exists u. reflexivity.
    - unfold handleComAtprotoSyncGetLatestCommit in H.
      destruct (lookupLiveUser s did) as [u|e|m]; try discriminate H. exists u. reflexivity. }
  destruct Hlive as (u & Hlive).
  destruct (lookupLiveUser_ok s did u Hlive) as (Hl & Hts & Htd).
  exists u. split; [exact Hl|]. split; [exact Hts|]. split; [exact Htd|]. split.
  - intros since buf H. unfold handleComAtprotoSyncGetRepo in H. rewrite Hlive in H.
    destruct (repoman_ReadRepo s (ID u) since); try discriminate H. exact H.
  - intros out H. unfold handleComAtprotoSyncGetLatestCommit in H. rewrite Hlive in H.
    destruct (repoman_GetRepoRoot s (ID u)) as [root|e|m]; try discriminate H.
    destruct (repoman_GetRepoRev s (ID u)) as [rev|e|m]; try discriminate H.
    injection H as <-. split; reflexivity.
Qed.
End Served.

(** ** Crawl requests *)

Section Crawl.
Variable NormalizeHostname : string -> Res string.

(** X5.  A crawl request is accepted exactly when the hostname is not empty,
    carries no scheme, normalizes, is not banned (as given), the host
    answers [describeServer] (asked over https when the server runs with
    ssl, over http otherwise) and the slurper takes the subscription to
    the normalized hostname.  An error of the ban lookup does not stop
    the request. *)
Theorem requestCrawl_accepts_iff (s : BGS) (host : string) :
  handleComAtprotoSyncRequestCrawl NormalizeHostname s host = Ok tt
  <-> host <> ""
      /\ HasPrefix host "https://" = false
      /\ HasPrefix host "http://" = false
      /\ exists norm,
           NormalizeHostname host = Ok norm
           /\ fst (domainIsBanned s host) = false
           /\ ServerDescribeServer s
                ((if ssl s then "https://" else "http://") ++ host)%string = None
           /\ slurper_SubscribeToPds s norm true = None.
Proof.
  unfold handleComAtprotoSyncRequestCrawl. split.
  - intros H.
    destruct (String.eqb host "") eqn:He; [discriminate H|].
    apply String.eqb_neq in He.
    destruct (HasPrefix host "https://") eqn:H1; [discriminate H|].
    destruct (HasPrefix host "http://") eqn:H2; [discriminate H|].
    simpl in H.
    destruct (NormalizeHostname host) as [norm|e|m]; try discriminate H.
    destruct (domainIsBanned s host) as [banned berr]. simpl.
    destruct banned; [discriminate H|].
    split; [exact He|]. split; [reflexivity|]. split; [reflexivity|].
    exists norm. split; [reflexivity|]. split; [reflexivity|].
    destruct (ssl s); simpl in H |- *;
      match type of H with
      | context [ServerDescribeServer s ?h] =>
          destruct (ServerDescribeServer s h); [discriminate H|]
      end;
      (split; [reflexivity|]);
      (destruct (slurper_SubscribeToPds s norm true); [discriminate H|reflexivity]).
  - intros (He & H1 & H2 & norm & Hn & Hb & Hd & Hs).
    apply String.eqb_neq in He. rewrite He, H1, H2, Hn. simpl.
    destruct (domainIsBanned s host) as [banned berr]. simpl in Hb. subst banned.
    destruct (ssl s); simpl in Hd |- *; rewrite Hd, Hs; reflexivity.
Qed.
End Crawl.

(** ** The properties on scenario S1 *)

Lemma listRepos_page_witness :
  let s := Sample.bgs Sample.s1_users in
  let repos := [mkRepo "did:plc:u4" "bafyhead4"; mkRepo "did:plc:u5" "bafyhead5"] in
  let out := mkListReposOutput (Some "4") (Some repos) in
  handleComAtprotoSyncListRepos s "2" 2 = Ok out
  /\ Repos out = Some repos
  /\ exists (c : Z) (page : list User),
       (if String.eqb "2" "" then Ok 0 else ParseInt10 "2") = Ok c
       /\ Forall2 (fun u r => Repo_Did r = Did u
                              /\ repoman_GetRepoRoot s (ID u) = Ok (Repo_Head r))
                  page repos
       /\ (forall u, In u page ->
                     In u (users s) /\ c < ID u
                     /\ Tombstoned u = false /\ TakenDown u = false)
       /\ StronglySorted (fun a b => ID a <= ID b) page
       /\ (0 < 2 -> Z.of_nat (List.length repos) <= 2).
Proof.
  cbv zeta.
  assert (Hrun : handleComAtprotoSyncListRepos (Sample.bgs Sample.s1_users) "2" 2
                 = Ok (mkListReposOutput (Some "4")
                         (Some [mkRepo "did:plc:u4" "bafyhead4";
                                mkRepo "did:plc:u5" "bafyhead5"])))
    by (vm_compute; reflexivity).
  split; [exact Hrun|]. split; [reflexivity|].
  exact (listRepos_page (Sample.bgs Sample.s1_users) "2" 2 _ _ Hrun eq_refl).
Defined.

Lemma listRepos_no_skip_witness :
  let s := Sample.bgs Sample.s1_users in
  let repos := [mkRepo "did:plc:u4" "bafyhead4"; mkRepo "did:plc:u5" "bafyhead5"] in
  let out := mkListReposOutput (Some "4") (Some repos) in
  let u := mkUser 4 "did:plc:u4" false false in
  let v := mkUser 5 "did:plc:u5" false false in
  (if String.eqb "2" "" then Ok 0 else ParseInt10 "2") = Ok 2
  /\ handleComAtprotoSyncListRepos s "2" 2 = Ok out
  /\ Repos out = Some repos
  /\ In u (users s) /\ Tombstoned u = false /\ TakenDown u = false
  /\ In v (users s) /\ In (Did v) (map Repo_Did repos)
  /\ (forall w, In w (users s) -> Did w = Did v -> w = v)
  /\ 2 < ID u < ID v
  /\ In (Did u) (map Repo_Did repos).
Proof.
  cbv zeta.
  assert (Hc : (if String.eqb "2" "" then Ok 0 else ParseInt10 "2") = Ok 2)
    by (vm_compute; reflexivity).
  assert (Hrun : handleComAtprotoSyncListRepos (Sample.bgs Sample.s1_users) "2" 2
                 = Ok (mkListReposOutput (Some "4")
                         (Some [mkRepo "did:plc:u4" "bafyhead4";
                                mkRepo "did:plc:u5" "bafyhead5"])))
    by (vm_compute; reflexivity).
  assert (Hu : In (mkUser 4 "did:plc:u4" false false) (users (Sample.bgs Sample.s1_users)))
    by (simpl; tauto).
  assert (Hv : In (mkUser 5 "did:plc:u5" false false) (users (Sample.bgs Sample.s1_users)))
    by (simpl; tauto).
  assert (Hvr : In (Did (mkUser 5 "did:plc:u5" false false))
                   (map Repo_Did [mkRepo "did:plc:u4" "bafyhead4";
                                  mkRepo "did:plc:u5" "bafyhead5"]))
    by (simpl; tauto).
  assert (Huniq : forall w, In w (users (Sample.bgs Sample.s1_users)) ->
                            Did w = Did (mkUser 5 "did:plc:u5" false false) ->
                            w = mkUser 5 "did:plc:u5" false false).
  { intros w [<-|[<-|[<-|[<-|[<-|[]]]]]]; simpl; intros Hd;
      try discriminate Hd; reflexivity. }
  assert (Hid : 2 < ID (mkUser 4 "did:plc:u4" false false)
                < ID (mkUser 5 "did:plc:u5" false false)) by (simpl; lia).
  split; [exact Hc|]. split; [exact Hrun|]. split; [reflexivity|].
  split; [exact Hu|]. split; [reflexivity|]. split; [reflexivity|].
  split; [exact Hv|]. split; [exact Hvr|]. split; [exact Huniq|]. split; [exact Hid|].
  exact (listRepos_no_skip (Sample.bgs Sample.s1_users) "2" 2 2 _ _ _ _
           Hc Hrun eq_refl Hu eq_refl eq_refl Hv Hvr Huniq Hid).
Defined.

Lemma listRepos_cursor_accepted_witness :
  let s := Sample.bgs Sample.s1_users in
  let out := mkListReposOutput (Some "4")
               (Some [mkRepo "did:plc:u4" "bafyhead4"; mkRepo "did:plc:u5" "bafyhead5"]) in
  handleComAtprotoSyncListRepos s "2" 2 = Ok out
  /\ Cursor out = Some "4"
  /\ "4" <> ""
  /\ exists c : Z,
       (if String.eqb "2" "" then Ok 0 else ParseInt10 "2") = Ok c
       /\ ParseInt10 "4"
          = Ok (wrap64 (c + Z.of_nat (List.length (listReposQuery s c 2)))).
Proof.
  cbv zeta.
  assert (Hrun : handleComAtprotoSyncListRepos (Sample.bgs Sample.s1_users) "2" 2
                 = Ok (mkListReposOutput (Some "4")
                         (Some [mkRepo "did:plc:u4" "bafyhead4";
                                mkRepo "did:plc:u5" "bafyhead5"])))
    by (vm_compute; reflexivity).
  split; [exact Hrun|]. split; [reflexivity|].
  exact (listRepos_cursor_accepted (Sample.bgs Sample.s1_users) "2" 2 _ "4" Hrun eq_refl).
Defined.

Lemma sync_serves_live_accounts_only_witness :
  let s := Sample.bgs Sample.s1_users in
  ((exists since buf, handleComAtprotoSyncGetRepo s "did:plc:u1" since = Ok buf)
   \/ (exists collection commit rkey buf,
          handleComAtprotoSyncGetRecord Sample.cid_Decode Sample.MarshalCBOR s
            collection commit "did:plc:u1" rkey = Ok buf)
   \/ (exists out, handleComAtprotoSyncGetLatestCommit s "did:plc:u1" = Ok out))
  /\ exists u,
       lookupUserByDid s "did:plc:u1" = Ok u
       /\ Tombstoned u = false /\ TakenDown u = false
       /\ (forall since buf, handleComAtprotoSyncGetRepo s "did:plc:u1" since = Ok buf ->
                             repoman_ReadRepo s (ID u) since = Ok buf)
       /\ (forall out, handleComAtprotoSyncGetLatestCommit s "did:plc:u1" = Ok out ->
                       repoman_GetRepoRoot s (ID u) = Ok (Commit_Cid out)
                       /\ repoman_GetRepoRev s (ID u) = Ok (Commit_Rev out)).
Proof.
  cbv zeta.
  assert (H : (exists since buf,
                  handleComAtprotoSyncGetRepo (Sample.bgs Sample.s1_users) "did:plc:u1" since
                  = Ok buf)
              \/ (exists collection commit rkey buf,
                     handleComAtprotoSyncGetRecord Sample.cid_Decode Sample.MarshalCBOR
                       (Sample.bgs Sample.s1_users) collection commit "did:plc:u1" rkey
                     = Ok buf)
              \/ (exists out,
                     handleComAtprotoSyncGetLatestCommit (Sample.bgs Sample.s1_users)
                       "did:plc:u1" = Ok out)).
  { left. exists "", []. reflexivity. }
  split; [exact H|].
  exact (sync_serves_live_accounts_only Sample.cid_Decode Sample.MarshalCBOR
           (Sample.bgs Sample.s1_users) "did:plc:u1" H).
Defined.

Lemma requestCrawl_accepts_iff_witness :
  handleComAtprotoSyncRequestCrawl Sample.NormalizeHostname
    (Sample.bgs Sample.s1_users) "pds.example.com" = Ok tt.
Proof.
  apply (proj2 (requestCrawl_accepts_iff Sample.NormalizeHostname
                  (Sample.bgs Sample.s1_users) "pds.example.com")).
  split; [discriminate|]. split; [reflexivity|]. split; [reflexivity|].
  exists "pds.example.com". repeat split.
Defined.

End SyncFacts.

(* ================================================================== *)
(** * Properties of the firehose *)
(* ================================================================== *)

Module FirehoseFacts.

Lemma Silent_ret {A} (a : A) : Silent (ret a).
Proof. intros w. reflexivity. Qed.

Lemma Silent_fail {A} (e : error) : Silent (@fail World A e).
Proof. intros w. reflexivity. Qed.

Lemma Silent_panic {A} (s : string) : Silent (@panic World A s).
Proof. intros w. reflexivity. Qed.

Lemma Silent_gets {A} (f : World -> A) : Silent (gets f).
Proof. intros w. reflexivity. Qed.

Lemma Silent_modify (f : World -> World) :
  (forall w, emitted (f w) = emitted w) -> Silent (modify f).
Proof. intros H w. apply H. Qed.

Lemma Silent_deref {A} (p : option A) : Silent (deref p).
Proof. destruct p; intros w; reflexivity. Qed.

Lemma Silent_bind {A B} (m : M A) (k : A -> M B) :
  Silent m -> (forall a, Silent (k a)) -> Silent (bind m k).
Proof.
  intros Hm Hk w. unfold bind. specialize (Hm w).
  destruct (m w) as [[a|e|s] w1]; simpl in *; [|exact Hm|exact Hm].
  rewrite (Hk a w1). exact Hm.
Qed.

Lemma Silent_wrapErr {A} (prefix : string) (m : M A) :
  Silent m -> Silent (wrapErr prefix m).
Proof.
  intros Hm w. unfold wrapErr. specialize (Hm w).
  destruct (m w) as [[a|e|s] w1]; exact Hm.
Qed.

Lemma Silent_logged {A} (m : M A) : Silent m -> Silent (logged m).
Proof.
  intros Hm w. unfold logged. specialize (Hm w).
  destruct (m w) as [[a|e|s] w1]; exact Hm.
Qed.

Section Statements.
Variable fails : nat -> bool.
Variable ParseAtUri : string -> Res ParsedUri.

Lemma Silent_tick : Silent (tick fails).
Proof. intros w. unfold tick. destruct (fails (clock w)); reflexivity. Qed.

Lemma Silent_Transaction {A} (body : M A) :
  Silent body -> Silent (Transaction fails body).
Proof.
  intros Hb w. unfold Transaction.
  pose proof (Silent_tick w) as Ht.
  destruct (tick fails w) as [[u|e|s] w1]; simpl in Ht; [|exact Ht|exact Ht].
  specialize (Hb w1).
  destruct (body w1) as [[a|e|s] w2]; simpl in *; try (rewrite Hb; exact Ht).
  pose proof (Silent_tick w2) as Ht2.
  destruct (tick fails w2) as [[u2|e|s] w3]; simpl in *; congruence.
Qed.

Lemma Silent_parseUri (uri : string) : Silent (parseUri ParseAtUri uri).
Proof. intros w. reflexivity. Qed.

End Statements.

Create HintDb silent.

(** Proves [Silent m] for a handler built from the statements by [bind],
    conditionals and matches. *)
Ltac silent :=
  repeat first
    [ progress intros
    | progress cbv beta zeta
    | apply Silent_ret | apply Silent_fail | apply Silent_panic | apply Silent_gets
    | apply Silent_deref | apply Silent_tick | apply Silent_parseUri
    | apply Silent_modify; intros; reflexivity
    | apply Silent_Transaction
    | solve [eauto with silent]
    | apply Silent_bind | apply Silent_wrapErr | apply Silent_logged
    | match goal with
      | |- Silent (if ?b then _ else _) => destruct b
      | |- Silent (match ?x with _ => _ end) => destruct x
      end ].

Lemma Silent_query {A} (fails : nat -> bool) (f : DB -> A) :
  Silent (query fails f).
Proof. unfold query. silent. Qed.
#[local] Hint Resolve Silent_query : silent.

Lemma Silent_exec (fails : nat -> bool) (f : DB -> DB) :
  Silent (exec fails f).
Proof. unfold exec. silent. Qed.
#[local] Hint Resolve Silent_exec : silent.

Lemma Silent_First {A} (fails : nat -> bool) (f : DB -> option A) :
  Silent (First fails f).
Proof. unfold First. silent. Qed.
#[local] Hint Resolve Silent_First : silent.

Lemma Silent_Find {A} (fails : nat -> bool) (zero : A) (f : DB -> option A) :
  Silent (Find fails zero f).
Proof. unfold Find. silent. Qed.
#[local] Hint Resolve Silent_Find : silent.

Lemma Silent_notify (fails : nat -> bool) (n : Notification) :
  Silent (notify fails n).
Proof. unfold notify. silent. Qed.
#[local] Hint Resolve Silent_notify : silent.

Lemma Silent_Crawler_Crawl (fails : nat -> bool) (ai : ActorInfo.t) :
  Silent (Crawler_Crawl fails ai).
Proof. unfold Crawler_Crawl. silent. Qed.
#[local] Hint Resolve Silent_Crawler_Crawl : silent.

Lemma Silent_CreatePost (fails : nat -> bool) (fp : FeedPost.t) :
  Silent (CreatePost fails fp).
Proof. unfold CreatePost. silent. Qed.
#[local] Hint Resolve Silent_CreatePost : silent.

Lemma Silent_UpsertPost (fails : nat -> bool) (fp : FeedPost.t) :
  Silent (UpsertPost fails fp).
Proof. unfold UpsertPost. silent. Qed.
#[local] Hint Resolve Silent_UpsertPost : silent.

Lemma Silent_FirstOrCreateMissingPost (fails : nat -> bool) (author : Uid) (rkey : string) :
  Silent (FirstOrCreateMissingPost fails author rkey).
Proof. unfold FirstOrCreateMissingPost. silent. Qed.
#[local] Hint Resolve Silent_FirstOrCreateMissingPost : silent.

Lemma Silent_UpdateUpCount (fails : nat -> bool) (id delta : Z) :
  Silent (UpdateUpCount fails id delta).
Proof. unfold UpdateUpCount. silent. Qed.
#[local] Hint Resolve Silent_UpdateUpCount : silent.

Lemma Silent_UpdatePostColumn (fails : nat -> bool) (id : Z) (set : FeedPost.t -> FeedPost.t) :
  Silent (UpdatePostColumn fails id set).
Proof. unfold UpdatePostColumn. silent. Qed.
#[local] Hint Resolve Silent_UpdatePostColumn : silent.

Lemma Silent_CreateVote (fails : nat -> bool) (vr : VoteRecord.t) :
  Silent (CreateVote fails vr).
Proof. unfold CreateVote. silent. Qed.
#[local] Hint Resolve Silent_CreateVote : silent.

Lemma Silent_DeleteVoteByID (fails : nat -> bool) (id : Z) :
  Silent (DeleteVoteByID fails id).
Proof. unfold DeleteVoteByID. silent. Qed.
#[local] Hint Resolve Silent_DeleteVoteByID : silent.

Lemma Silent_CreateFollow (fails : nat -> bool) (fr : FollowRecord.t) :
  Silent (CreateFollow fails fr).
Proof. unfold CreateFollow. silent. Qed.
#[local] Hint Resolve Silent_CreateFollow : silent.

Lemma Silent_DeleteFollow (fails : nat -> bool) (follower : Uid) (rkey : string) :
  Silent (DeleteFollow fails follower rkey).
Proof. unfold DeleteFollow. silent. Qed.
#[local] Hint Resolve Silent_DeleteFollow : silent.

Lemma Silent_CreateRepost (fails : nat -> bool) (rr : RepostRecord.t) :
  Silent (CreateRepost fails rr).
Proof. unfold CreateRepost. silent. Qed.
#[local] Hint Resolve Silent_CreateRepost : silent.

Lemma Silent_DeleteRepost (fails : nat -> bool) (reposter : Uid) (rkey : string) :
  Silent (DeleteRepost fails reposter rkey).
Proof. unfold DeleteRepost. silent. Qed.
#[local] Hint Resolve Silent_DeleteRepost : silent.

Lemma Silent_SaveRepost (fails : nat -> bool) (rr : RepostRecord.t) :
  Silent (SaveRepost fails rr).
Proof. unfold SaveRepost. silent. Qed.
#[local] Hint Resolve Silent_SaveRepost : silent.

Lemma Silent_UpsertActor (fails : nat -> bool) (ai : ActorInfo.t) :
  Silent (UpsertActor fails ai).
Proof. unfold UpsertActor. silent. Qed.
#[local] Hint Resolve Silent_UpsertActor : silent.

Lemma Silent_DidForUser (fails : nat -> bool) (uid : Uid) :
  Silent (DidForUser fails uid).
Proof. unfold DidForUser. silent. Qed.
#[local] Hint Resolve Silent_DidForUser : silent.

Lemma Silent_LookupUser (fails : nat -> bool) (id : Uid) :
  Silent (LookupUser fails id).
Proof. unfold LookupUser. silent. Qed.
#[local] Hint Resolve Silent_LookupUser : silent.

Lemma Silent_LookupUserByDid (fails : nat -> bool) (did : string) :
  Silent (LookupUserByDid fails did).
Proof. unfold LookupUserByDid. silent. Qed.
#[local] Hint Resolve Silent_LookupUserByDid : silent.

Lemma Silent_LookupUserByHandle (fails : nat -> bool) (handle : string) :
  Silent (LookupUserByHandle fails handle).
Proof. unfold LookupUserByHandle. silent. Qed.
#[local] Hint Resolve Silent_LookupUserByHandle : silent.

Lemma Silent_addUserToCrawler (fails : nat -> bool) (ix : Indexer) (ai : ActorInfo.t) :
  Silent (addUserToCrawler fails ix ai).
Proof. unfold addUserToCrawler. silent. Qed.
#[local] Hint Resolve Silent_addUserToCrawler : silent.

Lemma Silent_createMissingUserRecord (fails : nat -> bool) (ix : Indexer) (did : string) :
  HookSilent ix -> Silent (createMissingUserRecord fails ix did).
Proof. intros Hhook. unfold createMissingUserRecord. silent. Qed.
#[local] Hint Resolve Silent_createMissingUserRecord : silent.

Lemma Silent_GetUserOrMissing (fails : nat -> bool) (ix : Indexer) (did : string) :
  HookSilent ix -> Silent (GetUserOrMissing fails ix did).
Proof.
  intros Hhook w. unfold GetUserOrMissing.
  pose proof (Silent_LookupUserByDid fails did w) as Hl.
  destruct (LookupUserByDid fails did w) as [[a|e|s] w1]; simpl in *; try exact Hl.
  destruct (negb (isNotFound e)); [exact Hl|].
  rewrite (Silent_createMissingUserRecord fails ix did Hhook w1). exact Hl.
Qed.
#[local] Hint Resolve Silent_GetUserOrMissing : silent.

Lemma Silent_handleInitActor (fails : nat -> bool) (evt : Repomgr.RepoEvent)
    (op : Repomgr.RepoOp) :
  Silent (handleInitActor fails evt op).
Proof. unfold handleInitActor. silent. Qed.
#[local] Hint Resolve Silent_handleInitActor : silent.

Lemma Silent_GetPost (fails : nat -> bool) (ParseAtUri : string -> Res ParsedUri)
    (uri : string) :
  Silent (GetPost fails ParseAtUri uri).
Proof. unfold GetPost. silent. Qed.
#[local] Hint Resolve Silent_GetPost : silent.

Lemma Silent_createMissingPostRecord (fails : nat -> bool) (ix : Indexer)
    (puri : ParsedUri) :
  HookSilent ix -> Silent (createMissingPostRecord fails ix puri).
Proof. intros Hhook. unfold createMissingPostRecord. silent. Qed.
#[local] Hint Resolve Silent_createMissingPostRecord : silent.

Lemma Silent_GetPostOrMissing (fails : nat -> bool)
    (ParseAtUri : string -> Res ParsedUri) (ix : Indexer) (uri : string) :
  HookSilent ix -> Silent (GetPostOrMissing fails ParseAtUri ix uri).
Proof. intros Hhook. unfold GetPostOrMissing. silent. Qed.
#[local] Hint Resolve Silent_GetPostOrMissing : silent.

Lemma Silent_notifyMentions (fails : nat -> bool) (fp : FeedPost.t)
    (ms : list ActorInfo.t) :
  Silent (notifyMentions fails fp ms).
Proof. induction ms as [|m ms IH]; simpl; silent. Qed.
#[local] Hint Resolve Silent_notifyMentions : silent.

Lemma Silent_addNewPostNotification (fails : nat -> bool)
    (ParseAtUri : string -> Res ParsedUri) (post : Bsky.FeedPost) (fp : FeedPost.t)
    (ms : list ActorInfo.t) :
  Silent (addNewPostNotification fails ParseAtUri post fp ms).
Proof. unfold addNewPostNotification. silent. Qed.
#[local] Hint Resolve Silent_addNewPostNotification : silent.

Lemma Silent_resolveMentions (fails : nat -> bool) (ix : Indexer)
    (es : list Bsky.FeedPost_Entity) :
  HookSilent ix -> forall acc, Silent (resolveMentions fails ix es acc).
Proof. intros Hhook. induction es as [|e es IH]; simpl; silent. Qed.
#[local] Hint Resolve Silent_resolveMentions : silent.

Lemma Silent_handleRecordCreateFeedPost (fails : nat -> bool)
    (ParseAtUri : string -> Res ParsedUri) (ix : Indexer) (user : Uid)
    (rkey : string) (rcid : Cid) (rec : Bsky.FeedPost) :
  HookSilent ix -> Silent (handleRecordCreateFeedPost fails ParseAtUri ix user rkey rcid rec).
Proof. intros Hhook. unfold handleRecordCreateFeedPost. silent. Qed.
#[local] Hint Resolve Silent_handleRecordCreateFeedPost : silent.

Lemma Silent_handleRecordCreateFeedLike (fails : nat -> bool)
    (ParseAtUri : string -> Res ParsedUri) (ix : Indexer) (rec : Bsky.FeedLike)
    (evt : Repomgr.RepoEvent) (op : Repomgr.RepoOp) :
  HookSilent ix -> Silent (handleRecordCreateFeedLike fails ParseAtUri ix rec evt op).
Proof.
  intros Hhook. unfold handleRecordCreateFeedLike, addNewVoteNotification. silent.
Qed.
#[local] Hint Resolve Silent_handleRecordCreateFeedLike : silent.

Lemma Silent_handleRecordDeleteFeedLike (fails : nat -> bool)
    (evt : Repomgr.RepoEvent) (op : Repomgr.RepoOp) :
  Silent (handleRecordDeleteFeedLike fails evt op).
Proof. unfold handleRecordDeleteFeedLike. silent. Qed.
#[local] Hint Resolve Silent_handleRecordDeleteFeedLike : silent.

Lemma Silent_handleRecordDeleteGraphFollow (fails : nat -> bool)
    (evt : Repomgr.RepoEvent) (op : Repomgr.RepoOp) :
  Silent (handleRecordDeleteGraphFollow fails evt op).
Proof. unfold handleRecordDeleteGraphFollow. silent. Qed.
#[local] Hint Resolve Silent_handleRecordDeleteGraphFollow : silent.

Lemma Silent_handleRecordCreateGraphFollow (fails : nat -> bool) (ix : Indexer)
    (rec : Bsky.GraphFollow) (evt : Repomgr.RepoEvent) (op : Repomgr.RepoOp) :
  HookSilent ix -> Silent (handleRecordCreateGraphFollow fails ix rec evt op).
Proof.
  intros Hhook. unfold handleRecordCreateGraphFollow. apply Silent_bind; [|silent].
  intros w.
  pose proof (Silent_LookupUserByDid fails (Bsky.FollowSubject rec) w) as Hl.
  destruct (LookupUserByDid fails (Bsky.FollowSubject rec) w) as [[a|e|s] w1];
    simpl in *; try exact Hl.
  destruct (negb (isRecordNotFound e)); [exact Hl|].
  rewrite (Silent_wrapErr _ _ (Silent_createMissingUserRecord fails ix _ Hhook) w1).
  exact Hl.
Qed.
#[local] Hint Resolve Silent_handleRecordCreateGraphFollow : silent.

Lemma Silent_handleRecordDelete (fails : nat -> bool)
    (ParseAtUri : string -> Res ParsedUri) (evt : Repomgr.RepoEvent)
    (op : Repomgr.RepoOp) (local : bool) :
  Silent (handleRecordDelete fails ParseAtUri evt op local).
Proof.
  unfold handleRecordDelete. silent.
  match goal with
  | |- Silent (fun w => match GetPost fails ParseAtUri ?uri w with _ => _ end) =>
      intros w; pose proof (Silent_GetPost fails ParseAtUri uri w) as Hg;
      destruct (GetPost fails ParseAtUri uri w) as [[fp|e|s] w1]; simpl in *
  end.
  - rewrite (Silent_UpdatePostColumn fails _ _ w1). exact Hg.
  - destruct (isRecordNotFound e); exact Hg.
  - exact Hg.
Qed.
#[local] Hint Resolve Silent_handleRecordDelete : silent.

Lemma Silent_handleRecordCreate (fails : nat -> bool)
    (ParseAtUri : string -> Res ParsedUri) (ix : Indexer) (evt : Repomgr.RepoEvent)
    (op : Repomgr.RepoOp) (local : bool) :
  HookSilent ix -> Silent (handleRecordCreate fails ParseAtUri ix evt op local).
Proof. intros Hhook. unfold handleRecordCreate. silent. Qed.
#[local] Hint Resolve Silent_handleRecordCreate : silent.

Lemma Silent_handleRecordUpdate (fails : nat -> bool)
    (ParseAtUri : string -> Res ParsedUri) (ix : Indexer) (evt : Repomgr.RepoEvent)
    (op : Repomgr.RepoOp) (local : bool) :
  HookSilent ix -> Silent (handleRecordUpdate fails ParseAtUri ix evt op local).
Proof. intros Hhook. unfold handleRecordUpdate, FindVoteByVoted. silent. Qed.
#[local] Hint Resolve Silent_handleRecordUpdate : silent.

Lemma Silent_crawlMentions (fails : nat -> bool) (ix : Indexer)
    (es : list Bsky.FeedPost_Entity) :
  HookSilent ix -> Silent (crawlMentions fails ix es).
Proof. intros Hhook. induction es as [|e es IH]; simpl; silent. Qed.
#[local] Hint Resolve Silent_crawlMentions : silent.

Lemma Silent_crawlRecordReferences (fails : nat -> bool)
    (ParseAtUri : string -> Res ParsedUri) (ix : Indexer) (op : Repomgr.RepoOp) :
  HookSilent ix -> Silent (crawlRecordReferences fails ParseAtUri ix op).
Proof. intros Hhook. unfold crawlRecordReferences, crawlAtUriRef. silent. Qed.
#[local] Hint Resolve Silent_crawlRecordReferences : silent.

Lemma Silent_handleRepoOp (fails : nat -> bool)
    (ParseAtUri : string -> Res ParsedUri) (ix : Indexer) (evt : Repomgr.RepoEvent)
    (op : Repomgr.RepoOp) :
  HookSilent ix -> Silent (handleRepoOp fails ParseAtUri ix evt op).
Proof. intros Hhook. unfold handleRepoOp. silent. Qed.
#[local] Hint Resolve Silent_handleRepoOp : silent.

Lemma Silent_handleOps (fails : nat -> bool)
    (ParseAtUri : string -> Res ParsedUri) (ix : Indexer) (evt : Repomgr.RepoEvent)
    (ops : list Repomgr.RepoOp) :
  HookSilent ix -> forall outops, Silent (handleOps fails ParseAtUri ix evt ops outops).
Proof. intros Hhook. induction ops as [|op ops IH]; simpl; silent. Qed.

(** X6.  One repo event, one firehose event: when [HandleRepoEvent] returns
    nil the broadcaster has received exactly one more event, the commit
    envelope of the user of the event, whatever happened to the ops; when
    it returns an error (or panics) the broadcaster has received
    nothing.  No handler of an op hands anything to the broadcaster. *)
Theorem HandleRepoEvent_emits_once (fails : nat -> bool)
    (ParseAtUri : string -> Res ParsedUri) (now : string) (ix : Indexer)
    (evt : Repomgr.RepoEvent) (w w' : World) (r : Res unit) :
  HookSilent ix ->
  HandleRepoEvent fails ParseAtUri now ix evt w = (r, w') ->
  match r with
  | Ok _ =>
      exists c, emitted w' = emitted w ++ [mkStreamEvent c (Repomgr.User evt)]
  | _ => emitted w' = emitted w
  end.
Proof.
  intros Hhook Hrun. unfold HandleRepoEvent in Hrun. unfold bind at 1 in Hrun.
  pose proof (Silent_handleOps fails ParseAtUri ix evt (elems (Repomgr.Ops evt)) Hhook
                None w) as Hops.
  destruct (handleOps fails ParseAtUri ix evt (elems (Repomgr.Ops evt)) None w)
    as [[outops|e|m] w1]; simpl in Hops;
    [|injection Hrun as <- <-; exact Hops|injection Hrun as <- <-; exact Hops].
  unfold bind at 1 in Hrun.
  pose proof (Silent_DidForUser fails (Repomgr.User evt) w1) as Hdid.
  destruct (DidForUser fails (Repomgr.User evt) w1) as [[did|e|m] w2]; simpl in Hdid;
    [|injection Hrun as <- <-; congruence|injection Hrun as <- <-; congruence].
  unfold events_AddEvent, tick, bind, modify in Hrun.
  destruct (fails (clock w2)); simpl in Hrun; injection Hrun as <- <-; simpl.
  - congruence.
  - eexists. rewrite Hdid, Hops. reflexivity.
Qed.

Lemma HandleRepoEvent_emits_once_witness :
  let run := HandleRepoEvent Sample.noFaults Sample.parseAtUri "2023-06-03T00:00:00Z"
               Sample.ix (Sample.evtBy 20 [Sample.likeCreateOp]) Sample.w0 in
  HookSilent Sample.ix
  /\ run = (Ok tt, snd run)
  /\ exists c, emitted (snd run) = emitted Sample.w0 ++ [mkStreamEvent c 20].
Proof.
  cbv zeta.
  assert (Hh : HookSilent Sample.ix) by (intros did w; reflexivity).
  assert (Hrun : HandleRepoEvent Sample.noFaults Sample.parseAtUri "2023-06-03T00:00:00Z"
                   Sample.ix (Sample.evtBy 20 [Sample.likeCreateOp]) Sample.w0
                 = (Ok tt,
                    snd (HandleRepoEvent Sample.noFaults Sample.parseAtUri
                           "2023-06-03T00:00:00Z" Sample.ix
                           (Sample.evtBy 20 [Sample.likeCreateOp]) Sample.w0)))
    by (vm_compute; reflexivity).
  split; [exact Hh|]. split; [exact Hrun|].
  exact (HandleRepoEvent_emits_once Sample.noFaults Sample.parseAtUri
           "2023-06-03T00:00:00Z" Sample.ix (Sample.evtBy 20 [Sample.likeCreateOp])
           Sample.w0 _ (Ok tt) Hh Hrun).
Defined.

End FirehoseFacts.

(* ================================================================== *)
(** * Properties of the record handlers *)
(* ================================================================== *)

Module RecordFacts.
Import IndexerFacts.

(** ** What the lookups leave alone *)

Lemma LookupUserByDid_result (fails : nat -> bool) (did : string) (w : World) :
  LookupUserByDid fails did w
  = (if fails (clock w) then Err (ErrExternal "statement failed")
     else match actorByDid did (db w) with
          | Some a => if ActorInfo.ID a =? 0 then Err ErrRecordNotFound else Ok a
          | None => Err ErrRecordNotFound
          end,
     ticked w).
Proof.
  unfold LookupUserByDid, Find, query, tick, bind, gets, ret, fail, ticked. simpl.
  destruct (fails (clock w)); simpl; [reflexivity|].
  destruct (actorByDid did (db w)) as [a|]; simpl; [|reflexivity].
  destruct (ActorInfo.ID a =? 0); reflexivity.
Qed.

Section Kept.
Context {X : Type}.
Variable obs : DB -> X.
Variable fails : nat -> bool.
Variable ParseAtUri : string -> Res ParsedUri.
Variable ix : Indexer.
Hypothesis Hhook :
  forall did w, obs (db (snd (CreateExternalUser ix did w))) = obs (db w).

Lemma createMissingUserRecord_keeps (did : string) (w w' : World)
    (r : Res ActorInfo.t) :
  createMissingUserRecord fails ix did w = (r, w') -> obs (db w') = obs (db w).
Proof.
  unfold createMissingUserRecord. unfold bind at 1. intros Hrun.
  pose proof (Hhook did w) as Hh.
  destruct (CreateExternalUser ix did w) as [[a|e|m] w1]; simpl in Hh;
    [|injection Hrun as <- <-; exact Hh|injection Hrun as <- <-; exact Hh].
  unfold bind, wrapErr in Hrun.
  destruct (addUserToCrawler fails ix a w1) as [[u|e|m] w2] eqn:Hc;
    apply addUserToCrawler_db in Hc; unfold ret in Hrun;
    injection Hrun as <- <-; rewrite Hc; exact Hh.
Qed.

Lemma GetUserOrMissing_keeps (did : string) (w w' : World) (r : Res ActorInfo.t) :
  GetUserOrMissing fails ix did w = (r, w') -> obs (db w') = obs (db w).
Proof.
  unfold GetUserOrMissing. rewrite LookupUserByDid_result.
  destruct (fails (clock w)); [intros [= <- <-]; reflexivity|].
  destruct (actorByDid did (db w)) as [a|].
  - destruct (ActorInfo.ID a =? 0); simpl.
    + intros Hc. apply createMissingUserRecord_keeps in Hc. exact Hc.
    + intros [= <- <-]. reflexivity.
  - simpl. intros Hc. apply createMissingUserRecord_keeps in Hc. exact Hc.
Qed.

Hypothesis Hblind : PostsBlind obs.

Lemma FirstOrCreateMissingPost_keeps (author : Uid) (rkey : string) (w w' : World)
    (r : Res FeedPost.t) :
  FirstOrCreateMissingPost fails author rkey w = (r, w') -> obs (db w') = obs (db w).
Proof.
  unfold FirstOrCreateMissingPost, CreatePost, query, tick, bind, gets, modify, ret, fail.
  simpl. intros Hrun.
  destruct (fails (clock w)); simpl in Hrun; [injection Hrun as <- <-; reflexivity|].
  match type of Hrun with
  | context [find ?f (posts (db w))] => destruct (find f (posts (db w)))
  end; simpl in Hrun; [injection Hrun as <- <-; reflexivity|].
  destruct (fails (S (clock w))); simpl in Hrun; [injection Hrun as <- <-; reflexivity|].
  destruct (postByRkeyAndAuthor rkey author (db w)); simpl in Hrun;
    injection Hrun as <- <-; [reflexivity|].
  simpl. unfold insertPost. apply Hblind.
Qed.

Lemma GetPostOrMissing_keeps (uri : string) (w w' : World) (r : Res FeedPost.t) :
  GetPostOrMissing fails ParseAtUri ix uri w = (r, w') -> obs (db w') = obs (db w).
Proof.
  unfold GetPostOrMissing, parseUri. unfold bind at 1.
  destruct (ParseAtUri uri) as [puri|e|m]; [|intros [= <- <-]; reflexivity
                                            |intros [= <- <-]; reflexivity].
  unfold bind at 1. unfold Find, query, tick, bind at 1 2, gets, ret. simpl.
  destruct (fails (clock w)); simpl; [intros [= <- <-]; reflexivity|].
  assert (Hcreate : forall w1,
             db w1 = db w ->
             createMissingPostRecord fails ix puri w1 = (r, w') ->
             obs (db w') = obs (db w)).
  { intros w1 Hdb Hc. unfold createMissingPostRecord in Hc. unfold bind at 1 in Hc.
    destruct (GetUserOrMissing fails ix (puri_Did puri) w1) as [[ai|e|m] w2] eqn:Hg;
      apply GetUserOrMissing_keeps in Hg; rewrite Hdb in Hg.
    - apply FirstOrCreateMissingPost_keeps in Hc. congruence.
    - injection Hc as <- <-. exact Hg.
    - injection Hc as <- <-. exact Hg. }
  destruct (postByRkeyAndAuthorDid (puri_Rkey puri) (puri_Did puri) (db w)) as [post|];
    simpl.
  - destruct (FeedPost.ID post =? 0); [apply Hcreate; reflexivity|].
    intros [= <- <-]. reflexivity.
  - apply Hcreate. reflexivity.
Qed.
End Kept.

(** ** Posts and actors that are looked up or created *)

Lemma FirstOrCreateMissingPost_row (fails : nat -> bool) (author : Uid) (rkey : string)
    (w w' : World) (p : FeedPost.t) :
  FirstOrCreateMissingPost fails author rkey w = (Ok p, w') ->
  In p (posts (db w')) /\ (rkey <> "" -> FeedPost.Rkey p = rkey).
Proof.
  unfold FirstOrCreateMissingPost, CreatePost, query, tick, bind, gets, modify, ret, fail.
  simpl. intros Hrun.
  destruct (fails (clock w)); simpl in Hrun; [discriminate Hrun|].
  match type of Hrun with
  | context [find ?f (posts (db w))] =>
      destruct (find f (posts (db w))) as [q|] eqn:Hf
  end; simpl in Hrun.
  { injection Hrun as <- <-. apply find_some in Hf. destruct Hf as [Hin Hm].
    split; [exact Hin|]. intros Hne.
    apply andb_prop in Hm. destruct Hm as [Hm _].
    apply andb_prop in Hm. destruct Hm as [_ Hm].
    apply orb_prop in Hm. destruct Hm as [Hm|Hm]; apply String.eqb_eq in Hm;
      [contradiction|exact Hm]. }
  destruct (fails (S (clock w))); simpl in Hrun; [discriminate Hrun|].
  destruct (postByRkeyAndAuthor rkey author (db w)); simpl in Hrun; [discriminate Hrun|].
  injection Hrun as <- <-. simpl. split; [|reflexivity].
  apply in_or_app. right. left. reflexivity.
Qed.

Lemma GetPostOrMissing_row (fails : nat -> bool)
    (ParseAtUri : string -> Res ParsedUri) (ix : Indexer) (uri : string)
    (w w' : World) (p : FeedPost.t) :
  GetPostOrMissing fails ParseAtUri ix uri w = (Ok p, w') ->
  In p (posts (db w'))
  /\ exists puri,
       ParseAtUri uri = Ok puri
       /\ (puri_Rkey puri <> "" -> FeedPost.Rkey p = puri_Rkey puri).
Proof.
  intros Hrun. unfold GetPostOrMissing, parseUri in Hrun.
  unfold bind at 1 in Hrun.
  destruct (ParseAtUri uri) as [puri|e|m]; try discriminate Hrun.
  unfold bind at 1 in Hrun. unfold Find, query, tick, bind at 1 2, gets, ret in Hrun.
  simpl in Hrun.
  destruct (fails (clock w)); simpl in Hrun; [discriminate Hrun|].
  assert (Hcreate : forall w1,
             createMissingPostRecord fails ix puri w1 = (Ok p, w') ->
             In p (posts (db w'))
             /\ (puri_Rkey puri <> "" -> FeedPost.Rkey p = puri_Rkey puri)).
  { intros w1 Hc. unfold createMissingPostRecord in Hc. unfold bind at 1 in Hc.
    destruct (GetUserOrMissing fails ix (puri_Did puri) w1) as [[ai|e|m] w2];
      try discriminate Hc.
    apply FirstOrCreateMissingPost_row in Hc. exact Hc. }
  assert (Hgoal : In p (posts (db w'))
                  /\ (puri_Rkey puri <> "" -> FeedPost.Rkey p = puri_Rkey puri)).
  { destruct (postByRkeyAndAuthorDid (puri_Rkey puri) (puri_Did puri) (db w))
      as [post|] eqn:Hf; simpl in Hrun.
    - destruct (FeedPost.ID post =? 0); [apply Hcreate in Hrun; exact Hrun|].
      injection Hrun as <- <-. simpl.
      unfold postByRkeyAndAuthorDid in Hf.
      destruct (actorByDid (puri_Did puri) (db w)); [|discriminate Hf].
      apply find_some in Hf. destruct Hf as [Hin Hm].
      split; [exact Hin|]. intros _.
      apply andb_prop in Hm. destruct Hm as [Hm _]. apply String.eqb_eq in Hm. exact Hm.
    - apply Hcreate in Hrun. exact Hrun. }
  destruct Hgoal as [Hin Hk]. split; [exact Hin|].
  exists puri. split; [reflexivity|exact Hk].
Qed.

(** X7.  Whatever statements fail and whatever the hook does, the post
    that [GetPostOrMissing] returns is a row of the posts table as the
    call leaves it, and carries the record key of the URI. *)
Theorem GetPostOrMissing_returns_row (fails : nat -> bool)
    (ParseAtUri : string -> Res ParsedUri) (ix : Indexer) (uri : string)
    (w w' : World) (p : FeedPost.t) :
  GetPostOrMissing fails ParseAtUri ix uri w = (Ok p, w') ->
  In p (posts (db w'))
  /\ exists puri,
       ParseAtUri uri = Ok puri
       /\ (puri_Rkey puri <> "" -> FeedPost.Rkey p = puri_Rkey puri).
Proof. apply GetPostOrMissing_row. Qed.

(** X8.  [GetUserOrMissing] hands an actor to the crawler exactly when the
    DID had no actor row and the hook created one: for a known DID the
    crawl queue is as before; for an unknown one the actor returned is
    appended to it (a crawler being attached). *)
Theorem GetUserOrMissing_crawls_unknown_only (fails : nat -> bool) (ix : Indexer)
    (did : string) (w w' : World) (ai : ActorInfo.t) :
  HookKeepsQueue ix ->
  hasCrawler ix = true ->
  GetUserOrMissing fails ix did w = (Ok ai, w') ->
  crawlQueue w'
  = crawlQueue w
      ++ match actorByDid did (db w) with
         | Some a => if ActorInfo.ID a =? 0 then [ai] else []
         | None => [ai]
         end.
Proof.
  intros Hhook Hcr Hrun. unfold GetUserOrMissing in Hrun.
  unfold LookupUserByDid, Find, query, tick, bind, gets, ret, fail in Hrun.
  simpl in Hrun.
  destruct (fails (clock w)); simpl in Hrun; [discriminate Hrun|].
  assert (Hcreate : forall w1,
             crawlQueue w1 = crawlQueue w ->
             createMissingUserRecord fails ix did w1 = (Ok ai, w') ->
             crawlQueue w' = crawlQueue w ++ [ai]).
  { intros w1 Hq Hc. unfold createMissingUserRecord in Hc. unfold bind at 1 in Hc.
    pose proof (Hhook did w1) as Hh.
    destruct (CreateExternalUser ix did w1) as [[a|e|m] w2]; try discriminate Hc.
    simpl in Hh. unfold bind, wrapErr, addUserToCrawler in Hc. rewrite Hcr in Hc.
    simpl in Hc. unfold Crawler_Crawl, tick, bind, modify, ret in Hc.
    destruct (fails (clock w2)); simpl in Hc; [discriminate Hc|].
    injection Hc as <- <-. simpl. congruence. }
  destruct (actorByDid did (db w)) as [a|]; simpl in Hrun.
  - destruct (ActorInfo.ID a =? 0); simpl in Hrun.
    + apply Hcreate in Hrun; [exact Hrun|reflexivity].
    + injection Hrun as <- <-. simpl. rewrite app_nil_r. reflexivity.
  - apply Hcreate in Hrun; [exact Hrun|reflexivity].
Qed.

(** ** Reference crawling *)

Lemma NeverPanics_GetUserOrMissing (fails : nat -> bool) (ix : Indexer) (did : string) :
  HookNeverPanics ix -> NeverPanics (GetUserOrMissing fails ix did).
Proof.
  intros Hhook w s. unfold GetUserOrMissing.
  unfold LookupUserByDid, Find, query, tick, bind, gets, ret, fail. simpl.
  assert (Hcreate : forall w1, fst (createMissingUserRecord fails ix did w1) <> Panic s).
  { intros w1. unfold createMissingUserRecord. unfold bind at 1.
    pose proof (Hhook did w1 s) as Hh.
    destruct (CreateExternalUser ix did w1) as [[a|e|m] w2]; simpl in *;
      [|discriminate|exact Hh].
    unfold bind, wrapErr, addUserToCrawler, Crawler_Crawl, tick, bind, modify, ret.
    destruct (negb (hasCrawler ix)); simpl; [discriminate|].
    destruct (fails (clock w2)); simpl; discriminate. }
  destruct (fails (clock w)); simpl; [discriminate|].
  destruct (actorByDid did (db w)) as [a|]; simpl.
  - destruct (ActorInfo.ID a =? 0); simpl; [apply Hcreate|discriminate].
  - apply Hcreate.
Qed.

Lemma logged_then {A B} (m : M A) (k : unit -> M B) (w : World) :
  NeverPanics m -> exists w1, bind (logged m) k w = k tt w1.
Proof.
  intros Hm. unfold bind, logged. specialize (Hm w).
  destruct (m w) as [[a|e|s] w1]; simpl in Hm.
  - exists w1. reflexivity.
  - exists w1. reflexivity.
  - exfalso. apply (Hm s). reflexivity.
Qed.

Lemma logged_ok {A} (m : M A) (w : World) :
  NeverPanics m -> fst (logged m w) = Ok tt.
Proof.
  intros Hm. unfold logged. specialize (Hm w).
  destruct (m w) as [[a|e|s] w1]; simpl in *; try reflexivity.
  exfalso. apply (Hm s). reflexivity.
Qed.

Section Crawl.
Variable fails : nat -> bool.
Variable ParseAtUri : string -> Res ParsedUri.
Variable ix : Indexer.
Hypothesis Hparse : forall uri s, ParseAtUri uri <> Panic s.
Hypothesis Hhook : HookNeverPanics ix.

Lemma NeverPanics_crawlAtUriRef (uri : string) :
  NeverPanics (crawlAtUriRef fails ParseAtUri ix uri).
Proof.
  intros w s. unfold crawlAtUriRef, parseUri. unfold bind at 1.
  pose proof (Hparse uri) as Hp.
  destruct (ParseAtUri uri) as [puri|e|m]; simpl;
    [|discriminate|exfalso; apply (Hp m); reflexivity].
  unfold bind.
  pose proof (NeverPanics_GetUserOrMissing fails ix (puri_Did puri) Hhook w s) as Hg.
  destruct (GetUserOrMissing fails ix (puri_Did puri) w) as [[a|e|m] w1]; simpl in *;
    [discriminate|discriminate|].
  intros [= ->]. apply Hg. reflexivity.
Qed.

Lemma crawlMentions_ok (es : list Bsky.FeedPost_Entity) :
  forall w, fst (crawlMentions fails ix es w) = Ok tt.
Proof.
  induction es as [|e es IH]; intros w; simpl; [reflexivity|].
  destruct (String.eqb (Bsky.Type_ e) "mention").
  - destruct (logged_then (GetUserOrMissing fails ix (Bsky.Value e))
                (fun _ => crawlMentions fails ix es) w
                (NeverPanics_GetUserOrMissing fails ix _ Hhook)) as (w1 & ->).
    apply IH.
  - unfold bind, ret. simpl. apply IH.
Qed.

Lemma crawlRecordReferences_ok (op : Repomgr.RepoOp) (w : World) :
  fst (crawlRecordReferences fails ParseAtUri ix op w) = Ok tt.
Proof.
  assert (Href : forall (r : option Bsky.RepoStrongRef) w0,
             fst (match r return M unit with
                  | Some ref => logged (crawlAtUriRef fails ParseAtUri ix (Bsky.Uri ref))
                  | None => ret tt
                  end w0) = Ok tt).
  { intros [ref|] w0; [|reflexivity].
    apply logged_ok. apply NeverPanics_crawlAtUriRef. }
  unfold crawlRecordReferences. cbv beta zeta.
  destruct (Repomgr.Record_ op) as [rec|rec|rec|rec|rec| |n]; try reflexivity.
  - unfold bind at 1. pose proof (crawlMentions_ok (Bsky.Entities rec) w) as Hm.
    destruct (crawlMentions fails ix (Bsky.Entities rec) w) as [[u|e|m] w1];
      simpl in Hm; try discriminate Hm.
    destruct (Bsky.Reply rec) as [reply|]; [|reflexivity].
    unfold bind. pose proof (Href (Bsky.Parent reply) w1) as Hp.
    destruct (match Bsky.Parent reply return M unit with
              | Some ref => logged (crawlAtUriRef fails ParseAtUri ix (Bsky.Uri ref))
              | None => ret tt
              end w1) as [[u'|e|m] w2]; simpl in Hp; try discriminate Hp.
    apply Href.
  - apply Href.
  - apply Href.
  - apply logged_ok. apply NeverPanics_GetUserOrMissing. exact Hhook.
  - apply logged_ok. apply NeverPanics_GetUserOrMissing. exact Hhook.
Qed.

(** X9.  Crawling the references of a record always returns nil: a
    mention, subject or reply reference that cannot be parsed, looked up,
    created or handed to the crawler is logged and skipped. *)
Theorem crawlRecordReferences_returns_nil (op : Repomgr.RepoOp) (w : World) :
  fst (crawlRecordReferences fails ParseAtUri ix op w) = Ok tt.
Proof. apply crawlRecordReferences_ok. Qed.

(** X10.  With aggregation switched off, [handleRepoOp] runs no record
    handler: a delete or an update returns nil and leaves the world as
    it was, a create only crawls the references of the record and
    returns nil, and an op of any other kind is refused. *)
Theorem handleRepoOp_without_aggregation (evt : Repomgr.RepoEvent)
    (op : Repomgr.RepoOp) (w : World) :
  doAggregations ix = false ->
  let kind := Repomgr.Kind op in
  (kind = "create" ->
   handleRepoOp fails ParseAtUri ix evt op w
   = (Ok tt, snd (crawlRecordReferences fails ParseAtUri ix op w)))
  /\ (kind = "delete" \/ kind = "update" ->
      handleRepoOp fails ParseAtUri ix evt op w = (Ok tt, w))
  /\ (kind <> "create" -> kind <> "delete" -> kind <> "update" ->
      handleRepoOp fails ParseAtUri ix evt op w
      = (Err (Errorf ("unrecognized repo event type: " ++ quoted kind)%string), w)).
Proof.
  intros Hagg kind. unfold handleRepoOp. fold kind. rewrite Hagg.
  unfold Repomgr.EvtKindCreateRecord, Repomgr.EvtKindDeleteRecord,
    Repomgr.EvtKindUpdateRecord.
  split; [|split].
  - intros ->. simpl. unfold bind, ret.
    pose proof (crawlRecordReferences_ok op w) as Hc.
    destruct (crawlRecordReferences fails ParseAtUri ix op w) as [[[]|e|m] w1];
      simpl in Hc; try discriminate Hc. reflexivity.
  - intros [-> | ->]; reflexivity.
  - intros H1 H2 H3.
    apply String.eqb_neq in H1. apply String.eqb_neq in H2. apply String.eqb_neq in H3.
    rewrite H1, H2, H3. reflexivity.
Qed.
End Crawl.

(** ** Follows *)

Section Follows.
Variable fails : nat -> bool.
Variable ParseAtUri : string -> Res ParsedUri.
Variable ix : Indexer.
Hypothesis Hhook : HookKeepsFollows ix.

Lemma createMissingUserRecord_follows (did : string) (w w' : World)
    (r : Res ActorInfo.t) :
  createMissingUserRecord fails ix did w = (r, w') ->
  follows (db w') = follows (db w) /\ nextFollowID (db w') = nextFollowID (db w).
Proof.
  intros Hrun. apply (createMissingUserRecord_keeps followsPart fails ix Hhook) in Hrun.
  injection Hrun as Hf Hn. split; assumption.
Qed.

(** What a follow create that returned nil has written. *)
Lemma follow_create_effect (rec : Bsky.GraphFollow) (evt : Repomgr.RepoEvent)
    (op : Repomgr.RepoOp) (w w' : World) :
  handleRecordCreateGraphFollow fails ix rec evt op w = (Ok tt, w') ->
  exists target cid,
    Repomgr.RecCid op = Some cid
    /\ follows (db w')
       = follows (db w)
           ++ [FollowRecord.mk (nextFollowID (db w)) (Repomgr.User evt) target
                 (Repomgr.Rkey op) cid]
    /\ match actorByDid (Bsky.FollowSubject rec) (db w) with
       | Some a => ActorInfo.ID a <> 0 -> target = ActorInfo.Uid a
       | None => True
       end.
Proof.
  intros Hrun. unfold handleRecordCreateGraphFollow in Hrun. unfold bind at 1 in Hrun.
  rewrite LookupUserByDid_result in Hrun.
  assert (Hrest : forall subj w1,
             follows (db w1) = follows (db w) ->
             nextFollowID (db w1) = nextFollowID (db w) ->
             (cid <- deref (Repomgr.RecCid op) ;;
              fr <- CreateFollow fails
                      (FollowRecord.mk 0 (Repomgr.User evt) (ActorInfo.Uid subj)
                         (Repomgr.Rkey op) cid) ;;
              notify fails (AddFollow (FollowRecord.Follower fr) (FollowRecord.Target fr)
                              (FollowRecord.ID fr))) w1 = (Ok tt, w') ->
             exists cid,
               Repomgr.RecCid op = Some cid
               /\ follows (db w')
                  = follows (db w)
                      ++ [FollowRecord.mk (nextFollowID (db w)) (Repomgr.User evt)
                            (ActorInfo.Uid subj) (Repomgr.Rkey op) cid]).
  { intros subj w1 Hf Hn Hr.
    destruct (Repomgr.RecCid op) as [cid|]; [|discriminate Hr].
    exists cid. split; [reflexivity|].
    unfold deref, CreateFollow, notify, tick, bind, gets, modify, ret in Hr. simpl in Hr.
    destruct (fails (clock w1)); simpl in Hr; [discriminate Hr|].
    destruct (fails (S (clock w1))); simpl in Hr; [discriminate Hr|].
    injection Hr as <-. simpl. rewrite Hf, Hn. reflexivity. }
  destruct (fails (clock w)); [discriminate Hrun|].
  destruct (actorByDid (Bsky.FollowSubject rec) (db w)) as [a|].
  - destruct (ActorInfo.ID a =? 0) eqn:Hz.
    + simpl in Hrun. unfold wrapErr in Hrun.
      destruct (createMissingUserRecord fails ix (Bsky.FollowSubject rec) (ticked w))
        as [[subj|e|m] w1] eqn:Hc; try discriminate Hrun.
      apply createMissingUserRecord_follows in Hc. destruct Hc as [Hf Hn].
      destruct (Hrest subj w1 Hf Hn Hrun) as (cid & Hcid & Hfol).
      exists (ActorInfo.Uid subj), cid. split; [exact Hcid|]. split; [exact Hfol|].
      apply Z.eqb_eq in Hz. intros Hne. contradiction.
    + destruct (Hrest a (ticked w) eq_refl eq_refl Hrun) as (cid & Hcid & Hfol).
      exists (ActorInfo.Uid a), cid. split; [exact Hcid|]. split; [exact Hfol|].
      reflexivity.
  - simpl in Hrun. unfold wrapErr in Hrun.
    destruct (createMissingUserRecord fails ix (Bsky.FollowSubject rec) (ticked w))
      as [[subj|e|m] w1] eqn:Hc; try discriminate Hrun.
    apply createMissingUserRecord_follows in Hc. destruct Hc as [Hf Hn].
    destruct (Hrest subj w1 Hf Hn Hrun) as (cid & Hcid & Hfol).
    exists (ActorInfo.Uid subj), cid. split; [exact Hcid|]. split; [exact Hfol|trivial].
Qed.

(** What a follow delete that returned nil has written. *)
Lemma follow_delete_effect (evt : Repomgr.RepoEvent) (op : Repomgr.RepoOp)
    (w w' : World) :
  handleRecordDeleteGraphFollow fails evt op w = (Ok tt, w') ->
  follows (db w')
  = filter (fun f => negb (followKey (Repomgr.User evt) (Repomgr.Rkey op) f))
           (follows (db w))
  /\ nextFollowID (db w') = nextFollowID (db w).
Proof.
  unfold handleRecordDeleteGraphFollow, DeleteFollow, tick, bind, gets, modify, ret.
  simpl. destruct (fails (clock w)); simpl; [discriminate|].
  intros [= <-]. simpl. split; reflexivity.
Qed.

Lemma filter_followKey_app (user : Uid) (rkey : string) (l : list FollowRecord.t)
    (id target : Z) (cid : string) :
  filter (fun f => negb (followKey user rkey f))
         (l ++ [FollowRecord.mk id user target rkey cid])
  = filter (fun f => negb (followKey user rkey f)) l.
Proof.
  rewrite filter_app. simpl. unfold followKey at 2. simpl.
  rewrite Z.eqb_refl, String.eqb_refl. simpl. apply app_nil_r.
Qed.

Lemma filter_followKey_gone (user : Uid) (rkey : string) (l : list FollowRecord.t) :
  filter (followKey user rkey) (filter (fun f => negb (followKey user rkey f)) l) = [].
Proof.
  induction l as [|f l IH]; simpl; [reflexivity|].
  destruct (followKey user rkey f) eqn:Hk; simpl; [exact IH|rewrite Hk; exact IH].
Qed.

(** X11.  A follow create undone: when a follow create and then a follow
    delete of the same user and record key both return nil, the follows
    table holds what it held before the create, less the rows that
    already carried that user and key; with no such row, it is what it
    was. *)
Theorem follow_create_then_delete (rec : Bsky.GraphFollow)
    (evt evt' : Repomgr.RepoEvent) (op op' : Repomgr.RepoOp) (w w1 w2 : World) :
  Repomgr.User evt' = Repomgr.User evt ->
  Repomgr.Rkey op' = Repomgr.Rkey op ->
  handleRecordCreateGraphFollow fails ix rec evt op w = (Ok tt, w1) ->
  handleRecordDeleteGraphFollow fails evt' op' w1 = (Ok tt, w2) ->
  follows (db w2)
  = filter (fun f => negb (followKey (Repomgr.User evt) (Repomgr.Rkey op) f))
           (follows (db w))
  /\ ((forall f, In f (follows (db w)) ->
                 followKey (Repomgr.User evt) (Repomgr.Rkey op) f = false) ->
      follows (db w2) = follows (db w)).
Proof.
  intros Hu Hk Hc Hd.
  apply follow_create_effect in Hc. destruct Hc as (target & cid & _ & Hf1 & _).
  apply follow_delete_effect in Hd. destruct Hd as [Hf2 _].
  rewrite Hu, Hk, Hf1, filter_followKey_app in Hf2.
  split; [exact Hf2|].
  intros Hnone. rewrite Hf2.
  clear -Hnone. induction (follows (db w)) as [|f l IH]; simpl; [reflexivity|].
  rewrite (Hnone f (or_introl eq_refl)). simpl. f_equal.
  apply IH. intros g Hg. apply Hnone. right. exact Hg.
Qed.

(** X12.  A follow update replaces: when it returns nil, the rows that
    carried the user and record key are gone, every other row is kept in
    place, and one row has been appended for that user and key, with the
    CID of the op and, for a subject that has an actor row, the UID of
    the subject as its target. *)
Theorem follow_update_replaces (rec : Bsky.GraphFollow) (evt : Repomgr.RepoEvent)
    (op : Repomgr.RepoOp) (local : bool) (w w' : World) :
  Repomgr.Record_ op = Bsky.IsGraphFollow rec ->
  handleRecordUpdate fails ParseAtUri ix evt op local w = (Ok tt, w') ->
  exists target cid,
    Repomgr.RecCid op = Some cid
    /\ follows (db w')
       = filter (fun f => negb (followKey (Repomgr.User evt) (Repomgr.Rkey op) f))
                (follows (db w))
           ++ [FollowRecord.mk (nextFollowID (db w)) (Repomgr.User evt) target
                 (Repomgr.Rkey op) cid]
    /\ filter (followKey (Repomgr.User evt) (Repomgr.Rkey op)) (follows (db w'))
       = [FollowRecord.mk (nextFollowID (db w)) (Repomgr.User evt) target
            (Repomgr.Rkey op) cid]
    /\ match actorByDid (Bsky.FollowSubject rec) (db w) with
       | Some a => ActorInfo.ID a <> 0 -> target = ActorInfo.Uid a
       | None => True
       end.
Proof.
  intros Hrec Hrun. unfold handleRecordUpdate in Hrun. rewrite Hrec in Hrun.
  unfold bind at 1 in Hrun.
  destruct (handleRecordDeleteGraphFollow fails evt op w) as [[[]|e|m] w1] eqn:Hd;
    try discriminate Hrun.
  assert (Hactors : actors (db w1) = actors (db w)).
  { unfold handleRecordDeleteGraphFollow, DeleteFollow, tick, bind, gets, modify, ret in Hd.
    simpl in Hd. destruct (fails (clock w)); simpl in Hd; [discriminate Hd|].
    injection Hd as <-. reflexivity. }
  apply follow_delete_effect in Hd. destruct Hd as [Hf1 Hn1].
  apply follow_create_effect in Hrun. destruct Hrun as (target & cid & Hcid & Hf2 & Ht).
  exists target, cid. split; [exact Hcid|].
  rewrite Hf2, Hf1, Hn1. split; [reflexivity|]. split.
  - rewrite filter_app. simpl. unfold followKey at 3. simpl.
    rewrite Z.eqb_refl, String.eqb_refl. simpl.
    rewrite filter_followKey_gone. reflexivity.
  - unfold actorByDid in *. rewrite Hactors in Ht. exact Ht.
Qed.
End Follows.

(** ** Deletes *)

Section Deletes.
Variable fails : nat -> bool.
Variable ParseAtUri : string -> Res ParsedUri.

(** What a post delete has written. *)
Lemma post_delete_effect (evt : Repomgr.RepoEvent) (op : Repomgr.RepoOp)
    (local : bool) (w w' : World) (r : Res unit) :
  Repomgr.Collection op = "app.bsky.feed.post" ->
  handleRecordDelete fails ParseAtUri evt op local w = (r, w') ->
  db w' = db w
  \/ exists fp,
       In fp (posts (db w))
       /\ r = Ok tt
       /\ db w' = setPosts (map (flagDeleted (FeedPost.ID fp)) (posts (db w))) (db w).
Proof.
  intros Hcoll Hrun. unfold handleRecordDelete in Hrun. rewrite Hcoll in Hrun.
  simpl in Hrun. unfold bind at 1 in Hrun.
  unfold LookupUser, First, query, tick, bind at 1 2, gets, ret, fail in Hrun.
  simpl in Hrun.
  destruct (fails (clock w)); simpl in Hrun; [injection Hrun as <- <-; left; reflexivity|].
  destruct (actorByUid (Repomgr.User evt) (db w)) as [u|]; simpl in Hrun;
    [|injection Hrun as <- <-; left; reflexivity].
  unfold GetPost, parseUri in Hrun. unfold bind at 1 in Hrun.
  destruct (ParseAtUri _) as [puri|e|m]; simpl in Hrun;
    [|destruct (isRecordNotFound e); injection Hrun as <- <-; left; reflexivity
     |injection Hrun as <- <-; left; reflexivity].
  unfold First, query, tick, bind, gets, ret, fail in Hrun. simpl in Hrun.
  destruct (fails (S (clock w))); simpl in Hrun;
    [injection Hrun as <- <-; left; reflexivity|].
  destruct (postByRkeyAndAuthorDid (puri_Rkey puri) (puri_Did puri) (db w))
    as [fp|] eqn:Hf; simpl in Hrun; [|injection Hrun as <- <-; left; reflexivity].
  unfold UpdatePostColumn, exec, tick, bind, modify in Hrun. simpl in Hrun.
  destruct (fails (S (S (clock w)))); simpl in Hrun;
    injection Hrun as <- <-; [left; reflexivity|].
  right. exists fp.
  unfold postByRkeyAndAuthorDid in Hf.
  destruct (actorByDid (puri_Did puri) (db w)); [|discriminate Hf].
  apply find_some in Hf. destruct Hf as [Hin Hm].
  split; [exact Hin|]. split; reflexivity.
Qed.

(** X13.  A post delete is a soft delete.  Whatever fails, the handler
    either writes nothing, or returns nil having set [deleted] on the
    rows with the id of the post it found: no row is removed and no other
    column or table changes. *)
Theorem post_delete_is_soft (evt : Repomgr.RepoEvent) (op : Repomgr.RepoOp)
    (local : bool) (w w' : World) (r : Res unit) :
  Repomgr.Collection op = "app.bsky.feed.post" ->
  handleRecordDelete fails ParseAtUri evt op local w = (r, w') ->
  db w' = db w
  \/ exists fp,
       In fp (posts (db w))
       /\ r = Ok tt
       /\ db w' = setPosts (map (flagDeleted (FeedPost.ID fp)) (posts (db w))) (db w).
Proof. apply post_delete_effect. Qed.

(** X14.  Deleting a post that the indexer has never seen is not an error:
    when the author has an actor row and no post row matches the URI,
    the handler returns nil after its two lookups and writes nothing. *)
Theorem post_delete_unseen_returns_nil (evt : Repomgr.RepoEvent)
    (op : Repomgr.RepoOp) (local : bool) (w : World) (u : ActorInfo.t)
    (puri : ParsedUri) :
  Repomgr.Collection op = "app.bsky.feed.post" ->
  fails (clock w) = false ->
  fails (S (clock w)) = false ->
  actorByUid (Repomgr.User evt) (db w) = Some u ->
  ParseAtUri (postUri u (Repomgr.Rkey op)) = Ok puri ->
  postByRkeyAndAuthorDid (puri_Rkey puri) (puri_Did puri) (db w) = None ->
  handleRecordDelete fails ParseAtUri evt op local w = (Ok tt, ticked (ticked w)).
Proof.
  intros Hcoll Hf0 Hf1 Hu Hp Hnone. unfold handleRecordDelete. rewrite Hcoll.
  simpl. unfold bind at 1.
  unfold LookupUser, First, query, tick, bind at 1 2, gets, ret, fail.
  simpl. rewrite Hf0. simpl. rewrite Hu. simpl.
  unfold GetPost, parseUri. unfold bind at 1.
  unfold postUri in Hp. simpl in Hp |- *. rewrite Hp.
  unfold First, query, tick, bind, gets, ret, fail. simpl.
  rewrite Hf1. simpl. rewrite Hnone. reflexivity.
Qed.

Lemma Consistent_map_posts (g : FeedPost.t -> FeedPost.t) (d : DB) :
  (forall p, FeedPost.ID (g p) = FeedPost.ID p
             /\ FeedPost.UpCount (g p) = FeedPost.UpCount p) ->
  Consistent d -> Consistent (setPosts (map g (posts d)) d).
Proof.
  intros Hg ((Hnp & Hnv & Hps & Hvs & Hnd & Hvp) & Hc).
  split; [split; [exact Hnp|split; [exact Hnv|split; [|split; [exact Hvs|split;
    [exact Hnd|exact Hvp]]]]]|]; simpl.
  - intros q Hq. apply in_map_iff in Hq. destruct Hq as (p & <- & Hp).
    destruct (Hg p) as [-> _]. apply Hps. exact Hp.
  - intros q Hq. simpl in Hq. apply in_map_iff in Hq. destruct Hq as (p & <- & Hp).
    destruct (Hg p) as [-> ->]. simpl. apply Hc. exact Hp.
Qed.

(** X15.  No delete breaks the up-count invariant: whatever the collection
    of the op and whatever fails, if every post carries the number of
    its votes (and ids are consistent) before [handleRecordDelete], the
    same holds after it. *)
Theorem handleRecordDelete_consistent (evt : Repomgr.RepoEvent)
    (op : Repomgr.RepoOp) (local : bool) (w w' : World) (r : Res unit) :
  Consistent (db w) ->
  handleRecordDelete fails ParseAtUri evt op local w = (r, w') ->
  Consistent (db w').
Proof.
  intros Hc Hrun.
  destruct (String.eqb (Repomgr.Collection op) "app.bsky.feed.post") eqn:Hpost.
  { apply String.eqb_eq in Hpost.
    destruct (post_delete_effect evt op local w w' r Hpost Hrun)
      as [->|(fp & _ & _ & ->)]; [exact Hc|].
    apply Consistent_map_posts; [|exact Hc].
    intros p. unfold flagDeleted. destruct (FeedPost.ID p =? FeedPost.ID fp);
      split; reflexivity. }
  unfold handleRecordDelete in Hrun. rewrite Hpost in Hrun.
  destruct (String.eqb (Repomgr.Collection op) "app.bsky.feed.repost").
  { apply (Consistent_likesPart (db w)); [|exact Hc].
    unfold DeleteRepost, exec, tick, bind, modify in Hrun.
    destruct (fails (clock w)); simpl in Hrun; injection Hrun as <- <-; reflexivity. }
  destruct (String.eqb (Repomgr.Collection op) "app.bsky.feed.vote").
  { apply (handleRecordDeleteFeedLike_consistent fails evt op w w' r Hrun Hc). }
  destruct (String.eqb (Repomgr.Collection op) "app.bsky.graph.follow").
  { apply (Consistent_likesPart (db w)); [|exact Hc].
    unfold handleRecordDeleteGraphFollow, DeleteFollow, tick, bind, gets, modify, ret
      in Hrun.
    simpl in Hrun.
    destruct (fails (clock w)); simpl in Hrun; injection Hrun as <- <-; reflexivity. }
  destruct (String.eqb (Repomgr.Collection op) "app.bsky.graph.confirmation");
    injection Hrun as <- <-; exact Hc.
Qed.
End Deletes.

(** ** Updates *)

Lemma bind_inv {A B} (m : M A) (k : A -> M B) (w w' : World) (r : Res B) :
  bind m k w = (r, w') ->
  (exists a w1, m w = (Ok a, w1) /\ k a w1 = (r, w'))
  \/ (m w = (match r with Err e => Err e | Panic s => Panic s | Ok _ => Panic "" end, w')
      /\ forall b, r <> Ok b).
Proof.
  unfold bind. destruct (m w) as [[a|e|s] w1]; intros H.
  - left. exists a, w1. split; [reflexivity|exact H].
  - right. injection H as <- <-. split; [reflexivity|discriminate].
  - right. injection H as <- <-. split; [reflexivity|discriminate].
Qed.

Section Updates.
Variable fails : nat -> bool.
Variable ParseAtUri : string -> Res ParsedUri.
Variable ix : Indexer.
Hypothesis Hhook : HookKeepsLikes ix.

Lemma createMissingUserRecord_likes (did : string) (w w' : World)
    (r : Res ActorInfo.t) :
  createMissingUserRecord fails ix did w = (r, w') ->
  likesPart (db w') = likesPart (db w).
Proof. apply (createMissingUserRecord_keeps likesPart fails ix Hhook). Qed.

Lemma handleRecordCreateGraphFollow_likes (rec : Bsky.GraphFollow)
    (evt : Repomgr.RepoEvent) (op : Repomgr.RepoOp) (w w' : World) (r : Res unit) :
  handleRecordCreateGraphFollow fails ix rec evt op w = (r, w') ->
  likesPart (db w') = likesPart (db w).
Proof.
  intros Hrun. unfold handleRecordCreateGraphFollow in Hrun. unfold bind at 1 in Hrun.
  rewrite LookupUserByDid_result in Hrun.
  assert (Hrest : forall subj w1,
             likesPart (db w1) = likesPart (db w) ->
             (cid <- deref (Repomgr.RecCid op) ;;
              fr <- CreateFollow fails
                      (FollowRecord.mk 0 (Repomgr.User evt) (ActorInfo.Uid subj)
                         (Repomgr.Rkey op) cid) ;;
              notify fails (AddFollow (FollowRecord.Follower fr) (FollowRecord.Target fr)
                              (FollowRecord.ID fr))) w1 = (r, w') ->
             likesPart (db w') = likesPart (db w)).
  { intros subj w1 Hl Hr. rewrite <- Hl.
    unfold deref, CreateFollow, notify, tick, bind, gets, modify, ret, panic in Hr.
    destruct (Repomgr.RecCid op) as [cid|]; simpl in Hr;
      [|injection Hr as <- <-; reflexivity].
    destruct (fails (clock w1)); simpl in Hr; [injection Hr as <- <-; reflexivity|].
    destruct (fails (S (clock w1))); simpl in Hr; injection Hr as <- <-; reflexivity. }
  assert (Hcreate : forall w0,
             likesPart (db w0) = likesPart (db w) ->
             (let (r0, w2) :=
                wrapErr "create external user: "
                  (createMissingUserRecord fails ix (Bsky.FollowSubject rec)) w0 in
              match r0 with
              | Ok a =>
                  (cid <- deref (Repomgr.RecCid op) ;;
                   fr <- CreateFollow fails
                           (FollowRecord.mk 0 (Repomgr.User evt) (ActorInfo.Uid a)
                              (Repomgr.Rkey op) cid) ;;
                   notify fails (AddFollow (FollowRecord.Follower fr)
                                   (FollowRecord.Target fr) (FollowRecord.ID fr))) w2
              | Err e => (Err e, w2)
              | Panic s0 => (Panic s0, w2)
              end) = (r, w') ->
             likesPart (db w') = likesPart (db w)).
  { intros w0 Hl Hr. unfold wrapErr in Hr.
    destruct (createMissingUserRecord fails ix (Bsky.FollowSubject rec) w0)
      as [[subj|e|m] w1] eqn:Hc; apply createMissingUserRecord_likes in Hc.
    - apply (Hrest subj w1); [congruence|exact Hr].
    - injection Hr as <- <-. congruence.
    - injection Hr as <- <-. congruence. }
  destruct (fails (clock w)); [injection Hrun as <- <-; reflexivity|].
  destruct (actorByDid (Bsky.FollowSubject rec) (db w)) as [a|].
  - destruct (ActorInfo.ID a =? 0).
    + simpl in Hrun. apply (Hcreate (ticked w)); [reflexivity|exact Hrun].
    + apply (Hrest a (ticked w)); [reflexivity|exact Hrun].
  - simpl in Hrun. apply (Hcreate (ticked w)); [reflexivity|exact Hrun].
Qed.

Lemma UpdatePostColumn_effect (id : Z) (set : FeedPost.t -> FeedPost.t)
    (w w' : World) (r : Res unit) :
  UpdatePostColumn fails id set w = (r, w') ->
  db w' = db w
  \/ db w' = setPosts (map (fun p => if FeedPost.ID p =? id then set p else p)
                           (posts (db w))) (db w).
Proof.
  unfold UpdatePostColumn, exec, tick, bind, modify.
  destruct (fails (clock w)); simpl; intros [= <- <-]; [left|right]; reflexivity.
Qed.

Lemma LookupUser_db (id : Uid) (w w' : World) (r : Res ActorInfo.t) :
  LookupUser fails id w = (r, w') -> db w' = db w.
Proof.
  unfold LookupUser, First, query, tick, bind, gets, ret, fail. simpl.
  destruct (fails (clock w)); simpl; [intros [= <- <-]; reflexivity|].
  destruct (actorByUid id (db w)); simpl; intros [= <- <-]; reflexivity.
Qed.

(** X16.  No update breaks the up-count invariant: whatever the record of
    the op and whatever fails, if every post carries the number of its
    votes (and ids are consistent) before [handleRecordUpdate], the same
    holds after it.  In particular the update of a post changes its CID
    and leaves its up-count alone. *)
Theorem handleRecordUpdate_consistent (evt : Repomgr.RepoEvent)
    (op : Repomgr.RepoOp) (local : bool) (w w' : World) (r : Res unit) :
  Consistent (db w) ->
  handleRecordUpdate fails ParseAtUri ix evt op local w = (r, w') ->
  Consistent (db w').
Proof.
  intros Hc Hrun. unfold handleRecordUpdate in Hrun.
  destruct (Repomgr.Record_ op) as [rec|rec|rec|rec|rec| |n].
  - (* post *)
    apply bind_inv in Hrun.
    destruct Hrun as [(u & w1 & Hu & Hrun)|[Hu _]];
      apply LookupUser_db in Hu; [|rewrite Hu; exact Hc].
    rewrite <- Hu in Hc. clear Hu.
    apply bind_inv in Hrun.
    destruct Hrun as [(fp & w2 & Hfp & Hrun)|[Hfp _]];
      apply (GetPostOrMissing_consistent fails ParseAtUri ix Hhook) in Hfp;
      try exact Hc; [|apply Hfp].
    destruct Hfp as [Hc2 _]. clear Hc.
    cbv zeta in Hrun.
    destruct (negb (Bool.eqb (negb (FeedPost.ReplyTo fp =? 0))
                      match Bsky.Reply rec with Some _ => true | None => false end));
      [injection Hrun as <- <-; exact Hc2|].
    apply bind_inv in Hrun.
    assert (Hlast : forall w3 same,
               Consistent (db w3) ->
               (if negb same then ret tt
                else cid <- deref (Repomgr.RecCid op) ;;
                     UpdatePostColumn fails (FeedPost.ID fp) (FeedPost.setCid cid)) w3
               = (r, w') ->
               Consistent (db w')).
    { intros w3 same Hc3 Hr. destruct (negb same); [injection Hr as <- <-; exact Hc3|].
      unfold deref in Hr. destruct (Repomgr.RecCid op) as [cid|];
        [|injection Hr as <- <-; exact Hc3].
      unfold bind, ret in Hr. apply UpdatePostColumn_effect in Hr.
      destruct Hr as [->| ->]; [exact Hc3|].
      apply Consistent_map_posts; [|exact Hc3].
      intros p. destruct (FeedPost.ID p =? FeedPost.ID fp); split; reflexivity. }
    destruct Hrun as [(same & w3 & Hsame & Hrun)|[Hsame _]].
    + apply (Hlast w3 same); [|exact Hrun].
      destruct (Bsky.Reply rec) as [reply|]; [|injection Hsame as <- <-; exact Hc2].
      unfold deref in Hsame. destruct (Bsky.Parent reply) as [parent|];
        [|discriminate Hsame].
      unfold bind at 1, ret at 1 in Hsame. apply bind_inv in Hsame.
      destruct Hsame as [(replyto & w4 & Hr & Hsame)|[_ Hne]];
        [|exfalso; apply (Hne same); reflexivity].
      apply (GetPostOrMissing_consistent fails ParseAtUri ix Hhook) in Hr; [|exact Hc2].
      injection Hsame as _ <-. apply Hr.
    + destruct (Bsky.Reply rec) as [reply|];
        [|destruct r; discriminate Hsame].
      unfold deref in Hsame. destruct (Bsky.Parent reply) as [parent|];
        [|injection Hsame as _ <-; exact Hc2].
      unfold bind at 1, ret at 1 in Hsame.
      match type of Hsame with
      | bind ?m ?k ?w0 = _ =>
          destruct (m w0) as [[replyto|e|s] w4] eqn:Hr;
          unfold bind in Hsame; rewrite Hr in Hsame;
          apply (GetPostOrMissing_consistent fails ParseAtUri ix Hhook) in Hr;
          try exact Hc2; injection Hsame as _ <-; apply Hr
      end.
  - (* repost *)
    apply (Consistent_likesPart (db w)); [|exact Hc].
    unfold First, SaveRepost, exec, query, deref, tick, bind, gets, modify, ret, fail,
      panic in Hrun.
    simpl in Hrun.
    destruct (fails (clock w)); simpl in Hrun; [injection Hrun as <- <-; reflexivity|].
    match type of Hrun with
    | context [find ?f (reposts (db w))] => destruct (find f (reposts (db w)))
    end; simpl in Hrun; [|injection Hrun as <- <-; reflexivity].
    destruct (Repomgr.RecCid op); simpl in Hrun; [|injection Hrun as <- <-; reflexivity].
    destruct (fails (S (clock w))); simpl in Hrun; injection Hrun as <- <-; reflexivity.
  - (* like *)
    unfold FindVoteByVoted, tick, bind, fail in Hrun.
    destruct (fails (clock w)); simpl in Hrun; injection Hrun as <- <-; exact Hc.
  - (* follow *)
    apply bind_inv in Hrun.
    assert (Hdel : forall r0 w1,
               handleRecordDeleteGraphFollow fails evt op w = (r0, w1) ->
               likesPart (db w1) = likesPart (db w)).
    { intros r0 w1 Hd.
      unfold handleRecordDeleteGraphFollow, DeleteFollow, tick, bind, gets, modify, ret
        in Hd.
      simpl in Hd.
      destruct (fails (clock w)); simpl in Hd; injection Hd as <- <-; reflexivity. }
    destruct Hrun as [(u & w1 & Hd & Hrun)|[Hd _]]; apply Hdel in Hd.
    + apply handleRecordCreateGraphFollow_likes in Hrun.
      apply (Consistent_likesPart (db w)); [congruence|exact Hc].
    + apply (Consistent_likesPart (db w)); [exact Hd|exact Hc].
  - injection Hrun as <- <-. exact Hc.
  - injection Hrun as <- <-. exact Hc.
  - injection Hrun as <- <-. exact Hc.
Qed.
End Updates.

(** ** Like deletes *)

(** X17.  A like delete is all or nothing.  Whatever statement fails, the
    handler either returns nil with both writes done (the vote row
    removed and the up-count of its post taken down by one), or returns
    an error with the tables as they were: the transaction leaves no
    vote removed without its count, nor a count without its vote. *)
Theorem like_delete_all_or_nothing (fails : nat -> bool) (evt : Repomgr.RepoEvent)
    (op : Repomgr.RepoOp) (w w' : World) (r : Res unit) :
  handleRecordDeleteFeedLike fails evt op w = (r, w') ->
  (r = Ok tt
   /\ db w' = unliked (voteOf (Repomgr.User evt) (Repomgr.Rkey op) (db w)) (db w))
  \/ (r <> Ok tt /\ db w' = db w).
Proof.
  intros Hrun.
  destruct (Res_eq_Ok_dec r) as [->|Hne].
  - left. split; [reflexivity|].
    unfold handleRecordDeleteFeedLike, Transaction, Find, DeleteVoteByID, UpdateUpCount,
      exec, query, tick, bind, gets, modify, ret in Hrun.
    simpl in Hrun. unfold voteOf, unliked, bump.
    repeat match type of Hrun with
           | context [if fails ?n then _ else _] =>
               destruct (fails n); simpl in Hrun; try discriminate Hrun
           | context [match find ?f ?l with _ => _ end] =>
               destruct (find f l); simpl in Hrun
           end;
      injection Hrun as <-; reflexivity.
  - right. split; [exact Hne|].
    apply (like_delete_atomic fails evt op w w' r Hrun Hne).
Qed.

(** ** Actor rows *)

Lemma UpsertActor_uids (ai : ActorInfo.t) (d : DB) :
  NoDup (map ActorInfo.Uid (actors d)) ->
  let withID i := ActorInfo.mk i (ActorInfo.Uid ai) (ActorInfo.Handle ai)
                    (ActorInfo.Did ai) (ActorInfo.DisplayName ai)
                    (ActorInfo.Type_ ai) (ActorInfo.PDS ai) in
  let d' := match actorByUid (ActorInfo.Uid ai) d with
            | Some _ =>
                setActors (map (fun a => if ActorInfo.Uid a =? ActorInfo.Uid ai
                                         then withID (ActorInfo.ID a) else a)
                               (actors d)) d
            | None =>
                mkDB (actors d ++ [withID (nextActorID d)]) (posts d) (votes d)
                     (follows d) (reposts d) (pdss d) (nextActorID d + 1)
                     (nextPostID d) (nextVoteID d) (nextFollowID d) (nextRepostID d)
            end in
  NoDup (map ActorInfo.Uid (actors d'))
  /\ (forall a, In a (actors d) -> ActorInfo.Uid a <> ActorInfo.Uid ai ->
                In a (actors d'))
  /\ exists a, actorByUid (ActorInfo.Uid ai) d' = Some a.
Proof.
  intros Hnd withID d'. subst d'. unfold actorByUid.
  destruct (find (fun a => ActorInfo.Uid a =? ActorInfo.Uid ai) (actors d)) as [old|] eqn:Hf;
    simpl.
  - split; [|split].
    + replace (map ActorInfo.Uid
                 (map (fun a => if ActorInfo.Uid a =? ActorInfo.Uid ai
                                then withID (ActorInfo.ID a) else a) (actors d)))
        with (map ActorInfo.Uid (actors d)); [exact Hnd|].
      rewrite map_map. apply map_ext. intros a.
      destruct (ActorInfo.Uid a =? ActorInfo.Uid ai) eqn:He; [|reflexivity].
      apply Z.eqb_eq in He. simpl. exact He.
    + intros a Ha Hne. apply in_map_iff. exists a. split; [|exact Ha].
      apply Z.eqb_neq in Hne. rewrite Hne. reflexivity.
    + clear Hnd. induction (actors d) as [|x xs IH]; [discriminate Hf|].
      simpl in *. destruct (ActorInfo.Uid x =? ActorInfo.Uid ai) eqn:Hx.
      * simpl. rewrite Z.eqb_refl. eexists. reflexivity.
      * rewrite Hx. apply IH. exact Hf.
  - split; [|split].
    + rewrite map_app. simpl.
      apply NoDup_app; [exact Hnd|repeat constructor; intros []|].
      intros u Hu [<-|[]].
      apply in_map_iff in Hu. destruct Hu as (a & Ha & Hin).
      pose proof (find_none _ _ Hf a Hin) as Hn. simpl in Hn.
      apply Z.eqb_neq in Hn. contradiction.
    + intros a Ha _. apply in_or_app. left. exact Ha.
    + rewrite (find_app_none _ _ _ Hf). simpl. rewrite Z.eqb_refl. eexists. reflexivity.
Qed.

(** X18.  Initialising an actor keeps one actor row per UID.  Whatever
    fails, when UIDs are unique before [handleInitActor] they are unique
    after it, and the rows of the other actors are kept. *)
Theorem handleInitActor_keeps_uids_unique (fails : nat -> bool)
    (evt : Repomgr.RepoEvent) (op : Repomgr.RepoOp) (w w' : World) (r : Res unit) :
  NoDup (map ActorInfo.Uid (actors (db w))) ->
  handleInitActor fails evt op w = (r, w') ->
  NoDup (map ActorInfo.Uid (actors (db w')))
  /\ (forall a, In a (actors (db w)) -> ActorInfo.Uid a <> Repomgr.User evt ->
                In a (actors (db w'))).
Proof.
  intros Hnd Hrun.
  unfold handleInitActor, UpsertActor, CreateFollow, exec, deref, wrapErr, tick, bind,
    gets, modify, ret, panic in Hrun.
  destruct (Repomgr.OpActorInfo op) as [ai|]; simpl in Hrun;
    [|injection Hrun as <- <-; split; [exact Hnd|intros a Ha _; exact Ha]].
  destruct (fails (clock w)); simpl in Hrun;
    [injection Hrun as <- <-; split; [exact Hnd|intros a Ha _; exact Ha]|].
  pose proof (UpsertActor_uids
                (ActorInfo.mk 0 (Repomgr.User evt) (Some (Repomgr.Handle ai))
                   (Repomgr.Did ai) (Repomgr.DisplayName ai) (Repomgr.Type_ ai)
                   (Repomgr.PDS evt)) (db w) Hnd) as Hup.
  cbv zeta in Hup. simpl in Hup. destruct Hup as (Hnd' & Hkeep & _).
  destruct (fails (S (clock w))); simpl in Hrun; injection Hrun as <- <-; simpl;
    (split; [exact Hnd'|exact Hkeep]).
Qed.

(** ** Post creates *)

Section PostCreate.
Variable ParseAtUri : string -> Res ParsedUri.
Variable ix : Indexer.

Lemma resolveMentions_known_list (es : list Bsky.FeedPost_Entity) :
  forall (acc : list ActorInfo.t) (w : World),
    (forall e, In e es -> Bsky.Type_ e = "mention" ->
               exists a, actorByDid (Bsky.Value e) (db w) = Some a
                         /\ ActorInfo.ID a <> 0) ->
    exists w1,
      resolveMentions Sample.noFaults ix es acc w
      = (Ok (acc ++ mentionedActors es (db w)), w1)
      /\ db w1 = db w /\ notifs w1 = notifs w.
Proof.
  induction es as [|e rest IH]; intros acc w Hknown.
  - exists w. simpl. rewrite app_nil_r. repeat split.
  - simpl. destruct (String.eqb (Bsky.Type_ e) "mention") eqn:Hm.
    + apply String.eqb_eq in Hm.
      destruct (Hknown e (or_introl eq_refl) Hm) as (a & Ha & Hid).
      unfold bind at 1. rewrite (GetUserOrMissing_known ix _ a w Ha Hid).
      destruct (IH (acc ++ [a]) (ticked w)) as (w1 & Hrun & Hdb & Hn).
      { intros e' Hin Hm'. apply Hknown; [right; exact Hin|exact Hm']. }
      exists w1. rewrite Hrun. simpl in Hdb, Hn |- *. rewrite Ha, <- app_assoc.
      repeat split; assumption.
    + destruct (IH acc w) as (w1 & Hrun & Hdb & Hn).
      { intros e' Hin Hm'. apply Hknown; [right; exact Hin|exact Hm']. }
      exists w1. repeat split; assumption.
Qed.

Lemma notifyMentions_notifs (fp : FeedPost.t) (ms : list ActorInfo.t) :
  forall w, exists w1,
    notifyMentions Sample.noFaults fp ms w = (Ok tt, w1)
    /\ db w1 = db w
    /\ notifs w1
       = notifs w ++ map (fun m => AddMention (FeedPost.Author fp) (FeedPost.ID fp)
                                     (ActorInfo.Uid m)) ms.
Proof.
  induction ms as [|m rest IH]; intros w.
  - exists w. simpl. rewrite app_nil_r. repeat split.
  - simpl. unfold bind at 1. unfold notify, tick, bind, modify. simpl.
    destruct (IH (mkWorld (db w) (S (clock w))
                    (notifs w ++ [AddMention (FeedPost.Author fp) (FeedPost.ID fp)
                                    (ActorInfo.Uid m)])
                    (crawlQueue w) (emitted w))) as (w1 & Hrun & Hdb & Hn).
    exists w1. split; [exact Hrun|]. split; [exact Hdb|].
    rewrite Hn. simpl. rewrite <- app_assoc. reflexivity.
Qed.

(** X19.  The first create of a post.  On a database whose statements
    execute, for a record whose reply references and mentions resolve and
    a [(user, rkey)] that has no row yet: the handler returns nil; one
    row is appended to the posts table, with the next id of the
    sequence, the CID of the record, the id of the parent as its reply
    target, and a zero up-count; the author of a reply gets one reply
    notification carrying the parent row, and then every mentioned actor
    one mention notification, in the order of the mentions. *)
Theorem post_create_fresh (user : Uid) (rkey : string) (rcid : Cid)
    (rec : Bsky.FeedPost) (w : World) (replyid : Z) :
  ReplyKnown ParseAtUri rec (db w) replyid ->
  MentionsKnown rec (db w) ->
  postByRkeyAndAuthor rkey user (db w) = None ->
  let id := nextPostID (db w) in
  exists w',
    handleRecordCreateFeedPost Sample.noFaults ParseAtUri ix user rkey rcid rec w
    = (Ok tt, w')
    /\ posts (db w')
       = posts (db w) ++ [FeedPost.mk id user rkey rcid 0 replyid false false]
    /\ notifs w'
       = notifs w
           ++ match parentPost ParseAtUri rec (db w) with
              | Some pp => [AddReplyTo user id pp]
              | None => []
              end
           ++ map (fun m => AddMention user id (ActorInfo.Uid m))
                  (mentionedActors (Bsky.Entities rec) (db w)).
Proof.
  intros Hreply Hknown Hnone id.
  unfold handleRecordCreateFeedPost. unfold bind at 1.
  assert (Hres : exists wr,
             match Bsky.Reply rec with
             | Some reply =>
                 parent <- deref (Bsky.Parent reply) ;;
                 replyto <- GetPostOrMissing Sample.noFaults ParseAtUri ix
                              (Bsky.Uri parent) ;;
                 root <- deref (Bsky.Root reply) ;;
                 GetPostOrMissing Sample.noFaults ParseAtUri ix (Bsky.Uri root) ;;
                 ret (FeedPost.ID replyto)
             | None => ret 0
             end w = (Ok replyid, wr) /\ db wr = db w /\ notifs wr = notifs w).
  { pose proof Hreply as Hr. unfold ReplyKnown in Hr.
    destruct (Bsky.Reply rec) as [reply|].
    - destruct Hr as (parent & root & puriP & puriR & pp & rp & Hpa & Hro & HpP & HpR
                      & HfP & HfR & HidP & HidR & ->).
      rewrite Hpa, Hro. unfold deref. unfold bind at 1. unfold ret at 1.
      unfold bind at 1. rewrite (GetPostOrMissing_known _ _ _ puriP pp w HpP HfP HidP).
      unfold bind at 1. unfold ret at 1. unfold bind at 1.
      rewrite (GetPostOrMissing_known _ _ _ puriR rp (ticked w) HpR HfR HidR).
      exists (ticked (ticked w)). repeat split.
    - subst replyid. exists w. repeat split. }
  destruct Hres as (wr & Hres & Hdbr & Hnr). rewrite Hres. cbv beta iota.
  unfold bind at 1.
  destruct (resolveMentions_known_list (Bsky.Entities rec) [] wr)
    as (w1 & Hms & Hdb1 & Hn1).
  { rewrite Hdbr. exact Hknown. }
  rewrite Hms. cbv beta iota. simpl app. rewrite Hdbr.
  assert (Hdb : db w1 = db w) by congruence.
  assert (Hn : notifs w1 = notifs w) by congruence.
  clear Hres Hms Hdbr Hnr Hdb1 Hn1 wr.
  unfold bind at 1. unfold Find, query, tick, bind at 1 2, gets, ret. simpl.
  rewrite Hdb, Hnone. simpl.
  unfold bind at 1. unfold CreatePost, tick, bind at 1 2 3, gets, modify, ret, fail. simpl.
  rewrite Hnone. simpl.
  unfold addNewPostNotification. unfold parentPost. unfold ReplyKnown in Hreply.
  destruct (Bsky.Reply rec) as [reply|].
  - destruct Hreply as (parent & root & puriP & puriR & pp & rp & Hpa & Hro & HpP & HpR
                        & HfP & HfR & HidP & HidR & ->).
    rewrite Hpa. unfold deref, GetPost, parseUri, First, query, tick, notify.
    unfold bind, gets, ret, modify. rewrite HpP. simpl.
    match goal with
    | |- context [postByRkeyAndAuthorDid ?r ?d ?D] =>
        replace (postByRkeyAndAuthorDid r d D) with (Some pp)
    end.
    2: { unfold postByRkeyAndAuthorDid in HfP |- *. unfold actorByDid in *. simpl.
         destruct (find (fun a => String.eqb (ActorInfo.Did a) (puri_Did puriP))
                        (actors (db w))) as [a|]; [|discriminate HfP].
         symmetry. apply find_app_some. exact HfP. }
    simpl. rewrite HfP.
    match goal with
    | |- context [notifyMentions Sample.noFaults ?fp ?ms ?w2] =>
        destruct (notifyMentions_notifs fp ms w2) as (w3 & Hrun & Hdb3 & Hn3)
    end.
    exists w3. rewrite Hrun, Hdb3, Hn3. simpl. rewrite Hn, <- app_assoc.
    repeat split.
  - subst replyid. unfold bind, ret. simpl.
    match goal with
    | |- context [notifyMentions Sample.noFaults ?fp ?ms ?w2] =>
        destruct (notifyMentions_notifs fp ms w2) as (w3 & Hrun & Hdb3 & Hn3)
    end.
    exists w3. rewrite Hrun, Hdb3, Hn3. simpl. rewrite Hn.
    repeat split.
Qed.
End PostCreate.

(** ** Reposts *)

Section Reposts.
Variable fails : nat -> bool.
Variable ParseAtUri : string -> Res ParsedUri.
Variable ix : Indexer.
Hypothesis Hhook : HookKeepsReposts ix.

(** X20.  A repost create that returns nil has appended one repost row,
    which points to the post that the subject resolved to (a row of the
    posts table), names the user of the event as reposter and the author
    of that post as author, and carries the next id of the sequence; it
    has notified that author of the repost, last; and it returns, as the
    one host to tell, the PDS of that author. *)
Theorem repost_create (rec : Bsky.FeedRepost) (evt : Repomgr.RepoEvent)
    (op : Repomgr.RepoOp) (local : bool) (w w' : World) (out : option (list Z)) :
  Repomgr.Record_ op = Bsky.IsFeedRepost rec ->
  handleRecordCreate fails ParseAtUri ix evt op local w = (Ok out, w') ->
  exists fp author cid,
    Repomgr.RecCid op = Some cid
    /\ In fp (posts (db w'))
    /\ In author (actors (db w'))
    /\ ActorInfo.Uid author = FeedPost.Author fp
    /\ out = Some [ActorInfo.PDS author]
    /\ reposts (db w')
       = reposts (db w)
           ++ [RepostRecord.mk (nextRepostID (db w)) (Bsky.RepostCreatedAt rec)
                 (FeedPost.ID fp) (Repomgr.User evt) (FeedPost.Author fp) cid
                 (Repomgr.Rkey op)]
    /\ exists pre,
         notifs w'
         = pre ++ [AddRepost (FeedPost.Author fp) (nextRepostID (db w)) (Repomgr.User evt)].
Proof.
  intros Hrec Hrun. unfold handleRecordCreate in Hrun. rewrite Hrec in Hrun.
  unfold deref in Hrun.
  destruct (Bsky.RepostSubject rec) as [subject|]; [|discriminate Hrun].
  unfold bind at 1, ret at 1 in Hrun.
  apply bind_inv in Hrun.
  destruct Hrun as [(fp & w1 & Hfp & Hrun)|[_ Hne]]; [|exfalso; apply (Hne out); reflexivity].
  pose proof (GetPostOrMissing_keeps repostsPart fails ParseAtUri ix Hhook
                (fun d ps n => eq_refl) _ _ _ _ Hfp) as Hkeep.
  apply GetPostOrMissing_row in Hfp. destruct Hfp as [Hin _].
  unfold LookupUser, First, CreateRepost, notify, query, tick, bind, gets, modify, ret,
    fail, panic in Hrun.
  simpl in Hrun.
  destruct (fails (clock w1)); simpl in Hrun; [discriminate Hrun|].
  destruct (actorByUid (FeedPost.Author fp) (db w1)) as [author|] eqn:Ha; simpl in Hrun;
    [|discriminate Hrun].
  destruct (Repomgr.RecCid op) as [cid|]; simpl in Hrun; [|discriminate Hrun].
  destruct (fails (S (clock w1))); simpl in Hrun; [discriminate Hrun|].
  destruct (fails (S (S (clock w1)))); simpl in Hrun; [discriminate Hrun|].
  injection Hrun as <- <-. simpl.
  injection Hkeep as Hr Hn.
  unfold actorByUid in Ha. apply find_some in Ha. destruct Ha as [Hina Hu].
  apply Z.eqb_eq in Hu.
  exists fp, author, cid. rewrite Hr, Hn.
  repeat split; try assumption; try reflexivity.
  eexists. reflexivity.
Qed.
End Reposts.

Import Sample.

(** ** The sample data meets the assumptions *)

Lemma parseAtUri_never_panics (uri s : string) : parseAtUri uri <> Panic s.
Proof.
  unfold parseAtUri.
  destruct (negb (HasPrefix uri "at://")); [discriminate|].
  destruct (cut _) as [d [r|]]; [|discriminate].
  destruct (cut r) as [c [r'|]]; [|discriminate].
  destruct (cut r') as [k [r''|]]; discriminate.
Qed.

Lemma sample_hook_never_panics (agg crawl : bool) :
  HookNeverPanics (mkIndexer agg crawl registerExternalUser).
Proof. intros did w s. discriminate. Qed.

Lemma sample_hook_keeps_queue : HookKeepsQueue ix.
Proof. intros did w. reflexivity. Qed.

Lemma sample_hook_keeps_follows : HookKeepsFollows ix.
Proof. intros did w. reflexivity. Qed.

Lemma sample_hook_keeps_reposts : HookKeepsReposts ix.
Proof. intros did w. reflexivity. Qed.

Lemma sample_hook_keeps_likes : HookKeepsLikes ix.
Proof. intros did w. reflexivity. Qed.

Lemma sample_db_consistent : Consistent (db w0).
Proof.
  split.
  - unfold IdsIssued. simpl.
    split; [lia|]. split; [lia|].
    split; [intros p [<-|[]]; simpl; lia|].
    split; [intros v []|].
    split; [constructor|intros v []].
  - intros p [<-|[]]; reflexivity.
Qed.

(** ** The properties on the sample data *)

Lemma GetPostOrMissing_returns_row_witness :
  let uri := "at://did:plc:alice/app.bsky.feed.post/p9" in
  let p := FeedPost.mk 2 10 "p9" "" 0 0 true false in
  let w' := snd (GetPostOrMissing noFaults parseAtUri ix uri w0) in
  GetPostOrMissing noFaults parseAtUri ix uri w0 = (Ok p, w')
  /\ In p (posts (db w'))
  /\ exists puri,
       parseAtUri uri = Ok puri
       /\ (puri_Rkey puri <> "" -> FeedPost.Rkey p = puri_Rkey puri).
Proof.
  cbv zeta.
  assert (Hrun : GetPostOrMissing noFaults parseAtUri ix
                   "at://did:plc:alice/app.bsky.feed.post/p9" w0
                 = (Ok (FeedPost.mk 2 10 "p9" "" 0 0 true false),
                    snd (GetPostOrMissing noFaults parseAtUri ix
                           "at://did:plc:alice/app.bsky.feed.post/p9" w0)))
    by (vm_compute; reflexivity).
  split; [exact Hrun|].
  exact (GetPostOrMissing_returns_row noFaults parseAtUri ix _ w0 _ _ Hrun).
Defined.

Lemma GetUserOrMissing_crawls_unknown_only_witness :
  let xavier := ActorInfo.mk 21 21 None "did:plc:xavier" "" "" 1 in
  let w' := snd (GetUserOrMissing noFaults ix "did:plc:xavier" w0) in
  HookKeepsQueue ix
  /\ hasCrawler ix = true
  /\ GetUserOrMissing noFaults ix "did:plc:xavier" w0 = (Ok xavier, w')
  /\ crawlQueue w'
     = crawlQueue w0
         ++ match actorByDid "did:plc:xavier" (db w0) with
            | Some a => if ActorInfo.ID a =? 0 then [xavier] else []
            | None => [xavier]
            end.
Proof.
  cbv zeta.
  assert (Hrun : GetUserOrMissing noFaults ix "did:plc:xavier" w0
                 = (Ok (ActorInfo.mk 21 21 None "did:plc:xavier" "" "" 1),
                    snd (GetUserOrMissing noFaults ix "did:plc:xavier" w0)))
    by (vm_compute; reflexivity).
  split; [exact sample_hook_keeps_queue|]. split; [reflexivity|]. split; [exact Hrun|].
  exact (GetUserOrMissing_crawls_unknown_only noFaults ix "did:plc:xavier" w0 _ _
           sample_hook_keeps_queue eq_refl Hrun).
Defined.

Lemma crawlRecordReferences_returns_nil_witness :
  (forall uri s, parseAtUri uri <> Panic s)
  /\ HookNeverPanics ix
  /\ fst (crawlRecordReferences (failAt 1) parseAtUri ix followOp w0) = Ok tt.
Proof.
  split; [exact parseAtUri_never_panics|].
  split; [exact (sample_hook_never_panics true true)|].
  exact (crawlRecordReferences_returns_nil (failAt 1) parseAtUri ix
           parseAtUri_never_panics (sample_hook_never_panics true true) followOp w0).
Defined.

Lemma handleRepoOp_without_aggregation_witness :
  let evt := evtBy 20 [followOp] in
  (forall uri s, parseAtUri uri <> Panic s)
  /\ HookNeverPanics ix_crawl_only
  /\ doAggregations ix_crawl_only = false
  /\ handleRepoOp noFaults parseAtUri ix_crawl_only evt followOp w0
     = (Ok tt, snd (crawlRecordReferences noFaults parseAtUri ix_crawl_only followOp w0))
  /\ follows (db (snd (handleRepoOp noFaults parseAtUri ix_crawl_only evt followOp w0)))
     = [].
Proof.
  cbv zeta.
  split; [exact parseAtUri_never_panics|].
  split; [exact (sample_hook_never_panics false true)|].
  split; [reflexivity|].
  split; [|reflexivity].
  exact (proj1 (handleRepoOp_without_aggregation noFaults parseAtUri ix_crawl_only
                  parseAtUri_never_panics (sample_hook_never_panics false true)
                  (evtBy 20 [followOp]) followOp w0 eq_refl) eq_refl).
Defined.

Lemma follow_create_then_delete_witness :
  let rec := Bsky.mkGraphFollow "did:plc:xavier" "2023-06-01T00:00:00Z" in
  let evt := evtBy 20 [followOp] in
  let evt' := evtBy 20 [followDeleteOp] in
  let w2 := snd (handleRecordDeleteGraphFollow noFaults evt' followDeleteOp w_followed) in
  HookKeepsFollows ix
  /\ handleRecordCreateGraphFollow noFaults ix rec evt followOp w0 = (Ok tt, w_followed)
  /\ handleRecordDeleteGraphFollow noFaults evt' followDeleteOp w_followed = (Ok tt, w2)
  /\ follows (db w2) = follows (db w0).
Proof.
  cbv zeta.
  assert (H1 : handleRecordCreateGraphFollow noFaults ix
                 (Bsky.mkGraphFollow "did:plc:xavier" "2023-06-01T00:00:00Z")
                 (evtBy 20 [followOp]) followOp w0 = (Ok tt, w_followed))
    by (vm_compute; reflexivity).
  assert (H2 : handleRecordDeleteGraphFollow noFaults (evtBy 20 [followDeleteOp])
                 followDeleteOp w_followed
               = (Ok tt, snd (handleRecordDeleteGraphFollow noFaults
                                (evtBy 20 [followDeleteOp]) followDeleteOp w_followed)))
    by (vm_compute; reflexivity).
  split; [exact sample_hook_keeps_follows|]. split; [exact H1|]. split; [exact H2|].
  apply (proj2 (follow_create_then_delete noFaults ix sample_hook_keeps_follows _
                  (evtBy 20 [followOp]) (evtBy 20 [followDeleteOp]) followOp followDeleteOp
                  w0 w_followed _ eq_refl eq_refl H1 H2)).
  intros f [].
Defined.

Lemma follow_update_replaces_witness :
  let rec := Bsky.mkGraphFollow "did:plc:alice" "2023-06-04T00:00:00Z" in
  let evt := evtBy 20 [followUpdateOp] in
  let w' := snd (handleRecordUpdate noFaults parseAtUri ix evt followUpdateOp false
                   w_followed) in
  HookKeepsFollows ix
  /\ handleRecordUpdate noFaults parseAtUri ix evt followUpdateOp false w_followed
     = (Ok tt, w')
  /\ follows (db w_followed) = [FollowRecord.mk 1 20 21 "f1" "bafyfollow1"]
  /\ exists target cid,
       Repomgr.RecCid followUpdateOp = Some cid
       /\ follows (db w')
          = filter (fun f => negb (followKey 20 "f1" f)) (follows (db w_followed))
              ++ [FollowRecord.mk (nextFollowID (db w_followed)) 20 target "f1" cid]
       /\ filter (followKey 20 "f1") (follows (db w'))
          = [FollowRecord.mk (nextFollowID (db w_followed)) 20 target "f1" cid]
       /\ match actorByDid (Bsky.FollowSubject rec) (db w_followed) with
          | Some a => ActorInfo.ID a <> 0 -> target = ActorInfo.Uid a
          | None => True
          end.
Proof.
  cbv zeta.
  assert (Hrun : handleRecordUpdate noFaults parseAtUri ix (evtBy 20 [followUpdateOp])
                   followUpdateOp false w_followed
                 = (Ok tt, snd (handleRecordUpdate noFaults parseAtUri ix
                                  (evtBy 20 [followUpdateOp]) followUpdateOp false
                                  w_followed)))
    by (vm_compute; reflexivity).
  split; [exact sample_hook_keeps_follows|]. split; [exact Hrun|].
  split; [reflexivity|].
  exact (follow_update_replaces noFaults parseAtUri ix sample_hook_keeps_follows
           (Bsky.mkGraphFollow "did:plc:alice" "2023-06-04T00:00:00Z")
           (evtBy 20 [followUpdateOp]) followUpdateOp false w_followed _ eq_refl Hrun).
Defined.

Lemma post_delete_is_soft_witness :
  let evt := evtBy 10 [postDeleteOp] in
  let w' := snd (handleRecordDelete noFaults parseAtUri evt postDeleteOp false w0) in
  handleRecordDelete noFaults parseAtUri evt postDeleteOp false w0 = (Ok tt, w')
  /\ posts (db w') = [FeedPost.setDeleted true post1]
  /\ (db w' = db w0
      \/ exists fp,
           In fp (posts (db w0))
           /\ Ok tt = Ok tt
           /\ db w' = setPosts (map (flagDeleted (FeedPost.ID fp)) (posts (db w0))) (db w0)).
Proof.
  cbv zeta.
  assert (Hrun : handleRecordDelete noFaults parseAtUri (evtBy 10 [postDeleteOp])
                   postDeleteOp false w0
                 = (Ok tt, snd (handleRecordDelete noFaults parseAtUri
                                  (evtBy 10 [postDeleteOp]) postDeleteOp false w0)))
    by (vm_compute; reflexivity).
  split; [exact Hrun|]. split; [reflexivity|].
  exact (post_delete_is_soft noFaults parseAtUri (evtBy 10 [postDeleteOp]) postDeleteOp
           false w0 _ (Ok tt) eq_refl Hrun).
Defined.

Lemma post_delete_unseen_returns_nil_witness :
  let evt := evtBy 10 [postDeleteUnseenOp] in
  actorByUid (Repomgr.User evt) (db w0) = Some alice
  /\ parseAtUri (postUri alice "p9") = Ok (mkParsedUri "did:plc:alice" "app.bsky.feed.post" "p9")
  /\ postByRkeyAndAuthorDid "p9" "did:plc:alice" (db w0) = None
  /\ handleRecordDelete noFaults parseAtUri evt postDeleteUnseenOp false w0
     = (Ok tt, ticked (ticked w0)).
Proof.
  cbv zeta.
  split; [reflexivity|]. split; [reflexivity|]. split; [reflexivity|].
  exact (post_delete_unseen_returns_nil noFaults parseAtUri (evtBy 10 [postDeleteUnseenOp])
           postDeleteUnseenOp false w0 alice
           (mkParsedUri "did:plc:alice" "app.bsky.feed.post" "p9")
           eq_refl eq_refl eq_refl eq_refl eq_refl eq_refl).
Defined.

Lemma handleRecordDelete_consistent_witness :
  Consistent (db w0)
  /\ Consistent (db (snd (handleRecordDelete (failAt 2) parseAtUri (evtBy 10 [postDeleteOp])
                            postDeleteOp false w0))).
Proof.
  split; [exact sample_db_consistent|].
  exact (handleRecordDelete_consistent (failAt 2) parseAtUri (evtBy 10 [postDeleteOp])
           postDeleteOp false w0 _ _ sample_db_consistent
           (surjective_pairing _)).
Defined.

Lemma handleRecordUpdate_consistent_witness :
  HookKeepsLikes ix
  /\ Consistent (db w0)
  /\ fst (handleRecordUpdate noFaults parseAtUri ix (evtBy 10 [postUpdateOp])
            postUpdateOp false w0) = Ok tt
  /\ Consistent (db (snd (handleRecordUpdate noFaults parseAtUri ix (evtBy 10 [postUpdateOp])
                            postUpdateOp false w0))).
Proof.
  split; [exact sample_hook_keeps_likes|]. split; [exact sample_db_consistent|].
  split; [vm_compute; reflexivity|].
  exact (handleRecordUpdate_consistent noFaults parseAtUri ix sample_hook_keeps_likes
           (evtBy 10 [postUpdateOp]) postUpdateOp false w0 _ _ sample_db_consistent
           (surjective_pairing _)).
Defined.

Lemma like_delete_all_or_nothing_witness :
  let evt := evtBy 20 [likeDeleteOp] in
  let out := handleRecordDeleteFeedLike (failAt 11) evt likeDeleteOp w_liked in
  votes (db w_liked) = [VoteRecord.mk 1 20 1 "2023-06-01T00:00:00Z" "l1" "bafylike1"]
  /\ fst out = Err (ErrExternal "statement failed")
  /\ ((fst out = Ok tt
       /\ db (snd out) = unliked (voteOf 20 "l1" (db w_liked)) (db w_liked))
      \/ (fst out <> Ok tt /\ db (snd out) = db w_liked)).
Proof.
  cbv zeta.
  split; [reflexivity|]. split; [vm_compute; reflexivity|].
  exact (like_delete_all_or_nothing (failAt 11) (evtBy 20 [likeDeleteOp]) likeDeleteOp
           w_liked _ _ (surjective_pairing _)).
Defined.

Lemma handleInitActor_keeps_uids_unique_witness :
  let evt := evtBy 30 [initActorOp] in
  let w' := snd (handleInitActor noFaults evt initActorOp w0) in
  NoDup (map ActorInfo.Uid (actors (db w0)))
  /\ handleInitActor noFaults evt initActorOp w0 = (Ok tt, w')
  /\ NoDup (map ActorInfo.Uid (actors (db w')))
  /\ (forall a, In a (actors (db w0)) -> ActorInfo.Uid a <> 30 -> In a (actors (db w'))).
Proof.
  cbv zeta.
  assert (Hnd : NoDup (map ActorInfo.Uid (actors (db w0)))).
  { simpl. constructor; [intros [H|[]]; discriminate H|].
    constructor; [intros []|constructor]. }
  assert (Hrun : handleInitActor noFaults (evtBy 30 [initActorOp]) initActorOp w0
                 = (Ok tt, snd (handleInitActor noFaults (evtBy 30 [initActorOp])
                                  initActorOp w0)))
    by reflexivity.
  split; [exact Hnd|]. split; [exact Hrun|].
  exact (handleInitActor_keeps_uids_unique noFaults (evtBy 30 [initActorOp]) initActorOp
           w0 _ (Ok tt) Hnd Hrun).
Defined.

Lemma post_create_fresh_witness :
  ReplyKnown parseAtUri replyPost (db w0) 1
  /\ MentionsKnown replyPost (db w0)
  /\ postByRkeyAndAuthor "p2" 20 (db w0) = None
  /\ exists w',
       handleRecordCreateFeedPost noFaults parseAtUri ix 20 "p2" "bafypost2" replyPost w0
       = (Ok tt, w')
       /\ posts (db w')
          = posts (db w0) ++ [FeedPost.mk 2 20 "p2" "bafypost2" 0 1 false false]
       /\ notifs w'
          = notifs w0
              ++ match parentPost parseAtUri replyPost (db w0) with
                 | Some pp => [AddReplyTo 20 2 pp]
                 | None => []
                 end
              ++ map (fun m => AddMention 20 2 (ActorInfo.Uid m))
                     (mentionedActors (Bsky.Entities replyPost) (db w0)).
Proof.
  assert (H1 : ReplyKnown parseAtUri replyPost (db w0) 1).
  { unfold ReplyKnown. simpl.
    exists (Bsky.mkRef "at://did:plc:alice/app.bsky.feed.post/p1" "bafypost1").
    exists (Bsky.mkRef "at://did:plc:alice/app.bsky.feed.post/p1" "bafypost1").
    exists (mkParsedUri "did:plc:alice" "app.bsky.feed.post" "p1").
    exists (mkParsedUri "did:plc:alice" "app.bsky.feed.post" "p1").
    exists post1. exists post1.
    repeat (split; [reflexivity || discriminate|]). reflexivity. }
  assert (H2 : MentionsKnown replyPost (db w0)).
  { intros e [<-|[]] _. exists alice. split; [reflexivity|discriminate]. }
  split; [exact H1|]. split; [exact H2|]. split; [reflexivity|].
  exact (post_create_fresh parseAtUri ix 20 "p2" "bafypost2" replyPost w0 1 H1 H2 eq_refl).
Defined.

Lemma repost_create_witness :
  let evt := evtBy 20 [repostOp] in
  let w' := snd (handleRecordCreate noFaults parseAtUri ix evt repostOp false w0) in
  HookKeepsReposts ix
  /\ handleRecordCreate noFaults parseAtUri ix evt repostOp false w0 = (Ok (Some [1]), w')
  /\ exists fp author cid,
       Repomgr.RecCid repostOp = Some cid
       /\ In fp (posts (db w'))
       /\ In author (actors (db w'))
       /\ ActorInfo.Uid author = FeedPost.Author fp
       /\ Some [1] = Some [ActorInfo.PDS author]
       /\ reposts (db w')
          = reposts (db w0)
              ++ [RepostRecord.mk (nextRepostID (db w0)) (Bsky.RepostCreatedAt repostRec)
                    (FeedPost.ID fp) 20 (FeedPost.Author fp) cid "r1"]
       /\ exists pre,
            notifs w'
            = pre ++ [AddRepost (FeedPost.Author fp) (nextRepostID (db w0)) 20].
Proof.
  cbv zeta.
  assert (Hrun : handleRecordCreate noFaults parseAtUri ix (evtBy 20 [repostOp]) repostOp
                   false w0
                 = (Ok (Some [1]),
                    snd (handleRecordCreate noFaults parseAtUri ix (evtBy 20 [repostOp])
                           repostOp false w0)))
    by (vm_compute; reflexivity).
  split; [exact sample_hook_keeps_reposts|]. split; [exact Hrun|].
  exact (repost_create noFaults parseAtUri ix sample_hook_keeps_reposts repostRec
           (evtBy 20 [repostOp]) repostOp false w0 _ _ eq_refl Hrun).
Defined.

End RecordFacts.

(* ================================================================== *)
(** * Properties of the crawl job: calls and rate limiting *)
(* ================================================================== *)

Module JobFacts.
Import FetchFacts.

Section Job.
Variable fails : nat -> bool.
Variable RS : Type.
Variable repomgr_GetRepoRev : Uid -> RS -> Res string.
Variable repomgr_HandleExternalUserEvent :
Z -> Uid -> string -> option string -> string -> option (list Z) ->
option (list Comatproto.SyncSubscribeRepos_RepoOp) -> RS -> option error * RS.
Variable comatproto_SyncGetRepo :
PDS.t -> string -> string -> RS -> Res (list Z) * RS.
Variable repomgr_ImportNewRepo :
Uid -> string -> list Z -> option string -> RS -> option error * RS.

Let FW : Type := FetchWorld RS.
Let run :=
FetchAndIndexRepo fails RS repomgr_GetRepoRev repomgr_HandleExternalUserEvent
  comatproto_SyncGetRepo repomgr_ImportNewRepo.
Let pdsRow (job : crawlWork) (s : FW) : option PDS.t :=
find (fun p => PDS.ID p =? ActorInfo.PDS (act job)) (pdss (db (world s))).

(** The job up to the point where the PDS row and the stored rev are
    loaded: it stops there with an error and no call made, or goes on
    with both. *)
Lemma FetchAndIndexRepo_loading (job : crawlWork) (s s' : FW) (r : Res unit) :
run job s = (r, s') ->
(r <> Ok tt /\ s' = mkFetchWorld (ticked (world s)) (repo s) (calls s)
 /\ (fails (clock (world s)) = true
     \/ pdsRow job s = None
     \/ forall rev,
          fst (storedRev RS repomgr_GetRepoRev (ActorInfo.Uid (act job)) s) <> Ok rev))
\/ (exists pds rev,
      fails (clock (world s)) = false
      /\ pdsRow job s = Some pds
      /\ fst (storedRev RS repomgr_GetRepoRev (ActorInfo.Uid (act job)) s) = Ok rev
      /\ world s' = ticked (world s)).
Proof.
intros Hrun. unfold pdsRow.
destruct (fails (clock (world s))) eqn:Hnf.
{ left. unfold run, FetchAndIndexRepo in Hrun. unfold bind at 1 in Hrun.
  unfold wrapErr, onWorld, First, query, tick, bind at 1 2 3, gets, ret in Hrun.
  simpl in Hrun. rewrite Hnf in Hrun. simpl in Hrun. injection Hrun as <- <-.
  split; [discriminate|]. split; [reflexivity|left; reflexivity]. }
destruct (find (fun p => PDS.ID p =? ActorInfo.PDS (act job)) (pdss (db (world s))))
  as [pds|] eqn:Hpds.
2: { left. unfold run, FetchAndIndexRepo in Hrun. unfold bind at 1 in Hrun.
     unfold wrapErr, onWorld, First, query, tick, bind at 1 2 3, gets, ret, fail in Hrun.
     simpl in Hrun. rewrite Hnf in Hrun. simpl in Hrun. rewrite Hpds in Hrun.
     simpl in Hrun. injection Hrun as <- <-.
     split; [discriminate|]. split; [reflexivity|right; left; reflexivity]. }
assert (Hrest : forall (rev : string) (s1 : FW),
           (match negb (initScrape job), elems (catchup job) with
            | true, first :: _ =>
                if match Comatproto.Since (evt first) with
                   | None => true
                   | Some since => String.eqb rev since
                   end
                then
                  resync <- replayCatchup RS repomgr_HandleExternalUserEvent pds (act job)
                              (elems (catchup job)) ;;
                  if negb resync then ret tt
                  else fetchAndImport RS comatproto_SyncGetRepo repomgr_ImportNewRepo
                         pds (act job) rev
                else fetchAndImport RS comatproto_SyncGetRepo repomgr_ImportNewRepo
                       pds (act job) rev
            | _, _ => fetchAndImport RS comatproto_SyncGetRepo repomgr_ImportNewRepo
                        pds (act job) rev
            end) s1 = (r, s') ->
           world s' = world s1).
{ intros rev s1 Hr.
  destruct (negb (initScrape job));
    [destruct (elems (catchup job)) as [|first rest]|];
    try (apply fetchAndImport_trace in Hr; apply Hr).
  destruct (match Comatproto.Since (evt first) with
            | None => true
            | Some since => String.eqb rev since
            end);
    [|apply fetchAndImport_trace in Hr; apply Hr].
  unfold bind at 1 in Hr.
  destruct (replayCatchup RS repomgr_HandleExternalUserEvent pds (act job)
              (first :: rest) s1) as [rr s2] eqn:Hrep.
  apply replayCatchup_trace in Hrep. destruct Hrep as (Hw & hs & resync & -> & _).
  destruct resync; simpl in Hr.
  - apply fetchAndImport_trace in Hr. destruct Hr as [Hw' _]. congruence.
  - injection Hr as _ <-. exact Hw. }
unfold run, FetchAndIndexRepo in Hrun. unfold bind at 1 in Hrun.
unfold wrapErr, onWorld, First, query, tick, bind at 1 2 3, gets, ret in Hrun.
simpl in Hrun. rewrite Hnf in Hrun. simpl in Hrun. rewrite Hpds in Hrun. simpl in Hrun.
unfold bind at 1 in Hrun. unfold storedRev at 1, GetRepoRev in Hrun. simpl in Hrun.
unfold storedRev, GetRepoRev.
destruct (repomgr_GetRepoRev (ActorInfo.Uid (act job)) (repo s)) as [rev|e|m] eqn:Hrev;
  simpl in Hrun |- *.
- right. exists pds, rev. repeat split; try reflexivity.
  apply Hrest in Hrun. exact Hrun.
- destruct (negb (isNotFound e)) eqn:Hne; simpl in Hrun |- *.
  + left. injection Hrun as <- <-. split; [discriminate|]. split; [reflexivity|].
    right. right. intros rev. discriminate.
  + right. exists pds, "". repeat split; try reflexivity.
    apply Hrest in Hrun. exact Hrun.
- left. injection Hrun as <- <-. split; [discriminate|]. split; [reflexivity|].
  right. right. intros rev. discriminate.
Qed.

(** X21.  The job returns nil only when every buffered event has been replayed
    with success, and nothing else was called, or when its last call is
    an import that succeeded. *)
Theorem FetchAndIndexRepo_success (job : crawlWork) (s s' : FW) :
run job s = (Ok tt, s') ->
exists pds t,
  pdsRow job s = Some pds
  /\ calls s' = calls s ++ t
  /\ ((initScrape job = false
       /\ elems (catchup job) <> []
       /\ t = map (fun j => replayCall pds (act job) j None) (elems (catchup job)))
      \/ (exists pre repo rev, t = pre ++ [importCall (act job) repo rev None])).
Proof.
intros Hrun.
destruct (FetchAndIndexRepo_loading job s s' (Ok tt) Hrun)
  as [(Hne & _)|(pds & rev & Hnf & Hpds & Hrev & _)]; [contradiction Hne; reflexivity|].
destruct (FetchAndIndexRepo_trace fails RS repomgr_GetRepoRev
            repomgr_HandleExternalUserEvent comatproto_SyncGetRepo repomgr_ImportNewRepo
            job s s' (Ok tt) pds rev Hnf Hpds Hrev Hrun)
  as (hs & p & resync & Hc & Hh & Hp).
exists pds, (hs ++ p). split; [exact Hpds|]. split; [exact Hc|].
destruct resync.
- right.
  inversion Hp as [res Hres Heq Hr|repo0 Heq Hr|repo0 err0 Hnf0 Heq Hr
                   |repo0 err0 res Hnf0 Hres Heq Hr
                   |repo0 err0 repo1 result Hnf0 Heq Hr].
  + destruct res; [contradiction|discriminate Hr|discriminate Hr].
  + exists (hs ++ fetchCall pds (act job) rev (Ok repo0)), repo0, (Some rev).
    rewrite <- app_assoc. reflexivity.
  + destruct res; [contradiction|discriminate Hr|discriminate Hr].
  + destruct result; [discriminate Hr|].
    exists (hs ++ fetchCall pds (act job) rev (Ok repo0)
               ++ [importCall (act job) repo0 (Some rev) (Some err0)]
               ++ fetchCall pds (act job) "" (Ok repo1)), repo1, None.
    rewrite <- !app_assoc. reflexivity.
- left. destruct Hp as [-> _]. rewrite app_nil_r.
  destruct (initScrape job); simpl in Hh; [destruct Hh as [_ Hh]; discriminate Hh|].
  destruct (elems (catchup job)) as [|first rest];
    [destruct Hh as [_ Hh]; discriminate Hh|].
  destruct (match Comatproto.Since (evt first) with
            | None => true
            | Some since => String.eqb rev since
            end); [|destruct Hh as [_ Hh]; discriminate Hh].
  split; [reflexivity|]. split; [discriminate|].
  inversion Hh. reflexivity.
Qed.

Lemma Waited_split (pds : PDS.t) (ai : ActorInfo.t) (t : list Call) :
forall (prev : option Call) (pre post : list Call) (c : Call),
  Waited pds ai prev t ->
  t = pre ++ c :: post ->
  isFetch c = true ->
  (exists since res, c = CallSyncGetRepo (PDS.Host pds) (ActorInfo.Did ai) since res)
  /\ match pre with
     | [] => prev = Some (CallLimiterWait (PDS.ID pds))
     | _ => exists pre', pre = pre' ++ [CallLimiterWait (PDS.ID pds)]
     end.
Proof.
induction t as [|x t IH]; intros prev pre post c Hw Ht Hc.
- destruct pre; discriminate Ht.
- destruct pre as [|y pre]; simpl in Ht; injection Ht as -> Ht.
  + destruct Hw as [Hx _]. destruct (Hx Hc) as [Hp Hf]. split; assumption.
  + destruct Hw as [_ Hw].
    destruct (IH (Some y) pre post c Hw Ht Hc) as [Hf Hpre]. split; [exact Hf|].
    destruct pre as [|z pre].
    * injection Hpre as ->. exists []. reflexivity.
    * destruct Hpre as (pre' & ->). exists (y :: pre'). reflexivity.
Qed.

Lemma Waited_replays (pds : PDS.t) (ai : ActorInfo.t) (hs p : list Call) :
Forall (fun c => isReplay c = true) hs ->
(forall prev, Waited pds ai prev p) ->
forall prev, Waited pds ai prev (hs ++ p).
Proof.
intros Hhs Hp. induction Hhs as [|c hs Hc _ IH]; intros prev; [apply Hp|].
simpl. split; [|apply IH].
intros Hf. destruct c; discriminate.
Qed.

Lemma Waited_pipeline (pds : PDS.t) (ai : ActorInfo.t) (rev : string)
  (p : list Call) (r : Res unit) :
PipelineTrace pds ai rev p r -> forall prev, Waited pds ai prev p.
Proof.
intros H prev.
inversion H; subst; simpl;
  repeat match goal with
         | |- _ /\ _ => split
         | |- _ -> _ => intros ?
         | H0 : false = true |- _ => discriminate H0
         | |- exists since res, CallSyncGetRepo _ _ ?x ?y = _ => exists x, y
         | |- _ => reflexivity
         | |- True => exact I
         end.
Qed.

(** X22.  Rate limiting: every [sync.getRepo] of a job comes directly after a
    wait on the limiter of the PDS of the actor, and is sent to the host
    of that PDS for the DID of the actor. *)
Theorem FetchAndIndexRepo_rate_limited (job : crawlWork) (s s' : FW) (r : Res unit) :
run job s = (r, s') ->
exists t,
  calls s' = calls s ++ t
  /\ forall pre c post,
       t = pre ++ c :: post ->
       isFetch c = true ->
       exists pds pre' since res,
         pdsRow job s = Some pds
         /\ pre = pre' ++ [CallLimiterWait (PDS.ID pds)]
         /\ c = CallSyncGetRepo (PDS.Host pds) (ActorInfo.Did (act job)) since res.
Proof.
intros Hrun.
destruct (FetchAndIndexRepo_loading job s s' r Hrun)
  as [(_ & -> & _)|(pds & rev & Hnf & Hpds & Hrev & _)].
{ exists []. simpl. rewrite app_nil_r. split; [reflexivity|].
  intros [|x pre] c post Ht; discriminate Ht. }
destruct (FetchAndIndexRepo_trace fails RS repomgr_GetRepoRev
            repomgr_HandleExternalUserEvent comatproto_SyncGetRepo repomgr_ImportNewRepo
            job s s' r pds rev Hnf Hpds Hrev Hrun)
  as (hs & p & resync & Hc & Hh & Hp).
exists (hs ++ p). split; [exact Hc|].
assert (Hreplays : Forall (fun c => isReplay c = true) hs).
{ destruct (negb (initScrape job)); [destruct (elems (catchup job)) as [|first rest]|];
    try (destruct Hh as [-> _]; constructor).
  destruct (match Comatproto.Since (evt first) with
            | None => true
            | Some since => String.eqb rev since
            end); [apply (ReplayTrace_replays _ _ _ _ _ Hh)|].
  destruct Hh as [-> _]. constructor. }
assert (Hw : forall prev, Waited pds (act job) prev p).
{ destruct resync; [apply (Waited_pipeline _ _ _ _ _ Hp)|].
  destruct Hp as [-> _]. intros prev. exact I. }
intros pre c post Ht Hf.
destruct (Waited_split pds (act job) (hs ++ p) None pre post c
            (Waited_replays pds (act job) hs p Hreplays Hw None) Ht Hf)
  as [(since & res & ->) Hpre].
destruct pre as [|x pre]; [discriminate Hpre|].
destruct Hpre as (pre' & Hpre).
exists pds, pre', since, res. split; [exact Hpds|]. split; [exact Hpre|reflexivity].
Qed.

(** X23.  An initial scrape, and a job without buffered events, replay
    nothing: once the PDS row and the stored rev are loaded, the calls of
    the job are those of the fetch and import steps, which start with a
    fetch of the changes since the stored rev. *)
Theorem FetchAndIndexRepo_without_replay (job : crawlWork) (s s' : FW) (r : Res unit) :
initScrape job = true \/ elems (catchup job) = [] ->
run job s = (r, s') ->
exists t,
  calls s' = calls s ++ t
  /\ Forall (fun c => isReplay c = false) t
  /\ (t = []
      \/ exists pds rev res rest,
           pdsRow job s = Some pds
           /\ fst (storedRev RS repomgr_GetRepoRev (ActorInfo.Uid (act job)) s) = Ok rev
           /\ PipelineTrace pds (act job) rev t r
           /\ t = fetchCall pds (act job) rev res ++ rest).
Proof.
intros Hjob Hrun.
destruct (FetchAndIndexRepo_loading job s s' r Hrun)
  as [(_ & -> & _)|(pds & rev & Hnf & Hpds & Hrev & _)].
{ exists []. simpl. rewrite app_nil_r. split; [reflexivity|].
  split; [constructor|left; reflexivity]. }
destruct (FetchAndIndexRepo_trace fails RS repomgr_GetRepoRev
            repomgr_HandleExternalUserEvent comatproto_SyncGetRepo repomgr_ImportNewRepo
            job s s' r pds rev Hnf Hpds Hrev Hrun)
  as (hs & p & resync & Hc & Hh & Hp).
assert (Hhs : hs = [] /\ resync = true).
{ destruct Hjob as [Hi|He].
  - rewrite Hi in Hh. exact Hh.
  - rewrite He in Hh. destruct (negb (initScrape job)); exact Hh. }
destruct Hhs as [-> ->]. simpl in Hc.
exists p. split; [exact Hc|].
destruct (PipelineTrace_fetches _ _ _ _ _ Hp) as [(res & rest & Hfirst) _].
split.
- inversion Hp; subst; repeat constructor.
- right. exists pds, rev, res, rest. repeat split; assumption.
Qed.

(** X24.  The job calls no one (repository manager, limiter, PDS) exactly when
    it cannot load the PDS row of the actor or the stored rev; it then
    returns an error.  Once both are loaded, at least one call is made. *)
Theorem FetchAndIndexRepo_no_call_iff (job : crawlWork) (s s' : FW) (r : Res unit) :
run job s = (r, s') ->
(calls s' = calls s
 <-> (fails (clock (world s)) = true
      \/ pdsRow job s = None
      \/ forall rev,
           fst (storedRev RS repomgr_GetRepoRev (ActorInfo.Uid (act job)) s) <> Ok rev))
/\ (calls s' = calls s -> r <> Ok tt /\ repo s' = repo s).
Proof.
intros Hrun.
destruct (FetchAndIndexRepo_loading job s s' r Hrun)
  as [(Hne & -> & Hwhy)|(pds & rev & Hnf & Hpds & Hrev & _)].
{ simpl. split; [split; [intros _; exact Hwhy|reflexivity]|].
  intros _. split; [exact Hne|reflexivity]. }
destruct (FetchAndIndexRepo_trace fails RS repomgr_GetRepoRev
            repomgr_HandleExternalUserEvent comatproto_SyncGetRepo repomgr_ImportNewRepo
            job s s' r pds rev Hnf Hpds Hrev Hrun)
  as (hs & p & resync & Hc & Hh & Hp).
assert (Hcalled : calls s' <> calls s).
{ intros Heq. rewrite Heq in Hc.
  rewrite <- (app_nil_r (calls s)) in Hc at 1.
  apply app_inv_head in Hc. symmetry in Hc. apply app_eq_nil in Hc.
  destruct Hc as [-> ->].
  destruct resync.
  - inversion Hp.
  - destruct (negb (initScrape job)); [|destruct Hh as [_ Hh]; discriminate Hh].
    destruct (elems (catchup job)) as [|first rest];
      [destruct Hh as [_ Hh]; discriminate Hh|].
    destruct (match Comatproto.Since (evt first) with
              | None => true
              | Some since => String.eqb rev since
              end); [|destruct Hh as [_ Hh]; discriminate Hh].
    inversion Hh. }
split; [split|]; try (intros Heq; contradiction).
intros [Hf|[Hn|Hr]].
- rewrite Hnf in Hf. discriminate Hf.
- rewrite Hpds in Hn. discriminate Hn.
- exfalso. apply (Hr rev). exact Hrev.
Qed.
End Job.

(** ** The properties on the sample jobs *)

Lemma FetchAndIndexRepo_success_witness :
  let s' := snd (Sample.runJob Sample.job_s5 Sample.job_state) in
  Sample.runJob Sample.job_s5 Sample.job_state = (Ok tt, s')
  /\ exists pds t,
       find (fun p => PDS.ID p =? ActorInfo.PDS (act Sample.job_s5))
            (pdss (db (world Sample.job_state))) = Some pds
       /\ calls s' = calls Sample.job_state ++ t
       /\ ((initScrape Sample.job_s5 = false
            /\ elems (catchup Sample.job_s5) <> []
            /\ t = map (fun j => replayCall pds (act Sample.job_s5) j None)
                       (elems (catchup Sample.job_s5)))
           \/ (exists pre repo rev, t = pre ++ [importCall (act Sample.job_s5) repo rev None])).
Proof.
  cbv zeta.
  assert (Hrun : Sample.runJob Sample.job_s5 Sample.job_state
                 = (Ok tt, snd (Sample.runJob Sample.job_s5 Sample.job_state)))
    by (vm_compute; reflexivity).
  split; [exact Hrun|].
  exact (FetchAndIndexRepo_success Sample.noFaults string Sample.storedRevOf
           Sample.applyEvent Sample.getRepo Sample.importRepo
           Sample.job_s5 Sample.job_state _ Hrun).
Defined.

Lemma FetchAndIndexRepo_rate_limited_witness :
  let s' := snd (Sample.runJob Sample.job_s6 Sample.job_state) in
  Sample.runJob Sample.job_s6 Sample.job_state = (Ok tt, s')
  /\ exists t,
       calls s' = calls Sample.job_state ++ t
       /\ forall pre c post,
            t = pre ++ c :: post ->
            isFetch c = true ->
            exists pds pre' since res,
              find (fun p => PDS.ID p =? ActorInfo.PDS (act Sample.job_s6))
                   (pdss (db (world Sample.job_state))) = Some pds
              /\ pre = pre' ++ [CallLimiterWait (PDS.ID pds)]
              /\ c = CallSyncGetRepo (PDS.Host pds) (ActorInfo.Did (act Sample.job_s6))
                       since res.
Proof.
  cbv zeta.
  assert (Hrun : Sample.runJob Sample.job_s6 Sample.job_state
                 = (Ok tt, snd (Sample.runJob Sample.job_s6 Sample.job_state)))
    by (vm_compute; reflexivity).
  split; [exact Hrun|].
  exact (FetchAndIndexRepo_rate_limited Sample.noFaults string Sample.storedRevOf
           Sample.applyEvent Sample.getRepo Sample.importRepo
           Sample.job_s6 Sample.job_state _ (Ok tt) Hrun).
Defined.

Lemma FetchAndIndexRepo_without_replay_witness :
  let out := Sample.runJob Sample.job_init Sample.job_state in
  (initScrape Sample.job_init = true \/ elems (catchup Sample.job_init) = [])
  /\ Sample.runJob Sample.job_init Sample.job_state = (fst out, snd out)
  /\ exists t,
       calls (snd out) = calls Sample.job_state ++ t
       /\ Forall (fun c => isReplay c = false) t
       /\ (t = []
           \/ exists pds rev res rest,
                find (fun p => PDS.ID p =? ActorInfo.PDS (act Sample.job_init))
                     (pdss (db (world Sample.job_state))) = Some pds
                /\ fst (storedRev string Sample.storedRevOf
                          (ActorInfo.Uid (act Sample.job_init)) Sample.job_state) = Ok rev
                /\ PipelineTrace pds (act Sample.job_init) rev t (fst out)
                /\ t = fetchCall pds (act Sample.job_init) rev res ++ rest).
Proof.
  cbv zeta.
  assert (H1 : initScrape Sample.job_init = true \/ elems (catchup Sample.job_init) = [])
    by (left; reflexivity).
  assert (Hrun : Sample.runJob Sample.job_init Sample.job_state
                 = (fst (Sample.runJob Sample.job_init Sample.job_state),
                    snd (Sample.runJob Sample.job_init Sample.job_state)))
    by (vm_compute; reflexivity).
  split; [exact H1|]. split; [exact Hrun|].
  exact (FetchAndIndexRepo_without_replay Sample.noFaults string Sample.storedRevOf
           Sample.applyEvent Sample.getRepo Sample.importRepo
           Sample.job_init Sample.job_state _ _ H1 Hrun).
Defined.

Lemma FetchAndIndexRepo_no_call_iff_witness :
  let out := Sample.runJob Sample.job_no_pds Sample.job_state in
  Sample.runJob Sample.job_no_pds Sample.job_state = (fst out, snd out)
  /\ (calls (snd out) = calls Sample.job_state
      <-> (Sample.noFaults (clock (world Sample.job_state)) = true
           \/ find (fun p => PDS.ID p =? ActorInfo.PDS (act Sample.job_no_pds))
                   (pdss (db (world Sample.job_state))) = None
           \/ forall rev,
                fst (storedRev string Sample.storedRevOf
                       (ActorInfo.Uid (act Sample.job_no_pds)) Sample.job_state)
                <> Ok rev))
  /\ (calls (snd out) = calls Sample.job_state ->
      fst out <> Ok tt /\ repo (snd out) = repo Sample.job_state).
Proof.
  cbv zeta.
  assert (Hrun : Sample.runJob Sample.job_no_pds Sample.job_state
                 = (fst (Sample.runJob Sample.job_no_pds Sample.job_state),
                    snd (Sample.runJob Sample.job_no_pds Sample.job_state)))
    by (vm_compute; reflexivity).
  split; [exact Hrun|].
  exact (FetchAndIndexRepo_no_call_iff Sample.noFaults string Sample.storedRevOf
           Sample.applyEvent Sample.getRepo Sample.importRepo
           Sample.job_no_pds Sample.job_state _ _ Hrun).
Defined.

End JobFacts.

(* ================================================================== *)
(** * Properties of the rate limiters *)
(* ================================================================== *)

Module LimiterFacts.
Import Limiters.

Section Facts.
Variable float64 : Type.
Let St : Type := State float64.

(** X25.  One limiter per PDS, and the first rate wins.  For a PDS without
    a limiter, [GetOrCreateLimiter] allocates one with the given rate and
    burst 1; from then on [GetLimiter] and [GetOrCreateLimiter] return
    that same limiter, whatever rate the later calls pass, and allocate
    nothing; the limiters of the other PDSs are never affected. *)
Theorem GetOrCreateLimiter_once (pdsID : Z) (r1 r2 : float64) (st : St) :
  Limiters float64 st pdsID = None ->
  let first := GetOrCreateLimiter float64 pdsID r1 st in
  let second := GetOrCreateLimiter float64 pdsID r2 (snd first) in
  load float64 (snd first) (fst first) = Some (mkLimiter float64 r1 1)
  /\ GetLimiter float64 pdsID (snd first) = fst first
  /\ second = first
  /\ (forall a lim, load float64 st (Some a) = Some lim ->
                    load float64 (snd first) (Some a) = Some lim
                    /\ Some a <> fst first)
  /\ (forall k, k <> pdsID ->
                GetLimiter float64 k (snd first) = GetLimiter float64 k st).
Proof.
  intros Hnone. cbv zeta.
  assert (Hfirst : GetOrCreateLimiter float64 pdsID r1 st
                   = (Some (List.length (heap float64 st)),
                      mkState float64
                        (store pdsID (Some (List.length (heap float64 st)))
                           (Limiters float64 st))
                        (heap float64 st ++ [mkLimiter float64 r1 1])))
    by (unfold GetOrCreateLimiter; rewrite Hnone; reflexivity).
  rewrite Hfirst. cbn [fst snd].
  unfold GetOrCreateLimiter, GetLimiter, store, load. simpl.
  rewrite Z.eqb_refl. simpl.
  split; [|split; [reflexivity|split; [reflexivity|split]]].
  - rewrite nth_error_app2 by lia. rewrite Nat.sub_diag. reflexivity.
  - intros a lim Ha. split.
    + rewrite nth_error_app1; [exact Ha|].
      apply nth_error_Some. rewrite Ha. discriminate.
    + intros [= ->].
      assert (Hlt : (List.length (heap float64 st) < List.length (heap float64 st))%nat).
      { apply nth_error_Some. rewrite Ha. discriminate. }
      lia.
  - intros k Hk. apply Z.eqb_neq in Hk. rewrite Hk. reflexivity.
Qed.

(** X26.  [SetLimiter] replaces: after it, [GetLimiter] and
    [GetOrCreateLimiter] return the limiter that was set for that PDS
    (nil included: none is created in its place), a second
    [SetLimiter] overrides the first, and the other PDSs keep theirs. *)
Theorem SetLimiter_replaces (pdsID : Z) (lim lim' : Ptr) (r : float64) (st : St) :
  GetLimiter float64 pdsID (SetLimiter float64 pdsID lim st) = lim
  /\ GetOrCreateLimiter float64 pdsID r (SetLimiter float64 pdsID lim st)
     = (lim, SetLimiter float64 pdsID lim st)
  /\ GetLimiter float64 pdsID
       (SetLimiter float64 pdsID lim' (SetLimiter float64 pdsID lim st)) = lim'
  /\ (forall k, k <> pdsID ->
                GetLimiter float64 k (SetLimiter float64 pdsID lim st)
                = GetLimiter float64 k st).
Proof.
  unfold GetLimiter, GetOrCreateLimiter, SetLimiter, store. simpl.
  rewrite Z.eqb_refl. repeat split.
  intros k Hk. apply Z.eqb_neq in Hk. rewrite Hk. reflexivity.
Qed.
End Facts.

Lemma GetOrCreateLimiter_once_witness :
  let st := mkState Z (fun _ => None) [] in
  let first := GetOrCreateLimiter Z 1 5 st in
  let second := GetOrCreateLimiter Z 1 50 (snd first) in
  Limiters Z st 1 = None
  /\ load Z (snd first) (fst first) = Some (mkLimiter Z 5 1)
  /\ second = first.
Proof.
  cbv zeta. split; [reflexivity|].
  pose proof (GetOrCreateLimiter_once Z 1 5 50 (mkState Z (fun _ => None) []) eq_refl)
    as H.
  cbv zeta in H. split; [exact (proj1 H)|exact (proj1 (proj2 (proj2 H)))].
Defined.

End LimiterFacts.
